(** * Insurance-Document-Analyzer: chunker and retrieval index

    A shallow embedding of [src/document_processor.py] (the chunker) and
    [src/vector_store.py] (the TF-IDF retrieval index), with the properties
    the specification states about them, and of the upload filter of
    [src/app.py] and the topic guard of [src/llm_client.py].

    Python [str] values are modelled as [string]: the bytes of the UTF-8
    encoding of the text, of which [len] counts the characters.  The
    classes of characters are those of ASCII: whitespace, digits and
    letters of other scripts are characters like any other here, and the
    statements that turn on the digits a pattern takes say that their
    text is ASCII.  Python
    [float] is modelled as binary64 [float], a Python [set] of strings as [gset string],
    a [dict] with a fixed key set as a record, and a raised exception as an
    explicit [Raise] outcome next to the state the call leaves behind.
    scikit-learn and numpy are outside the repository: the index is
    parameterised by an interface ([Sklearn]) for them. *)

From Stdlib Require Import Floats Uint63 ZArith String Ascii List Bool Lia Sorted.
From stdpp Require Import gmap strings list sorting.
Import ListNotations.

Local Open Scope string_scope.
#[local] Set Warnings "-inexact-float".

(** ** Python string primitives *)

Module Py.

(** [str.isspace] on the ASCII range: TAB..CR, FS..US and the blank. *)
Definition isspace (c : ascii) : bool :=
  let n := nat_of_ascii c in
  (((9 <=? n) && (n <=? 13)) || ((28 <=? n) && (n <=? 32)))%nat.

(** The digits 0 to 9.  Python's [\d] and [str.isdigit] also take the
    decimal digits of other scripts. *)
Definition isdigit (c : ascii) : bool :=
  let n := nat_of_ascii c in ((48 <=? n) && (n <=? 57))%nat.

Definition lower_char (c : ascii) : ascii :=
  let n := nat_of_ascii c in
  if ((65 <=? n) && (n <=? 90))%nat then ascii_of_nat (n + 32) else c.

Definition upper_char (c : ascii) : ascii :=
  let n := nat_of_ascii c in
  if ((97 <=? n) && (n <=? 122))%nat then ascii_of_nat (n - 32) else c.

(** [s.lower()] *)
Fixpoint lower (s : string) : string :=
  match s with
  | EmptyString => EmptyString
  | String c s' => String (lower_char c) (lower s')
  end.

(** [s.lstrip()], [s.rstrip()], [s.strip()] *)
Fixpoint lstrip (s : string) : string :=
  match s with
  | EmptyString => EmptyString
  | String c s' => if isspace c then lstrip s' else s
  end.

Fixpoint rstrip (s : string) : string :=
  match s with
  | EmptyString => EmptyString
  | String c s' =>
      match rstrip s' with
      | EmptyString => if isspace c then EmptyString else String c EmptyString
      | r => String c r
      end
  end.

Definition strip (s : string) : string := lstrip (rstrip s).

(** [len(s)]: the number of characters, that is of the bytes that do not
    continue a character of more than one byte (10xxxxxx). *)
Definition continues (c : ascii) : bool :=
  let n := nat_of_ascii c in ((128 <=? n) && (n <=? 191))%nat.

Fixpoint len (s : string) : nat :=
  match s with
  | EmptyString => O
  | String c s' => if continues c then len s' else S (len s')
  end.

(** Truthiness of a string: [if s:] *)
Definition truthy (s : string) : bool :=
  match s with EmptyString => false | _ => true end.

(** [p in s] for strings: [p] occurs as a contiguous substring of [s]. *)
Fixpoint contains (p s : string) : bool :=
  String.prefix p s ||
  match s with
  | EmptyString => false
  | String _ s' => contains p s'
  end.

(** [s.split()]: the maximal runs of non-whitespace characters. *)
Fixpoint split_go (cur : string) (s : string) : list string :=
  match s with
  | EmptyString => if truthy cur then [cur] else []
  | String c s' =>
      if isspace c
      then (if truthy cur then cur :: split_go EmptyString s'
            else split_go EmptyString s')
      else split_go (cur ++ String c EmptyString) s'
  end.

Definition split (s : string) : list string := split_go EmptyString s.

(** [sep.join(l)] *)
Definition join (sep : string) (l : list string) : string :=
  String.concat sep l.

(** [l[start:]] with Python's treatment of negative and oversized bounds. *)
Definition slice_from {A} (start : Z) (l : list A) : list A :=
  let n := Z.of_nat (length l) in
  let st := if (start <? 0)%Z then Z.max 0 (n + start) else Z.min start n in
  drop (Z.to_nat st) l.

(** [min(a, b)] on floats: [b] when [b < a], else [a]. *)
Definition min (a b : float) : float :=
  if PrimFloat.ltb b a then b else a.

(** [s.replace(old, new)] for a non-empty [old]: the occurrences of [old]
    are taken leftmost first and do not overlap.  [skip] counts the
    characters of the occurrence in hand that are still to be dropped. *)
Fixpoint replace_go (old new : string) (skip : nat) (s : string) : string :=
  match s with
  | EmptyString => EmptyString
  | String c s' =>
      match skip with
      | S n => replace_go old new n s'
      | O =>
          if String.prefix old s
          then new ++ replace_go old new (String.length old - 1) s'
          else String c (replace_go old new 0 s')
      end
  end.

Definition replace (old new : string) (s : string) : string :=
  replace_go old new 0 s.

(** [s.rsplit(sep, 1)[1]] for a one-character [sep]: what follows the
    last [sep]; [None] where the list has one element only and the
    subscript raises. *)
Fixpoint rsplit1_last (sep : ascii) (s : string) : option string :=
  match s with
  | EmptyString => None
  | String c s' =>
      match rsplit1_last sep s' with
      | Some t => Some t
      | None => if Ascii.eqb c sep then Some s' else None
      end
  end.

End Py.

(** ** Exceptions

    A call either returns a value or raises; the state it leaves behind is
    kept next to the outcome by the callers below. *)

Inductive exn : Type :=
| AttributeError
| IndexError
| ValueError
| NotFittedError
| OSError
| PickleError.

Inductive outcome (A : Type) : Type :=
| Ret (a : A)
| Raise (e : exn).
Arguments Ret {A} a.
Arguments Raise {A} e.

(** ** A backtracking matcher for the [re] patterns of the source *)

Module Re.

(** Members of a bracket expression. *)
Inductive item : Type :=
| IChar (c : ascii)
| IRange (lo hi : ascii)
| IDigit
| ISpace.

Inductive regex : Type :=
| Eps
| Lit (c : ascii)
| AnyChar                               (* [.] : anything but a newline *)
| Set_ (negated : bool) (items : list item)
| Cat (r1 r2 : regex)
| Alt (r1 r2 : regex)
| Star (greedy : bool) (r : regex)
| Group (n : nat) (r : regex)
| Bol                                   (* [^] *)
| Eol.                                  (* [$] *)

Definition Plus (r : regex) : regex := Cat r (Star true r).
Definition Opt (r : regex) : regex := Alt r Eps.
Definition Seq (rs : list regex) : regex := foldr Cat Eps rs.
Definition Alts (rs : list regex) : regex :=
  match rs with
  | [] => Eps
  | r :: rs' => foldl (fun acc x => Alt acc x) r rs'
  end.
Fixpoint Str (s : string) : regex :=
  match s with
  | EmptyString => Eps
  | String c s' => Cat (Lit c) (Str s')
  end.
Definition digit : regex := Set_ false [IDigit].
Definition space : regex := Set_ false [ISpace].

Definition newline : ascii := ascii_of_nat 10.

Definition item_base (it : item) (c : ascii) : bool :=
  match it with
  | IChar x => Ascii.eqb x c
  | IRange lo hi =>
      ((nat_of_ascii lo <=? nat_of_ascii c) && (nat_of_ascii c <=? nat_of_ascii hi))%nat
  | IDigit => Py.isdigit c
  | ISpace => Py.isspace c
  end.

(** With [re.IGNORECASE] a member matches a character when it matches
    one of its case variants. *)
Definition item_matches (ic : bool) (it : item) (c : ascii) : bool :=
  item_base it c ||
  (ic && (item_base it (Py.lower_char c) || item_base it (Py.upper_char c))).

Definition caps : Type := list (nat * string).

(** The outcome of a successful match: where it ends and what the groups
    captured (most recent first). *)
Definition cont : Type := nat -> string -> caps -> option (nat * caps).

Fixpoint run (ic : bool) (r : regex) (pos : nat) (s : string) (g : caps)
    (k : cont) {struct r} : option (nat * caps) :=
  match r with
  | Eps => k pos s g
  | Lit c =>
      match s with
      | String x s' =>
          if item_matches ic (IChar c) x then k (S pos) s' g else None
      | EmptyString => None
      end
  | AnyChar =>
      match s with
      | String x s' =>
          if Ascii.eqb x newline then None else k (S pos) s' g
      | EmptyString => None
      end
  | Set_ negated items =>
      match s with
      | String x s' =>
          if xorb negated (existsb (fun it => item_matches ic it x) items)
          then k (S pos) s' g else None
      | EmptyString => None
      end
  | Cat r1 r2 =>
      run ic r1 pos s g (fun p' s' g' => run ic r2 p' s' g' k)
  | Alt r1 r2 =>
      match run ic r1 pos s g k with
      | Some x => Some x
      | None => run ic r2 pos s g k
      end
  | Star greedy r1 =>
      (fix loop (fuel : nat) (pos : nat) (s : string) (g : caps)
           {struct fuel} : option (nat * caps) :=
         match fuel with
         | O => k pos s g
         | S f =>
             let again :=
               fun (_ : unit) =>
                 run ic r1 pos s g
                   (fun p' s' g' =>
                      if (pos <? p')%nat then loop f p' s' g' else None) in
             if greedy
             then match again tt with
                  | Some x => Some x
                  | None => k pos s g
                  end
             else match k pos s g with
                  | Some x => Some x
                  | None => again tt
                  end
         end) (S (String.length s)) pos s g
  | Group n r1 =>
      run ic r1 pos s g
        (fun p' s' g' => k p' s' ((n, String.substring 0 (p' - pos) s) :: g'))
  | Bol => if (pos =? 0)%nat then k pos s g else None
  | Eol =>
      match s with
      | EmptyString => k pos s g
      | String x EmptyString =>
          if Ascii.eqb x newline then k pos s g else None
      | _ => None
      end
  end.

(** A match object. *)
Record match_ : Type := { m_start : nat; m_end : nat; m_groups : caps }.

Definition match_at (ic : bool) (r : regex) (pos : nat) (s : string)
    : option match_ :=
  match run ic r pos s [] (fun p _ g => Some (p, g)) with
  | Some (e, g) => Some {| m_start := pos; m_end := e; m_groups := g |}
  | None => None
  end.

(** [re.match(pattern, s)] *)
Definition rmatch (ic : bool) (r : regex) (s : string) : option match_ :=
  match_at ic r 0 s.

Fixpoint search_from (ic : bool) (r : regex) (pos : nat) (s : string)
    : option match_ :=
  match match_at ic r pos s with
  | Some m => Some m
  | None =>
      match s with
      | EmptyString => None
      | String _ s' => search_from ic r (S pos) s'
      end
  end.

(** [re.search(pattern, s)]: the leftmost match. *)
Definition search (ic : bool) (r : regex) (s : string) : option match_ :=
  search_from ic r 0 s.

(** [m.group(n)] *)
Fixpoint lookup_group (n : nat) (g : caps) : string :=
  match g with
  | [] => EmptyString
  | (n', v) :: g' => if (n =? n')%nat then v else lookup_group n g'
  end.

Definition group (m : match_) (n : nat) : string :=
  lookup_group n (m_groups m).

(** Truthiness of what [re.search] and [re.match] return. *)
Definition found (m : option match_) : bool :=
  match m with Some _ => true | None => false end.

(** *** Substitution

    [re.sub(pattern, repl, s)] for a pattern that matches no empty string.
    The pattern is given by [at_ pos prev rest]: where a match that starts
    at [pos] ends, [rest] being the text from [pos] on and [prev] the
    character before it.  Matches are taken leftmost first and do not
    overlap; the characters between them are copied. *)
Definition matcher : Type := nat -> option ascii -> string -> option nat.

Fixpoint sub_go (at_ : matcher) (repl : string) (pos : nat)
    (prev : option ascii) (skip : nat) (s : string) : string :=
  match s with
  | EmptyString => EmptyString
  | String c s' =>
      match skip with
      | S n => sub_go at_ repl (S pos) (Some c) n s'
      | O =>
          match at_ pos prev s with
          | Some e =>
              if (pos <? e)%nat
              then repl ++ sub_go at_ repl (S pos) (Some c) (e - pos - 1) s'
              else String c (sub_go at_ repl (S pos) (Some c) 0 s')
          | None => String c (sub_go at_ repl (S pos) (Some c) 0 s')
          end
      end
  end.

Definition sub (at_ : matcher) (repl : string) (s : string) : string :=
  sub_go at_ repl 0 None 0 s.

(** A pattern without anchors. *)
Definition plain (ic : bool) (r : regex) : matcher :=
  fun pos _ rest =>
    match match_at ic r pos rest with
    | Some m => Some (m_end m)
    | None => None
    end.

(** [^body$] under [re.MULTILINE]: [^] holds at the start of the text and
    after a newline, [$] at the end of the text and before a newline. *)
Definition at_line_start (prev : option ascii) : bool :=
  match prev with
  | None => true
  | Some c => Ascii.eqb c newline
  end.

Definition at_line_end (rest : string) : bool :=
  match rest with
  | EmptyString => true
  | String c _ => Ascii.eqb c newline
  end.

Definition whole_line (ic : bool) (body : regex) : matcher :=
  fun pos prev rest =>
    if at_line_start prev
    then match run ic body pos rest []
                 (fun p rest' g => if at_line_end rest' then Some (p, g) else None)
         with
         | Some (e, _) => Some e
         | None => None
         end
    else None.

End Re.

(** ** The chunker: [src/document_processor.py] *)

Module DocumentProcessor.
Import Re.

(** [self.chunk_size], [self.chunk_overlap] *)
Record t : Type := { chunk_size : nat; chunk_overlap : nat }.

Definition __init__ : t := {| chunk_size := 1000; chunk_overlap := 200 |}.

(** The [metadata] dictionary of a chunk. *)
Record Metadata : Type := {
  source : string;
  page : nat;
  clause_title : string;
  clause_number : string;
  chunk_id : nat
}.

(** A chunk: [{'text': ..., 'metadata': {...}}]. *)
Record Chunk : Type := { text : string; metadata : Metadata }.

(** The dictionary [_extract_clause_info] returns. *)
Record ClauseInfo : Type := { title : string; number : string }.

(** A pattern: the text of the raw string as the source spells it, which
    the code inspects with [in], and the expression it denotes. *)
Record Pattern : Type := { pattern_src : string; pattern_re : regex }.

Definition number_re : regex :=
  Cat (Plus digit) (Star true (Cat (Lit ".") (Plus digit))).

Definition not_dot : regex := Set_ true [IChar "."].
Definition upper_letter : regex := Set_ false [IRange "A" "Z"].

Definition clause_patterns : list Pattern :=
  [ {| pattern_src := "(?:Clause|Section|Article)\s+(\d+(?:\.\d+)*)\s*:?\s*([^\n.]+)";
       pattern_re :=
         Seq [ Alts [Str "Clause"; Str "Section"; Str "Article"];
               Plus space;
               Group 1 number_re;
               Star true space; Opt (Lit ":"); Star true space;
               Group 2 (Plus (Set_ true [IChar newline; IChar "."])) ] |};
    {| pattern_src := "(\d+(?:\.\d+)*)\.\s*([A-Z][^.]+)";
       pattern_re :=
         Seq [ Group 1 number_re;
               Lit "."; Star true space;
               Group 2 (Cat upper_letter (Plus not_dot)) ] |};
    {| pattern_src := "([A-Z][^.]+)\s*-\s*Clause\s+(\d+(?:\.\d+)*)";
       pattern_re :=
         Seq [ Group 1 (Cat upper_letter (Plus not_dot));
               Star true space; Lit "-"; Star true space;
               Str "Clause"; Plus space;
               Group 2 number_re ] |} ].

(** The body of the [for pattern in clause_patterns] loop: the first
    pattern that matches fills the dictionary and breaks out. *)
Fixpoint extract_loop (patterns : list Pattern) (text : string)
    (clause_info : ClauseInfo) : ClauseInfo :=
  match patterns with
  | [] => clause_info
  | pattern :: rest =>
      match search true (pattern_re pattern) text with
      | Some m =>
          if Py.contains "Clause" (pattern_src pattern)
             || Py.contains "Section" (pattern_src pattern)
          then {| number := group m 1; title := Py.strip (group m 2) |}
          else {| number := group m 1; title := Py.strip (group m 2) |}
      | None => extract_loop rest text clause_info
      end
  end.

Definition _extract_clause_info (text : string) : ClauseInfo :=
  extract_loop clause_patterns text {| title := ""; number := "" |}.

(** [re.split(r'(?<=[.!?])\s+', text)]: a separator is a maximal run of
    whitespace that directly follows one of [.], [!], [?]. *)
Definition is_end (c : ascii) : bool :=
  Ascii.eqb c "." || Ascii.eqb c "!" || Ascii.eqb c "?".

Inductive mode : Type :=
| InText (after_end : bool)   (* inside a piece; was the last character an end mark? *)
| InGap.                      (* inside a separator *)

(** [scan m s] is the piece in progress followed by the later pieces. *)
Fixpoint scan (m : mode) (s : string) : string * list string :=
  match s with
  | EmptyString => (EmptyString, [])
  | String c s' =>
      match m with
      | InGap =>
          if Py.isspace c then scan InGap s'
          else let '(h, t) := scan (InText (is_end c)) s' in (String c h, t)
      | InText e =>
          if e && Py.isspace c
          then let '(h, t) := scan InGap s' in (EmptyString, h :: t)
          else let '(h, t) := scan (InText (is_end c)) s' in (String c h, t)
      end
  end.

Definition split_sentences (text : string) : list string :=
  let '(h, t) := scan (InText false) text in h :: t.

(** The dictionary appended to [chunks]. *)
Definition make_chunk (current_chunk : string) (page_num : nat)
    (filename : string) (n : nat) : Chunk :=
  let clause_info := _extract_clause_info current_chunk in
  {| text := Py.strip current_chunk;
     metadata := {| source := filename;
                    page := page_num;
                    clause_title := title clause_info;
                    clause_number := number clause_info;
                    chunk_id := n |} |}.

(** The [for sentence in sentences] loop over the pair
    ([chunks], [current_chunk]). *)
Fixpoint chunk_loop (self : t) (page_num : nat) (filename : string)
    (sentences : list string) (chunks : list Chunk) (current_chunk : string)
    : list Chunk * string :=
  match sentences with
  | [] => (chunks, current_chunk)
  | sentence :: rest =>
      if (chunk_size self <? Py.len current_chunk + Py.len sentence)%nat
         && Py.truthy current_chunk
      then chunk_loop self page_num filename rest
             (chunks ++ [make_chunk current_chunk page_num filename (length chunks)])
             (sentence ++ " ")
      else chunk_loop self page_num filename rest
             chunks (current_chunk ++ sentence ++ " ")
  end.

Definition _create_chunks (self : t) (text : string) (page_num : nat)
    (filename : string) : list Chunk :=
  let sentences := split_sentences text in
  let '(chunks, current_chunk) :=
    chunk_loop self page_num filename sentences [] "" in
  if Py.truthy (Py.strip current_chunk)
  then chunks ++ [make_chunk current_chunk page_num filename (length chunks)]
  else chunks.

(** *** Cleaning and the pages of a file *)

(** The em dash, as the three bytes of its UTF-8 encoding. *)
Definition em_dash : string :=
  String (ascii_of_nat 226) (String (ascii_of_nat 128)
    (String (ascii_of_nat 148) EmptyString)).

Definition double_quote : string := String (ascii_of_nat 34) EmptyString.

(** The first argument of the one [replace] call line 64 of the source
    parses to. *)
Definition line_64_old : string :=
  ", " ++ double_quote ++ "'" ++ double_quote ++ ").replace(".

(** [Page \d+ of \d+] *)
Definition page_of_re : regex :=
  Seq [Str "Page "; Plus digit; Str " of "; Plus digit].

(** The body of [^\d+\s*$] *)
Definition number_line_re : regex := Cat (Plus digit) (Star true space).

Definition _clean_text (text : string) : string :=
  let text := sub (plain false (Plus space)) " " text in
  let text := sub (plain false page_of_re) "" text in
  let text := sub (whole_line false number_line_re) "" text in
  let text := Py.replace em_dash "-" text in
  let text := Py.replace double_quote double_quote
                (Py.replace double_quote double_quote text) in
  let text := Py.replace line_64_old "'" text in
  Py.strip text.

(** What PyMuPDF gives for a path: [fitz.open] raises or returns a
    document, a sequence of pages; [get_text] of a page raises or returns
    its text. *)
Definition Document : Type := list (outcome string).

(** The [for page_num in range(page_count)] loop. *)
Fixpoint pages_loop (self : t) (filename : string) (doc : list (outcome string))
    (page_num : nat) (chunks : list Chunk) : outcome (list Chunk) :=
  match doc with
  | [] => Ret chunks
  | page :: rest =>
      match page with
      | Raise e => Raise e
      | Ret raw =>
          let text := _clean_text raw in
          if negb (Py.truthy (Py.strip text))
          then pages_loop self filename rest (S page_num) chunks
          else pages_loop self filename rest (S page_num)
                 (chunks ++ _create_chunks self text (page_num + 1) filename)
      end
  end.

(** [process_pdf]: the exception of [fitz.open] or of a page is logged
    and raised again; closing the document changes nothing of the
    result. *)
Definition process_pdf (self : t) (opened : outcome Document)
    (filename : string) : outcome (list Chunk) :=
  match opened with
  | Raise e => Raise e
  | Ret doc => pages_loop self filename doc 0 []
  end.

End DocumentProcessor.


(** ** The retrieval index: [src/vector_store.py] *)

Module VectorStore.
Import Re.

(** A document is the dictionary the chunker emits. *)
Definition Doc : Type := DocumentProcessor.Chunk.

(** What the index uses of scikit-learn, scipy and numpy.  A
    [TfidfVectorizer] is a mutable object: [fit_transform] returns the
    state it leaves the object in together with its outcome. *)
Class Sklearn : Type := {
  vectorizer : Type;
  matrix : Type;
  TfidfVectorizer : nat -> vectorizer;
  fit_transform : vectorizer -> list string -> vectorizer * outcome matrix;
  transform : vectorizer -> list string -> outcome matrix;
  cosine_similarity : matrix -> matrix -> outcome (list (list float));
  matrix_size : matrix -> nat;          (* the [.size] attribute *)
  matrix_rows : matrix -> nat;          (* [.shape[0]] *)
  argsort : list float -> list nat      (* [ndarray.argsort()] *)
}.

(** A search result: a copy of the document with its [similarity_score]. *)
Record ScoredDoc : Type := { doc : Doc; similarity_score : float }.

(** *** Query expansion *)

Definition age_re : regex :=
  Seq [ Group 1 (Plus digit);
        Opt (Set_ false [IChar "M"; IChar "|"; IChar "F"; IChar "|";
                         IChar "m"; IChar "|"; IChar "f"]);
        Opt (Set_ false [IChar "-"; ISpace]);
        Alts [Str "year"; Str "yr"] ].

Definition duration_re : regex :=
  Seq [ Group 1 (Plus digit);
        Opt (Set_ false [IChar "-"; ISpace]);
        Alts [Str "month"; Str "year"; Str "day"] ].

Definition medical_terms : list string :=
  ["surgery"; "operation"; "treatment"; "procedure"; "therapy"].

Definition body_parts : list string :=
  ["knee"; "hip"; "heart"; "eye"; "spine"; "shoulder"; "ankle"].

Definition location_terms : list string :=
  ["pune"; "mumbai"; "delhi"; "bangalore"; "chennai"; "hyderabad"].

(** The list [terms] as the function has built it when it reaches its
    [return]. *)
Definition parsed_terms_list (query : string) : list string :=
  let terms : list string := [] in
  let terms :=
    if found (search true age_re query) then (terms ++ ["age"])%list else terms in
  let terms :=
    (terms ++ List.filter (fun term => Py.contains (Py.lower term) (Py.lower query))
                medical_terms)%list in
  let terms :=
    (terms ++ List.filter (fun part => Py.contains (Py.lower part) (Py.lower query))
                body_parts)%list in
  let terms :=
    if found (search true duration_re query)
    then (terms ++ ["waiting period"; "policy duration"])%list else terms in
  let terms :=
    (terms ++ map (fun _ => "location")
                (List.filter
                   (fun location => Py.contains (Py.lower location) (Py.lower query))
                   location_terms))%list in
  terms.

(** [return list(set(terms))]: the distinct terms, in the order the set
    enumerates them. *)
Definition _parse_structured_query (query : string) : list string :=
  elements (list_to_set (parsed_terms_list query) : gset string).

(** *** The relevance filter *)

Definition pure_contact_patterns : list string :=
  [ "bajaj allianz house, airport road, yerawada, pune";
    "www.bajajallianz.com";
    "bagichelp@bajajallianz.co.in";
    "for more details, log on to:" ].

(** The rupee sign, U+20B9, as its UTF-8 bytes. *)
Definition rupee_sign : string :=
  String (ascii_of_nat 226) (String (ascii_of_nat 130) (String (ascii_of_nat 185) "")).

Definition relevant_keywords : list string :=
  [ "clause"; "section"; "coverage"; "covered"; "excluded"; "waiting period";
    "sum insured"; "premium"; "deductible"; "co-pay"; "treatment"; "surgery";
    "hospitalization"; "medical"; "claim"; "benefit"; "condition"; "terms";
    "policy"; "insured"; "eligible"; "reimbursement"; "expenses"; "limit";
    "pre-existing"; "exclusion"; "inclusion"; "cashless"; "network hospital";
    "procedure"; "operation"; "disease"; "illness"; "injury"; "emergency";
    "ambulance"; "consultation"; "diagnostic"; "therapy"; "medicine";
    "rupees"; rupee_sign; "amount"; "cost"; "fee"; "charge"; "payable" ].

(** [^uin[\-\s]*[a-z0-9]+\s*$] *)
Definition uin_re : regex :=
  Seq [ Bol; Str "uin";
        Star true (Set_ false [IChar "-"; ISpace]);
        Plus (Set_ false [IRange "a" "z"; IRange "0" "9"]);
        Star true space; Eol ].

(** [\d+\.\d+|\d+\s+[a-z].*?(surgery|procedure|treatment|removal|repair)] *)
Definition codes_re : regex :=
  Alt (Seq [Plus digit; Lit "."; Plus digit])
      (Seq [ Plus digit; Plus space; Set_ false [IRange "a" "z"];
             Star false AnyChar;
             Group 1 (Alts [ Str "surgery"; Str "procedure"; Str "treatment";
                             Str "removal"; Str "repair" ]) ]).

Definition _is_relevant_content (text : string) : bool :=
  let text_lower := Py.lower text in
  if (Py.len (Py.strip text) <? 50)%nat then false else
  let is_pure_contact :=
    existsb (fun pattern => Py.contains pattern text_lower) pure_contact_patterns
    && (Py.len (Py.strip text) <? 200)%nat in
  if is_pure_contact then false else
  if found (rmatch false uin_re (Py.strip text_lower)) then false else
  let has_relevant_content :=
    existsb (fun keyword => Py.contains keyword text_lower) relevant_keywords in
  let has_medical_codes :=
    found (search false codes_re text_lower) in
  let has_substantial_text :=
    (5 <? length (List.filter (fun word => (2 <? Py.len word)%nat)
                    (Py.split text)))%nat in
  has_relevant_content || has_medical_codes
  || (has_substantial_text && (100 <? Py.len (Py.strip text))%nat).

(** *** Scoring *)

Definition float_of_nat (n : nat) : float :=
  PrimFloat.of_uint63 (Uint63.of_Z (Z.of_nat n)).

(** The body of [for idx in top_indices] for a document that passed the
    floor: the copy of the document with its boosted score. *)
Definition boost (query : string) (parsed_terms : list string) (d : Doc)
    (similarity : float) : ScoredDoc :=
  let text_lower := Py.lower (DocumentProcessor.text d) in
  let query_words : gset string := list_to_set (Py.split (Py.lower query)) in
  let score :=
    foldl (fun score term =>
             if Py.contains (Py.lower term) text_lower
             then Py.min 1.0 (score * 1.3) else score)
          similarity parsed_terms in
  let text_words : gset string := list_to_set (Py.split text_lower) in
  let common_words := query_words ∩ text_words in
  let score :=
    if bool_decide (common_words ≠ ∅)
    then let boost_factor :=
           Py.min 1.5 (1.0 + float_of_nat (size common_words) * 0.1) in
         Py.min 1.0 (score * boost_factor)
    else score in
  {| doc := d; similarity_score := score |}.

(** The [for idx in top_indices] loop, appending to [results]. *)
Fixpoint collect (documents : list Doc) (query : string)
    (parsed_terms : list string) (similarities : list float)
    (top_indices : list nat) (results : list ScoredDoc)
    : outcome (list ScoredDoc) :=
  match top_indices with
  | [] => Ret results
  | idx :: rest =>
      match similarities !! idx with
      | None => Raise IndexError
      | Some similarity =>
          if PrimFloat.ltb 0.01 similarity
          then match documents !! idx with
               | None => Raise IndexError
               | Some d =>
                   collect documents query parsed_terms similarities rest
                     (results ++ [boost query parsed_terms d similarity])%list
               end
          else collect documents query parsed_terms similarities rest results
      end
  end.

(** [results.sort(key=lambda x: x['similarity_score'], reverse=True)]:
    a stable sort by decreasing score. *)
Fixpoint insert_desc (x : ScoredDoc) (l : list ScoredDoc) : list ScoredDoc :=
  match l with
  | [] => [x]
  | y :: l' =>
      if PrimFloat.ltb (similarity_score x) (similarity_score y)
      then y :: insert_desc x l'
      else x :: y :: l'
  end.

Definition sort_desc (l : list ScoredDoc) : list ScoredDoc :=
  foldr insert_desc [] l.

Section WithSklearn.
Context `{Sklearn}.

(** [similarities.argsort()[-k:][::-1]] *)
Definition top_indices (similarities : list float) (k : Z) : list nat :=
  rev (Py.slice_from (- k) (argsort similarities)).

(** *** The store, the disk and the monad of its methods *)

(** The attributes of a [VectorStore] object. *)
Record Store : Type := {
  self_vectorizer : vectorizer;
  vectors : option matrix;
  documents : list Doc;
  is_fitted : bool
}.

Inductive file : Type := vectorizer_file | vectors_file | docs_file.

(** The directory [vector_db]: the pickled objects it holds, and which
    operations the operating system refuses.  A refused write is a refused
    [open(f, 'wb')] (a read-only file system, a missing permission): the
    file then stays as it was.  A [pickle.dump] that fails after the file
    was opened, and leaves it cut short, is outside this model. *)
Record Disk : Type := {
  vectorizer_pkl : option vectorizer;
  vectors_pkl : option (option matrix);
  documents_pkl : option (list Doc);
  makedirs_fails : bool;
  write_fails : file -> bool;
  read_fails : file -> bool;
  remove_fails : file -> bool
}.

Record World : Type := { self : Store; disk : Disk }.

(** A method: from the world before the call to its outcome and the world
    after it.  A raised exception keeps the mutations made before it. *)
Definition M (A : Type) : Type := World -> outcome A * World.

#[global] Instance M_ret : MRet M := fun A a w => (Ret a, w).

#[global] Instance M_bind : MBind M := fun A B f m w =>
  match m w with
  | (Ret a, w') => f a w'
  | (Raise e, w') => (Raise e, w')
  end.

Definition raise {A} (e : exn) : M A := fun w => (Raise e, w).

(** [try: m  except Exception as e: h e] *)
Definition try_except {A} (m : M A) (h : exn -> M A) : M A := fun w =>
  match m w with
  | (Ret a, w') => (Ret a, w')
  | (Raise e, w') => h e w'
  end.

Definition lift {A} (o : outcome A) : M A := fun w => (o, w).

Definition get_self : M Store := fun w => (Ret (self w), w).
Definition get_disk : M Disk := fun w => (Ret (disk w), w).
Definition put_self (s : Store) : M unit := fun w =>
  (Ret tt, {| self := s; disk := disk w |}).
Definition put_disk (d : Disk) : M unit := fun w =>
  (Ret tt, {| self := self w; disk := d |}).

Definition set_vectorizer (v : vectorizer) : M unit :=
  s ← get_self;
  put_self {| self_vectorizer := v; vectors := vectors s;
              documents := documents s; is_fitted := is_fitted s |}.
Definition set_vectors (m : option matrix) : M unit :=
  s ← get_self;
  put_self {| self_vectorizer := self_vectorizer s; vectors := m;
              documents := documents s; is_fitted := is_fitted s |}.
Definition set_documents (l : list Doc) : M unit :=
  s ← get_self;
  put_self {| self_vectorizer := self_vectorizer s; vectors := vectors s;
              documents := l; is_fitted := is_fitted s |}.
Definition set_is_fitted (b : bool) : M unit :=
  s ← get_self;
  put_self {| self_vectorizer := self_vectorizer s; vectors := vectors s;
              documents := documents s; is_fitted := b |}.

(** *** Persistence *)

Definition makedirs : M unit := fun w =>
  if makedirs_fails (disk w) then (Raise OSError, w) else (Ret tt, w).

Definition exists_ (f : file) : M bool :=
  d ← get_disk;
  mret match f with
       | vectorizer_file => bool_decide (is_Some (vectorizer_pkl d))
       | vectors_file => bool_decide (is_Some (vectors_pkl d))
       | docs_file => bool_decide (is_Some (documents_pkl d))
       end.

(** [with open(f, 'wb') as h: pickle.dump(obj, h)] for each of the three
    files. *)
Definition dump_vectorizer (v : vectorizer) : M unit :=
  d ← get_disk;
  if write_fails d vectorizer_file then raise OSError
  else put_disk {| vectorizer_pkl := Some v; vectors_pkl := vectors_pkl d;
                   documents_pkl := documents_pkl d;
                   makedirs_fails := makedirs_fails d; write_fails := write_fails d;
                   read_fails := read_fails d; remove_fails := remove_fails d |}.

Definition dump_vectors (m : option matrix) : M unit :=
  d ← get_disk;
  if write_fails d vectors_file then raise OSError
  else put_disk {| vectorizer_pkl := vectorizer_pkl d; vectors_pkl := Some m;
                   documents_pkl := documents_pkl d;
                   makedirs_fails := makedirs_fails d; write_fails := write_fails d;
                   read_fails := read_fails d; remove_fails := remove_fails d |}.

Definition dump_documents (l : list Doc) : M unit :=
  d ← get_disk;
  if write_fails d docs_file then raise OSError
  else put_disk {| vectorizer_pkl := vectorizer_pkl d; vectors_pkl := vectors_pkl d;
                   documents_pkl := Some l;
                   makedirs_fails := makedirs_fails d; write_fails := write_fails d;
                   read_fails := read_fails d; remove_fails := remove_fails d |}.

(** [with open(f, 'rb') as h: pickle.load(h)] *)
Definition load_vectorizer : M vectorizer :=
  d ← get_disk;
  if read_fails d vectorizer_file then raise PickleError
  else match vectorizer_pkl d with Some v => mret v | None => raise OSError end.

Definition load_vectors : M (option matrix) :=
  d ← get_disk;
  if read_fails d vectors_file then raise PickleError
  else match vectors_pkl d with Some m => mret m | None => raise OSError end.

Definition load_documents : M (list Doc) :=
  d ← get_disk;
  if read_fails d docs_file then raise PickleError
  else match documents_pkl d with Some l => mret l | None => raise OSError end.

(** [os.remove(f)] *)
Definition remove (f : file) : M unit :=
  d ← get_disk;
  if remove_fails d f then raise OSError
  else put_disk
         {| vectorizer_pkl :=
              match f with vectorizer_file => None | _ => vectorizer_pkl d end;
            vectors_pkl :=
              match f with vectors_file => None | _ => vectors_pkl d end;
            documents_pkl :=
              match f with docs_file => None | _ => documents_pkl d end;
            makedirs_fails := makedirs_fails d; write_fails := write_fails d;
            read_fails := read_fails d; remove_fails := remove_fails d |}.

Definition _save_vectors : M unit :=
  try_except
    (makedirs;;
     s ← get_self;
     dump_vectorizer (self_vectorizer s);;
     dump_vectors (vectors s);;
     dump_documents (documents s))
    (fun e => mret tt).

Definition reset_empty : M unit :=
  set_vectors None;;
  set_documents [];;
  set_is_fitted false.

Definition _load_vectors : M unit :=
  try_except
    (e1 ← exists_ vectorizer_file;
     e2 ← exists_ vectors_file;
     e3 ← exists_ docs_file;
     if e1 && e2 && e3
     then (v ← load_vectorizer;
           set_vectorizer v;;
           m ← load_vectors;
           set_vectors m;;
           l ← load_documents;
           set_documents l;;
           set_is_fitted true)
     else reset_empty)
    (fun e => reset_empty).

(** [VectorStore(max_features)] in a process started on disk [d]. *)
Definition __init__ (max_features : nat) (d : Disk) : World :=
  snd (_load_vectors
         {| self := {| self_vectorizer := TfidfVectorizer max_features;
                       vectors := None; documents := []; is_fitted := false |};
            disk := d |}).

(** The directory without its three snapshot files. *)
Definition no_snapshot (d : Disk) : Disk :=
  {| vectorizer_pkl := None; vectors_pkl := None; documents_pkl := None;
     makedirs_fails := makedirs_fails d; write_fails := write_fails d;
     read_fails := read_fails d; remove_fails := remove_fails d |}.

(** *** The four operations *)

Definition add_documents (documents : list Doc) : M unit :=
  try_except
    (set_documents [];;
     let filtered_documents :=
       List.filter (fun doc => _is_relevant_content (DocumentProcessor.text doc))
         documents in
     match filtered_documents with
     | [] => mret tt
     | _ =>
         let texts := map DocumentProcessor.text filtered_documents in
         set_documents filtered_documents;;
         s ← get_self;
         let '(v, fitted) := fit_transform (self_vectorizer s) texts in
         set_vectorizer v;;
         X ← lift fitted;
         set_vectors (Some X);;
         set_is_fitted true;;
         _save_vectors
     end)
    (fun e => raise e).

(** The first statements of the [try] block of [search_documents]: the raw
    cosine similarity of every indexed row to the expanded query. *)
Definition similarities_of (query : string) : M (list float) :=
  s ← get_self;
  let parsed_terms := _parse_structured_query query in
  let expanded_query := query ++ " " ++ Py.join " " parsed_terms in
  query_vector ← lift (transform (self_vectorizer s) [expanded_query]);
  self_vectors ← match vectors s with
                 | Some m => mret m
                 | None => raise AttributeError
                 end;
  rows ← lift (cosine_similarity query_vector self_vectors);
  match rows !! 0%nat with
  | Some r => mret r
  | None => raise IndexError
  end.

(** The [try] block of [search_documents]. *)
Definition search_body (query : string) (k : Z) : M (list ScoredDoc) :=
  similarities ← similarities_of query;
  s ← get_self;
  results ← lift (collect (documents s) query (_parse_structured_query query)
                    similarities (top_indices similarities k) []);
  mret (sort_desc results).

(** A vectorizer object is always truthy, so the guard
    [not self.vectorizer or not self.vectors.size] comes down to reading
    the [size] attribute of [self.vectors], which [None] does not have; the
    guard stands before the [try]. *)
Definition search_documents (query : string) (k : Z) : M (list ScoredDoc) :=
  s ← get_self;
  match vectors s with
  | None => raise AttributeError
  | Some m =>
      if (matrix_size m =? 0)%nat then mret []
      else try_except (search_body query k) (fun e => mret [])
  end.

Definition get_document_count : M nat :=
  s ← get_self;
  mret (length (documents s)).

Definition remove_each (files : list file) : M unit :=
  foldr (fun (file_path : file) (rest : M unit) =>
           e ← exists_ file_path;
           (if (e : bool) then remove file_path else mret tt);;
           rest)
        (mret tt) files.

Definition clear_all_documents : M unit :=
  try_except
    (set_documents [];;
     set_vectors None;;
     set_is_fitted false;;
     remove_each [vectorizer_file; vectors_file; docs_file])
    (fun e => mret tt).

End WithSklearn.

End VectorStore.

(** ** The upload filter: [src/app.py] *)

Module App.

Definition ALLOWED_EXTENSIONS : gset string := {[ "pdf" ]}.

(** ['.' in filename and filename.rsplit('.', 1)[1].lower() in
    ALLOWED_EXTENSIONS] *)
Definition allowed_file (filename : string) : outcome bool :=
  if Py.contains "." filename
  then match Py.rsplit1_last "." filename with
       | Some ext => Ret (bool_decide (Py.lower ext ∈ ALLOWED_EXTENSIONS))
       | None => Raise IndexError
       end
  else Ret false.

End App.

(** ** The topic guard: [src/llm_client.py] *)

Module LLMClient.

Definition insurance_keywords : list string :=
  [ "coverage"; "covered"; "claim"; "policy"; "premium"; "deductible";
    "benefit"; "treatment"; "disease"; "illness"; "condition"; "medical";
    "hospital"; "doctor"; "surgery"; "medication"; "therapy"; "diagnosis";
    "accident"; "injury"; "disability"; "travel"; "flight"; "cancellation";
    "property"; "damage"; "loss"; "theft"; "fire"; "flood"; "earthquake";
    "dental"; "vision"; "maternity"; "pregnancy"; "mental health";
    "pre-existing"; "waiting period"; "exclusion"; "limit"; "sum insured";
    "reimbursement"; "cashless"; "network hospital"; "co-pay" ].

Definition obvious_non_insurance : list string :=
  [ "candy"; "chocolate"; "snack"; "toy"; "game"; "pencil"; "pen";
    "homework"; "test score"; "weather"; "time"; "date"; "joke" ].

Definition _is_non_insurance_query (query : string) : bool :=
  let query_lower := Py.strip (Py.lower query) in
  if (Py.len query_lower <? 3)%nat then true
  else if existsb (fun keyword => Py.contains keyword query_lower)
                  insurance_keywords
  then false
  else if existsb (fun item => String.prefix item query_lower
                               || String.eqb query_lower item)
                  obvious_non_insurance
  then true
  else false.

End LLMClient.

(** * Vocabulary of the statements *)

Import DocumentProcessor VectorStore.

(** Unfolding of the monad and of the attribute and file accessors. *)
Ltac msimpl :=
  cbv [mbind M_bind mret M_ret try_except raise lift get_self get_disk
       put_self put_disk set_vectorizer set_vectors set_documents
       set_is_fitted reset_empty makedirs exists_ dump_vectorizer
       dump_vectors dump_documents load_vectorizer load_vectors
       load_documents];
  simpl.

Section Vocabulary.
Context `{Sklearn}.

(** A computation that never writes. *)
Definition read_only {A} (m : M A) : Prop := forall w, snd (m w) = w.

(** A computation that touches the disk only. *)
Definition disk_only {A} (m : M A) : Prop := forall w, self (snd (m w)) = self w.

(** The chunks of a batch that pass the relevance filter. *)
Definition relevant (docs : list Doc) : list Doc :=
  List.filter (fun doc => _is_relevant_content (text doc)) docs.
Arguments relevant : simpl never.

(** The tie rule as the specification words it: of two indexed documents
    with the same raw similarity, the later one is selected only if the
    earlier one is. *)
Definition prefers_earlier (similarities : list float) (k : Z) : Prop :=
  forall i j v,
    (i < j)%nat ->
    similarities !! i = Some v -> similarities !! j = Some v ->
    j ∈ top_indices similarities k -> i ∈ top_indices similarities k.

(** Two batches no chunk of which shares its text with a chunk of the
    other, as a check. *)
Definition disjoint_contentb (b1 b2 : list Doc) : bool :=
  forallb (fun d1 => forallb (fun d2 => negb (String.eqb (text d1) (text d2))) b2) b1.

(** A disk that lets the snapshot be written and read back. *)
Definition no_faults (d : Disk) : Prop :=
  makedirs_fails d = false /\
  (forall f, write_fails d f = false) /\
  (forall f, read_fails d f = false).

(** One [add_documents] per batch, in turn, as [upload_files] of [app.py]
    does with the chunks of each uploaded file. *)
Definition add_each (batches : list (list Doc)) (w : World) : World :=
  foldl (fun w b => snd (add_documents b w)) w batches.

End Vocabulary.

(** The order of a ranked list: no result scores below its successor. *)
Definition not_below (a b : ScoredDoc) : Prop :=
  PrimFloat.ltb (similarity_score a) (similarity_score b) = false.

(** What numpy promises of [argsort]: a permutation of the indices along
    which the values never step down.  The order among equal values is not
    part of the promise. *)
Definition ascending (a : list float) (p : list nat) : Prop :=
  forall x y ix iy vx vy,
    (x < y)%nat -> p !! x = Some ix -> p !! y = Some iy ->
    a !! ix = Some vx -> a !! iy = Some vy ->
    PrimFloat.ltb vy vx = false.

Definition is_argsort (a : list float) (p : list nat) : Prop :=
  p ≡ₚ seq 0 (length a) /\ ascending a p.

(** A check of the promise on given lists. *)
Fixpoint ascendingb (a : list float) (p : list nat) : bool :=
  match p with
  | [] => true
  | i :: p' =>
      forallb (fun j => negb (PrimFloat.ltb (nth j a 0%float) (nth i a 0%float))) p'
      && ascendingb a p'
  end.

Definition is_argsortb (a : list float) (p : list nat) : bool :=
  bool_decide (p ≡ₚ seq 0 (length a)) && ascendingb a p.

(** *** Strings without surrounding whitespace *)

Definition starts_nonspace (s : string) : bool :=
  match s with
  | EmptyString => false
  | String c _ => negb (Py.isspace c)
  end.

(** Is the last character of [s] a non-blank one?  [d] answers for the
    empty string. *)
Fixpoint last_nonspace (d : bool) (s : string) : bool :=
  match s with
  | EmptyString => d
  | String c s' => last_nonspace (negb (Py.isspace c)) s'
  end.

Definition trimmed (s : string) : bool :=
  starts_nonspace s && last_nonspace false s.

(** The buffer [current_chunk] after the sentences of [g] went into it. *)
Fixpoint buffer (g : list string) : string :=
  match g with
  | [] => ""
  | s :: g' => s ++ " " ++ buffer g'
  end.

(** Each chunk after the first starts with the sentence that did not fit
    into the buffer of the one before. *)
Inductive seeded (size : nat) : list (list string) -> Prop :=
| seeded_nil : seeded size []
| seeded_one g : seeded size [g]
| seeded_cons g s g' rest :
    (size < Py.len (buffer g) + Py.len s)%nat ->
    seeded size ((s :: g') :: rest) ->
    seeded size (g :: (s :: g') :: rest).

(** The other way round: a sentence that did not fit is never kept
    inside a chunk.  [fitted size pre rest]: each sentence of [rest], in
    turn, fits into the buffer of [pre] and of the sentences of [rest]
    before it.  A group is [packed] when the sentences after its first
    one are [fitted] behind it. *)
Fixpoint fitted (size : nat) (pre rest : list string) : Prop :=
  match rest with
  | [] => True
  | s :: rest' =>
      (Py.len (buffer pre) + Py.len s <= size)%nat /\
      fitted size (pre ++ [s]) rest'
  end.

Definition packed (size : nat) (g : list string) : Prop :=
  match g with
  | [] => True
  | s :: rest => fitted size [s] rest
  end.

(** The state of the loop against the groups of sentences behind it:
    [done] are the groups of the chunks emitted so far, [cur] the group in
    the buffer. *)
Record tracks (size : nat) (chunks : list Chunk) (current_chunk : string)
    (done : list (list string)) (cur : list string) : Prop := {
  tracks_chunks : map text chunks = map (fun g => Py.strip (buffer g)) done;
  tracks_buffer : current_chunk = buffer cur;
  tracks_nonempty : Forall (fun g => g <> []) done;
  tracks_started : done = [] \/ cur <> [];
  tracks_seeded : seeded size (done ++ [cur]);
  tracks_packed : Forall (packed size) (done ++ [cur])
}.

(** Has [s] a character that is not whitespace? *)
Fixpoint nonblank (s : string) : bool :=
  match s with
  | EmptyString => false
  | String c s' => negb (Py.isspace c) || nonblank s'
  end.

(** All the strings of [l] but the last are [nonblank]. *)
Fixpoint inner_nonblank (l : list string) : bool :=
  match l with
  | [] => true
  | s :: l' =>
      match l' with
      | [] => true
      | _ :: _ => nonblank s && inner_nonblank l'
      end
  end.

(** Has [s] a decimal digit? *)
Fixpoint has_digit (s : string) : bool :=
  match s with
  | EmptyString => false
  | String c s' => Py.isdigit c || has_digit s'
  end.

(** An expression every match of which takes in a decimal digit: a
    bracket of [\d] alone, or built from one by sequence, alternation of
    two such, or grouping. *)
Fixpoint needs_digit (r : Re.regex) : bool :=
  match r with
  | Re.Set_ false items =>
      forallb (fun it => match it with Re.IDigit => true | _ => false end) items
  | Re.Cat r1 r2 => needs_digit r1 || needs_digit r2
  | Re.Alt r1 r2 => needs_digit r1 && needs_digit r2
  | Re.Group _ r1 => needs_digit r1
  | _ => false
  end.

(** The terms query expansion can produce. *)
Definition expansion_vocabulary : list string :=
  ("age" :: medical_terms ++ body_parts
   ++ ["waiting period"; "policy duration"; "location"])%list.

(** [numbered p f chunks]: ids 0, 1, 2, ... in order, page [p], source [f]. *)
Definition numbered (page_num : nat) (filename : string)
    (chunks : list Chunk) : Prop :=
  map (fun c => chunk_id (metadata c)) chunks = seq 0 (length chunks) /\
  Forall (fun c => page (metadata c) = page_num /\ source (metadata c) = filename)
         chunks.

(** A chunk without a clause label. *)
Definition unlabelled (c : Chunk) : Prop :=
  clause_title (metadata c) = "" /\ clause_number (metadata c) = "".

(** A chunk text as the data model wants it: not empty, and left alone by
    [strip]. *)
Definition well_formed (c : Chunk) : Prop :=
  text c <> "" /\ Py.strip (text c) = text c.

(** The bound on a chunk: within the target size, or one sentence of the
    text on its own. *)
Definition bounded (size : nat) (all : list string) (c : Chunk) : Prop :=
  (Py.len (text c) <= size)%nat \/
  exists s, s ∈ all /\ text c = Py.strip s.

Definition buffer_bounded (size : nat) (all : list string)
    (current_chunk : string) : Prop :=
  current_chunk = "" \/
  exists x, current_chunk = x ++ " " /\
            ((Py.len x <= size)%nat \/ x ∈ all).

(** Does every character of [s] satisfy [P]? *)
Fixpoint all_chars (P : ascii -> bool) (s : string) : bool :=
  match s with
  | EmptyString => true
  | String c s' => P c && all_chars P s'
  end.

(** A text of ASCII characters only.  On such a text [\d], [\s], [lower]
    and the folding of case of [re.IGNORECASE] are in Python what they
    are here; beyond ASCII Python's [\d] also takes the decimal digits
    of other scripts. *)
Definition is_ascii (s : string) : bool :=
  all_chars (fun c => (nat_of_ascii c <? 128)%nat) s.

(** A character that is the blank or no whitespace at all. *)
Definition blank_or_ink (c : ascii) : bool :=
  negb (Py.isspace c) || Ascii.eqb c " ".

(** The loop of a starred expression, by name: [step] runs the
    expression under the star. *)
Section StarLoop.
Variable step : nat -> string -> Re.caps -> Re.cont -> option (nat * Re.caps).
Variable greedy : bool.
Variable k : Re.cont.

Fixpoint star_loop (fuel : nat) (pos : nat) (s : string) (g : Re.caps)
    {struct fuel} : option (nat * Re.caps) :=
  match fuel with
  | O => k pos s g
  | S f =>
      let again :=
        fun (_ : unit) =>
          step pos s g
            (fun p' s' g' =>
               if (pos <? p')%nat then star_loop f p' s' g' else None) in
      if greedy
      then match again tt with
           | Some x => Some x
           | None => k pos s g
           end
      else match k pos s g with
           | Some x => Some x
           | None => again tt
           end
  end.

End StarLoop.

(** [reach pos s p s']: a matcher that stood at [pos] with [s] ahead
    stands at [p] with [s'] ahead after taking some characters. *)
Definition reach (pos : nat) (s : string) (p : nat) (s' : string) : Prop :=
  exists pre, s = pre ++ s' /\ p = (pos + String.length pre)%nat.

(** A character other than the line feed. *)
Definition not_newline (c : ascii) : bool := negb (Ascii.eqb c Re.newline).

(** The order of the chunks of a file: by page, then by number within
    the page. *)
Definition chunk_before (c1 c2 : Chunk) : Prop :=
  (page (metadata c1) < page (metadata c2))%nat \/
  (page (metadata c1) = page (metadata c2) /\
   (chunk_id (metadata c1) < chunk_id (metadata c2))%nat).

(** The chunks of the page texts [raws], the first of which is page
    [page_num + 1]. *)
Fixpoint chunks_of_pages (self : DocumentProcessor.t) (filename : string)
    (page_num : nat) (raws : list string) : list Chunk :=
  match raws with
  | [] => []
  | raw :: rest =>
      _create_chunks self (_clean_text raw) (page_num + 1) filename
      ++ chunks_of_pages self filename (S page_num) rest
  end.

(** ** A bag-of-words instance of the interface

    Term counts over the whitespace-separated lower-cased words, cosine
    similarity over binary64, and the insertion sort numpy applies to
    short arrays.  As with the bounds of the source ([min_df=1],
    [max_df=0.9]), a fit on fewer than two texts raises: [max_df] then
    leaves less than one document for a term to occur in.  The instance
    serves to run the index on concrete inputs. *)

Module BagOfWords.
Import VectorStore.

Definition words (text : string) : list string := Py.split (Py.lower text).

Definition vocabulary (texts : list string) : list string :=
  remove_dups (concat (map words texts)).

Definition row (vocab : list string) (text : string) : list float :=
  map (fun t => float_of_nat (count_occ string_dec (words text) t)) vocab.

Definition dot (x y : list float) : float :=
  foldr (fun p acc => (fst p * snd p + acc)%float) 0%float (zip x y).

Definition cosine (x y : list float) : float :=
  let d := (PrimFloat.sqrt (dot x x) * PrimFloat.sqrt (dot y y))%float in
  if PrimFloat.ltb 0 d then (dot x y / d)%float else 0%float.

(** Ascending insertion sort of the indices by their values; an index
    moves left only past strictly larger values. *)
Fixpoint insert_asc (a : list float) (i : nat) (l : list nat) : list nat :=
  match l with
  | [] => [i]
  | j :: l' =>
      if PrimFloat.ltb (nth i a 0%float) (nth j a 0%float) then i :: j :: l'
      else j :: insert_asc a i l'
  end.

Definition insertion_argsort (a : list float) : list nat :=
  foldl (fun sorted i => insert_asc a i sorted) [] (seq 0 (length a)).

#[export] Instance sklearn : Sklearn := {|
  vectorizer := option (list string);
  matrix := list (list float);
  TfidfVectorizer := fun _ => None;
  fit_transform := fun v texts =>
    match texts with
    | [] | [_] => (v, Raise ValueError)
    | _ =>
        match vocabulary texts with
        | [] => (v, Raise ValueError)
        | vocab => (Some vocab, Ret (map (row vocab) texts))
        end
    end;
  transform := fun v texts =>
    match v with
    | None => Raise NotFittedError
    | Some vocab => Ret (map (row vocab) texts)
    end;
  cosine_similarity := fun X Y =>
    Ret (map (fun x => map (fun y => cosine x y) Y) X);
  matrix_size := fun m =>
    length (List.filter (fun v => negb (PrimFloat.eqb v 0)) (concat m));
  matrix_rows := fun m => length m;
  argsort := insertion_argsort
|}.

Definition healthy_disk : Disk :=
  {| vectorizer_pkl := None; vectors_pkl := None; documents_pkl := None;
     makedirs_fails := false; write_fails := fun _ => false;
     read_fails := fun _ => false; remove_fails := fun _ => false |}.

Definition broken_disk : Disk :=
  {| vectorizer_pkl := None; vectors_pkl := None; documents_pkl := None;
     makedirs_fails := false; write_fails := fun _ => true;
     read_fails := fun _ => false; remove_fails := fun _ => false |}.

Definition page_chunk (s : string) (p : nat) : Doc :=
  match DocumentProcessor._create_chunks DocumentProcessor.__init__ s p "policy.pdf" with
  | c :: _ => c
  | [] => {| DocumentProcessor.text := "";
             DocumentProcessor.metadata :=
               {| DocumentProcessor.source := ""; DocumentProcessor.page := 0;
                  DocumentProcessor.clause_title := "";
                  DocumentProcessor.clause_number := "";
                  DocumentProcessor.chunk_id := 0 |} |}
  end.

Definition knee_alpha_text : string :=
  "Knee surgery is covered under plan alpha after a waiting period of two years.".

Definition knee_beta_text : string :=
  "Knee surgery is covered under plan beta after a waiting period of two years.".

Definition dental_text : string :=
  "Dental treatment is excluded unless it follows an accident on the road.".

Definition maternity_text : string :=
  "Maternity expenses are payable after a waiting period of nine months of cover.".

Definition footer_text : string := "Page footer".

Definition batch1_texts : list string :=
  [knee_alpha_text; knee_beta_text; dental_text].

Definition batch1 : list Doc :=
  [page_chunk knee_alpha_text 1; page_chunk knee_beta_text 2;
   page_chunk dental_text 3].
Definition batch2 : list Doc := [page_chunk maternity_text 1; page_chunk footer_text 2].
Definition noise : list Doc := [page_chunk footer_text 1].

Definition fresh : World := __init__ 5000 healthy_disk.

(** A new process whose disk refuses every write. *)
Definition fresh_read_only : World := __init__ 5000 broken_disk.

Definition after (batches : list (list Doc)) (w : World) : World :=
  foldl (fun w b => snd (add_documents b w)) w batches.

(** The list a call returned, empty when it raised. *)
Definition returned {A} (o : outcome (list A)) : list A :=
  match o with Ret l => l | Raise _ => [] end.

(** The matrix [add_documents batch1] builds. *)
Definition batch1_matrix : list (list float) :=
  map (row (vocabulary batch1_texts)) batch1_texts.

Definition pages (docs : list Doc) : list nat :=
  map (fun d => DocumentProcessor.page (DocumentProcessor.metadata d)) docs.

(** A file of three pages, the second of them blank. *)
Definition sample_document : DocumentProcessor.Document :=
  [ Ret ("Clause 1: Cover.  Knee surgery is covered." ++ String Re.newline "");
    Ret "   ";
    Ret "Dental treatment is excluded." ].

End BagOfWords.


(** * Properties *)

(** ** The monad: which methods leave which half of the world alone *)

Section MonadFacts.
Context `{Sklearn}.



Lemma read_only_ret {A} (a : A) : read_only (mret a).
Proof. intros w. reflexivity. Qed.

Lemma read_only_raise {A} (e : exn) : read_only (raise e : M A).
Proof. intros w. reflexivity. Qed.

Lemma read_only_lift {A} (o : outcome A) : read_only (lift o).
Proof. intros w. reflexivity. Qed.

Lemma read_only_get_self : read_only get_self.
Proof. intros w. reflexivity. Qed.

Lemma read_only_bind {A B} (m : M A) (f : A -> M B) :
  read_only m -> (forall a, read_only (f a)) -> read_only (m ≫= f).
Proof.
  intros Hm Hf w. unfold mbind, M_bind.
  specialize (Hm w). destruct (m w) as [[a|e] w']; simpl in Hm; subst w'.
  - apply Hf.
  - reflexivity.
Qed.

Lemma read_only_try {A} (m : M A) (h : exn -> M A) :
  read_only m -> (forall e, read_only (h e)) -> read_only (try_except m h).
Proof.
  intros Hm Hh w. unfold try_except.
  specialize (Hm w). destruct (m w) as [[a|e] w']; simpl in Hm; subst w'.
  - reflexivity.
  - apply Hh.
Qed.



Lemma disk_only_bind {A B} (m : M A) (f : A -> M B) :
  disk_only m -> (forall a, disk_only (f a)) -> disk_only (m ≫= f).
Proof.
  intros Hm Hf w. unfold mbind, M_bind.
  specialize (Hm w). destruct (m w) as [[a|e] w']; simpl in *.
  - rewrite Hf. exact Hm.
  - exact Hm.
Qed.




Lemma disk_only_ret {A} (a : A) : disk_only (mret a : M A).
Proof. intros w. reflexivity. Qed.

Lemma disk_only_exists (f : file) : disk_only (exists_ f).
Proof. intros w. reflexivity. Qed.

Lemma disk_only_remove (f : file) : disk_only (remove f).
Proof.
  intros w. unfold remove, mbind, M_bind, get_disk, raise, put_disk.
  destruct (remove_fails (disk w) f); reflexivity.
Qed.

Lemma disk_only_remove_each (files : list file) : disk_only (remove_each files).
Proof.
  induction files as [|f files IH]; simpl.
  - apply disk_only_ret.
  - apply disk_only_bind; [apply disk_only_exists|]. intros e.
    apply disk_only_bind; [|intros _; exact IH].
    destruct e; [apply disk_only_remove | apply disk_only_ret].
Qed.

(** [_save_vectors] swallows every failure and leaves the object alone. *)
Lemma _save_vectors_returns (w : World) :
  exists d, _save_vectors w = (Ret tt, {| self := self w; disk := d |}).
Proof.
  destruct w as [s d]. unfold _save_vectors. msimpl.
  destruct (makedirs_fails d); simpl; [eexists; reflexivity|].
  destruct (write_fails d vectorizer_file); simpl; [eexists; reflexivity|].
  destruct (write_fails d vectors_file); simpl; [eexists; reflexivity|].
  destruct (write_fails d docs_file); simpl; eexists; reflexivity.
Qed.

End MonadFacts.

(** ** What [add_documents] and [clear_all_documents] leave behind *)

Section IndexFacts.
Context `{Sklearn}.

(** The three ways [add_documents] ends: nothing relevant (early return),
    the vectorizer raising, and the normal end. *)
Lemma add_documents_cases (docs : list Doc) (w : World) :
  let s := self w in
  match relevant docs with
  | [] =>
      add_documents docs w =
      (Ret tt, {| self := {| self_vectorizer := self_vectorizer s;
                             vectors := vectors s; documents := [];
                             is_fitted := is_fitted s |};
                  disk := disk w |})
  | _ :: _ =>
      match fit_transform (self_vectorizer s) (map text (relevant docs)) with
      | (v, Raise e) =>
          add_documents docs w =
          (Raise e, {| self := {| self_vectorizer := v; vectors := vectors s;
                                  documents := relevant docs;
                                  is_fitted := is_fitted s |};
                       disk := disk w |})
      | (v, Ret X) =>
          exists d,
            add_documents docs w =
            (Ret tt, {| self := {| self_vectorizer := v; vectors := Some X;
                                   documents := relevant docs;
                                   is_fitted := true |};
                        disk := d |})
      end
  end.
Proof.
  destruct w as [s d]. unfold add_documents. fold (relevant docs). simpl.
  destruct (relevant docs) as [|d0 l] eqn:E.
  - msimpl. reflexivity.
  - msimpl. destruct (fit_transform _ _) as [v [X|e]]; msimpl.
    + match goal with |- context [_save_vectors ?w'] =>
        destruct (_save_vectors_returns w') as [d' E']; rewrite E' end.
      exists d'. reflexivity.
    + reflexivity.
Qed.

Lemma add_documents_documents (docs : list Doc) (w : World) :
  documents (self (snd (add_documents docs w))) = relevant docs.
Proof.
  pose proof (add_documents_cases docs w) as C. simpl in C.
  destruct (relevant docs) as [|d0 l].
  - rewrite C. reflexivity.
  - destruct (fit_transform _ _) as [v [X|e]].
    + destruct C as [d' C]. rewrite C. reflexivity.
    + rewrite C. reflexivity.
Qed.

Lemma clear_all_documents_self (w : World) :
  self (snd (clear_all_documents w)) =
  {| self_vectorizer := self_vectorizer (self w); vectors := None;
     documents := []; is_fitted := false |}.
Proof.
  destruct w as [s d]. unfold clear_all_documents.
  pose proof (disk_only_remove_each [vectorizer_file; vectors_file; docs_file]) as R.
  set (files := remove_each _) in *. clearbody files. msimpl.
  match goal with |- context [files ?w'] =>
    specialize (R w'); destruct (files w') as [[[]|e] w''] end;
    simpl in *; exact R.
Qed.

(** *** Searching never writes, and answers from [self.documents] *)

Lemma read_only_similarities_of (query : string) :
  read_only (similarities_of query).
Proof.
  unfold similarities_of.
  apply read_only_bind; [apply read_only_get_self|]. intros s.
  apply read_only_bind; [apply read_only_lift|]. intros qv.
  apply read_only_bind.
  { destruct (vectors s); [apply read_only_ret | apply read_only_raise]. }
  intros m. apply read_only_bind; [apply read_only_lift|]. intros rows.
  destruct (rows !! 0%nat); [apply read_only_ret | apply read_only_raise].
Qed.

Lemma read_only_search_body (query : string) (k : Z) :
  read_only (search_body query k).
Proof.
  unfold search_body.
  apply read_only_bind; [apply read_only_similarities_of|]. intros sims.
  apply read_only_bind; [apply read_only_get_self|]. intros s.
  apply read_only_bind; [apply read_only_lift|]. intros rs.
  apply read_only_ret.
Qed.

Lemma read_only_search_documents (query : string) (k : Z) :
  read_only (search_documents query k).
Proof.
  unfold search_documents.
  apply read_only_bind; [apply read_only_get_self|]. intros s.
  destruct (vectors s) as [m|]; [|apply read_only_raise].
  destruct (matrix_size m =? 0)%nat; [apply read_only_ret|].
  apply read_only_try; [apply read_only_search_body|].
  intros e. apply read_only_ret.
Qed.

End IndexFacts.

Section SearchFacts.
Context `{Sklearn}.

Lemma insert_desc_perm (x : ScoredDoc) (l : list ScoredDoc) :
  insert_desc x l ≡ₚ x :: l.
Proof.
  induction l as [|y l IH]; simpl; [reflexivity|].
  destruct (PrimFloat.ltb _ _); [|reflexivity].
  rewrite IH. apply Permutation_swap.
Qed.

Lemma sort_desc_perm (l : list ScoredDoc) : sort_desc l ≡ₚ l.
Proof.
  induction l as [|x l IH]; simpl; [reflexivity|].
  rewrite insert_desc_perm, IH. reflexivity.
Qed.

(** Every element [collect] adds is the boosted copy of an indexed document
    whose index was selected and whose raw similarity is above the floor. *)
Lemma collect_spec (docs : list Doc) (query : string) (terms : list string)
    (sims : list float) (top : list nat) :
  forall acc rs,
    collect docs query terms sims top acc = Ret rs ->
    (length rs <= length acc + length top)%nat /\
    forall r, r ∈ rs ->
      r ∈ acc \/
      exists idx sim d,
        idx ∈ top /\ sims !! idx = Some sim /\ PrimFloat.ltb 0.01 sim = true /\
        docs !! idx = Some d /\ r = boost query terms d sim.
Proof.
  induction top as [|idx top IH]; intros acc rs E; simpl in E.
  - inversion E; subst. split; [lia|]. intros r Hr. left. exact Hr.
  - destruct (sims !! idx) as [sim|] eqn:Es; [|discriminate].
    destruct (PrimFloat.ltb 0.01 sim) eqn:Ef.
    + destruct (docs !! idx) as [d|] eqn:Ed; [|discriminate].
      apply IH in E. destruct E as [Hlen Hin]. split.
      * rewrite length_app in Hlen. simpl in *. lia.
      * intros r Hr. destruct (Hin r Hr) as [Hacc|(i & s & d' & Hi & ?)].
        -- apply elem_of_app in Hacc. destruct Hacc as [Hacc|Hnew]; [left; exact Hacc|].
           apply list_elem_of_singleton in Hnew. right.
           exists idx, sim, d. repeat split; try assumption. left.
        -- right. exists i, s, d'. split; [right; exact Hi | assumption].
    + apply IH in E. destruct E as [Hlen Hin]. split; [simpl; lia|].
      intros r Hr. destruct (Hin r Hr) as [Hacc|(i & s & d' & Hi & ?)].
      * left. exact Hacc.
      * right. exists i, s, d'. split; [right; exact Hi | assumption].
Qed.

(** What a returning search returned: nothing, or the sorted outcome of the
    candidate loop over the raw similarities. *)
Lemma search_documents_ret (w : World) (query : string) (k : Z)
    (results : list ScoredDoc) :
  fst (search_documents query k w) = Ret results ->
  results = [] \/
  exists sims raw,
    fst (similarities_of query w) = Ret sims /\
    collect (documents (self w)) query (_parse_structured_query query) sims
      (top_indices sims k) [] = Ret raw /\
    results = sort_desc raw.
Proof.
  unfold search_documents. msimpl.
  destruct (vectors (self w)) as [m|]; [|discriminate].
  destruct (matrix_size m =? 0)%nat; simpl.
  { intros E. inversion E. left. reflexivity. }
  unfold search_body. msimpl.
  pose proof (read_only_similarities_of query w) as RO.
  destruct (similarities_of query w) as [[sims|e] w'] eqn:Es; simpl in *.
  - subst w'.
    destruct (collect _ _ _ _ _ _) as [raw|e] eqn:Ec; simpl.
    + intros E. inversion E. right. exists sims, raw. auto.
    + intros E. inversion E. left. reflexivity.
  - intros E. inversion E. left. reflexivity.
Qed.

Lemma search_documents_from_documents (w : World) (query : string) (k : Z)
    (results : list ScoredDoc) :
  fst (search_documents query k w) = Ret results ->
  forall r, r ∈ results -> doc r ∈ documents (self w).
Proof.
  intros E r Hr. apply search_documents_ret in E.
  destruct E as [->|(sims & raw & _ & Ec & ->)].
  - inversion Hr.
  - rewrite sort_desc_perm in Hr.
    apply collect_spec in Ec. destruct Ec as [_ Hin].
    destruct (Hin r Hr) as [Hnil|(idx & sim & d & _ & _ & _ & Hd & ->)].
    + inversion Hnil.
    + simpl. eapply list_elem_of_lookup_2. exact Hd.
Qed.

End SearchFacts.

(** ** The index: empty state, replacement, persistence *)

Section IndexClaims.
Context `{Sklearn}.

(** C1 (code defect).  The specification wants a search on an empty index
    to return the empty sequence.  In the code the emptiness guard reads
    [self.vectors.size] while [self.vectors] is [None], both after
    [clear_all_documents] and in a new process that finds no snapshot, and
    the guard stands before the [try]: the call raises [AttributeError],
    for every query and every [k]. *)
Theorem search_on_empty_index_raises (w : World) (max_features : nat)
    (d : Disk) (query : string) (k : Z) :
  (let w' := snd (clear_all_documents w) in
   search_documents query k w' = (Raise AttributeError, w')) /\
  (let w0 := __init__ max_features (no_snapshot d) in
   fst (get_document_count w0) = Ret 0%nat /\
   search_documents query k w0 = (Raise AttributeError, w0)).
Proof.
  split.
  - simpl. pose proof (clear_all_documents_self w) as E.
    destruct (snd (clear_all_documents w)) as [s' d']. simpl in E. subst s'.
    reflexivity.
  - simpl. split; reflexivity.
Qed.

(** C2 (code defect).  The specification wants the matrix and the document
    list to agree after every [index], and an [index] in which no chunk
    passes the filter to discard the whole snapshot.  The early [return] of
    [add_documents] has emptied [self.documents] only: the matrix of the
    previous batch stays, so its row count differs from the length of the
    document list. *)
Theorem add_documents_nothing_relevant_keeps_matrix (w : World)
    (docs : list Doc) (m : matrix) :
  vectors (self w) = Some m ->
  (0 < matrix_rows m)%nat ->
  relevant docs = [] ->
  exists w',
    add_documents docs w = (Ret tt, w') /\
    documents (self w') = [] /\
    vectors (self w') = Some m /\
    is_fitted (self w') = is_fitted (self w) /\
    disk w' = disk w /\
    matrix_rows m <> length (documents (self w')).
Proof.
  intros Hm Hrows Hrel.
  pose proof (add_documents_cases docs w) as C. simpl in C. rewrite Hrel in C.
  eexists. split; [exact C|]. simpl. repeat split; try assumption. lia.
Qed.

(** C3.  Replace semantics: after [add_documents batch1] and then
    [add_documents batch2], however each call ended, the count is the
    number of chunks of [batch2] that pass the filter, and every document
    a later search returns is one of those chunks; with disjoint content,
    none has the text of a [batch1] document. *)
Theorem replace_semantics (w : World) (batch1 batch2 : list Doc) :
  (forall d1 d2, d1 ∈ batch1 -> d2 ∈ batch2 -> text d1 <> text d2) ->
  let w1 := snd (add_documents batch1 w) in
  let w2 := snd (add_documents batch2 w1) in
  get_document_count w2 = (Ret (length (relevant batch2)), w2) /\
  forall query k results,
    fst (search_documents query k w2) = Ret results ->
    forall r, r ∈ results ->
      doc r ∈ relevant batch2 /\
      forall d1, d1 ∈ batch1 -> text (doc r) <> text d1.
Proof.
  intros Hdisj w1 w2.
  assert (Hdocs : documents (self w2) = relevant batch2)
    by apply add_documents_documents.
  split.
  - unfold get_document_count. msimpl. rewrite Hdocs. reflexivity.
  - intros query k results E r Hr.
    pose proof (search_documents_from_documents _ _ _ _ E r Hr) as Hin.
    rewrite Hdocs in Hin. split; [exact Hin|].
    intros d1 Hd1 Heq.
    unfold relevant in Hin. apply list_elem_of_In, filter_In in Hin.
    destruct Hin as [Hin _]. apply list_elem_of_In in Hin.
    exact (Hdisj d1 (doc r) Hd1 Hin (eq_sym Heq)).
Qed.

(** C5.  Determinism: a search writes nothing, so a second call with the
    same query and the same [k] meets the same snapshot and gives the same
    outcome, element for element. *)
Theorem search_deterministic (w : World) (query : string) (k : Z) :
  let '(r1, w1) := search_documents query k w in
  let '(r2, w2) := search_documents query k w1 in
  w1 = w /\ w2 = w /\ r1 = r2.
Proof.
  pose proof (read_only_search_documents query k w) as RO.
  destruct (search_documents query k w) as [r1 w1] eqn:E1. simpl in RO. subst w1.
  rewrite E1. auto.
Qed.

(** A search reads the object only: its outcome does not depend on the
    disk. *)
Lemma search_documents_ignores_disk (s : Store) (d1 d2 : Disk)
    (query : string) (k : Z) :
  fst (search_documents query k {| self := s; disk := d1 |}) =
  fst (search_documents query k {| self := s; disk := d2 |}).
Proof.
  destruct s as [vz [m|] ds fit]; [|reflexivity].
  unfold search_documents, search_body, similarities_of. msimpl.
  destruct (matrix_size m =? 0)%nat; [reflexivity|].
  destruct (transform _ _) as [qv|e]; simpl; [|reflexivity].
  destruct (cosine_similarity _ _) as [rows|e]; simpl; [|reflexivity].
  destruct (rows !! 0%nat) as [sims|]; simpl; [|reflexivity].
  destruct (collect _ _ _ _ _ _); reflexivity.
Qed.

(** With a matrix in place a search returns, whatever happens inside. *)
Lemma search_documents_returns (w : World) (m : matrix) (query : string)
    (k : Z) :
  vectors (self w) = Some m ->
  exists results, search_documents query k w = (Ret results, w).
Proof.
  intros Hm.
  pose proof (read_only_search_documents query k w) as RO.
  destruct (search_documents query k w) as [r w'] eqn:E. simpl in RO. subst w'.
  revert E. unfold search_documents. msimpl. rewrite Hm.
  destruct (matrix_size m =? 0)%nat; simpl.
  - intros E. inversion E. eauto.
  - destruct (search_body query k w) as [[rs|e] w']; intros E; inversion E; eauto.
Qed.

(** C10.  A failed snapshot write does not fail the ingestion: whatever
    the disk refuses, once the vectorizer has fitted the relevant chunks
    [add_documents] returns normally with the new batch in memory, the
    count is that of the surviving chunks, and searches return, answering
    from memory alone (their outcome is the same for every disk). *)
Theorem index_survives_write_failure (w : World) (docs : list Doc)
    (v : vectorizer) (X : matrix) :
  relevant docs <> [] ->
  fit_transform (self_vectorizer (self w)) (map text (relevant docs)) = (v, Ret X) ->
  let s' := {| self_vectorizer := v; vectors := Some X;
               documents := relevant docs; is_fitted := true |} in
  exists d',
    let w' := {| self := s'; disk := d' |} in
    add_documents docs w = (Ret tt, w') /\
    get_document_count w' = (Ret (length (relevant docs)), w') /\
    forall query k,
      exists results,
        search_documents query k w' = (Ret results, w') /\
        forall d'', fst (search_documents query k {| self := s'; disk := d'' |})
                    = Ret results.
Proof.
  intros Hne Hfit s'.
  pose proof (add_documents_cases docs w) as C. simpl in C.
  destruct (relevant docs) as [|d0 l] eqn:E; [congruence|].
  rewrite Hfit in C. destruct C as [d' C].
  exists d'. simpl. split; [exact C|]. split; [reflexivity|].
  intros query k.
  destruct (search_documents_returns {| self := s'; disk := d' |} X query k eq_refl)
    as [results Hs].
  exists results. split; [exact Hs|].
  intros d''. rewrite (search_documents_ignores_disk s' d'' d'), Hs. reflexivity.
Qed.

End IndexClaims.

(** ** Selection of the candidates *)

Section Comparisons.

(** On binary64, [x <= y] excludes [y < x]. *)
Lemma SFcompare_swap (x y : spec_float) :
  SFcompare y x = option_map CompOpp (SFcompare x y).
Proof.
  destruct x as [sx|sx| |sx mx ex], y as [sy|sy| |sy my ey]; simpl;
    try reflexivity;
    try (destruct sx; reflexivity); try (destruct sy; reflexivity);
    try (destruct sx, sy; reflexivity).
  destruct sx, sy; simpl; try reflexivity.
  - rewrite (Z.compare_antisym ex ey).
    destruct (ex ?= ey)%Z; simpl; try reflexivity.
    pose proof (Pos.compare_cont_antisym mx my Eq) as A. simpl in A.
    rewrite <- A, CompOpp_involutive. reflexivity.
  - rewrite (Z.compare_antisym ex ey).
    destruct (ex ?= ey)%Z; simpl; try reflexivity.
    pose proof (Pos.compare_cont_antisym mx my Eq) as A. simpl in A.
    rewrite <- A. reflexivity.
Qed.

Lemma leb_not_ltb (x y : float) :
  PrimFloat.leb x y = true -> PrimFloat.ltb y x = false.
Proof.
  rewrite FloatAxioms.leb_spec, FloatAxioms.ltb_spec. unfold SFleb, SFltb.
  rewrite (SFcompare_swap (Prim2SF x) (Prim2SF y)).
  destruct (SFcompare (Prim2SF x) (Prim2SF y)) as [[ | | ]|]; simpl; congruence.
Qed.

End Comparisons.

Lemma ascendingb_sound (a : list float) (p : list nat) :
  ascendingb a p = true -> ascending a p.
Proof.
  induction p as [|i p IH]; intros Hb x y ix iy vx vy Hxy Hx Hy Hvx Hvy.
  - rewrite lookup_nil in Hx. discriminate.
  - simpl in Hb. apply andb_true_iff in Hb. destruct Hb as [Hall Hrest].
    destruct y as [|y]; [lia|]. simpl in Hy.
    destruct x as [|x]; simpl in Hx.
    + inversion Hx; subst ix.
      rewrite forallb_forall in Hall.
      apply list_elem_of_lookup_2, list_elem_of_In in Hy.
      specialize (Hall iy Hy).
      rewrite (nth_lookup_Some _ _ _ _ Hvy), (nth_lookup_Some _ _ _ _ Hvx) in Hall.
      apply negb_true_iff in Hall. exact Hall.
    + apply (IH Hrest x y ix iy vx vy); [lia|assumption..].
Qed.

Lemma is_argsortb_sound (a : list float) (p : list nat) :
  is_argsortb a p = true -> is_argsort a p.
Proof.
  unfold is_argsortb. intros Hb. apply andb_true_iff in Hb.
  destruct Hb as [Hp Ha]. split.
  - apply bool_decide_eq_true in Hp. exact Hp.
  - apply ascendingb_sound. exact Ha.
Qed.

Section SelectionClaims.
Context `{Sklearn}.


Lemma slice_from_length {A} (k : Z) (l : list A) :
  (0 < k)%Z -> (Z.of_nat (length (Py.slice_from (- k) l)) <= k)%Z.
Proof.
  intros Hk. unfold Py.slice_from.
  destruct (- k <? 0)%Z eqn:E; [|apply Z.ltb_ge in E; lia].
  rewrite length_drop. lia.
Qed.

Lemma top_indices_length (sims : list float) (k : Z) :
  (0 < k)%Z -> (Z.of_nat (length (top_indices sims k)) <= k)%Z.
Proof.
  intros Hk. unfold top_indices. rewrite length_rev.
  apply slice_from_length. exact Hk.
Qed.

(** C4.  Floor property, for a positive [k]: a search returns at most [k]
    documents; each is the boosted copy of an indexed document whose raw
    cosine similarity is above 0.01; and a document whose raw similarity
    is at most 0.01 at every index it occupies is not returned, whatever
    the boosts would have made of its score. *)
Theorem floor_property (w : World) (query : string) (k : Z)
    (results : list ScoredDoc) :
  (0 < k)%Z ->
  fst (search_documents query k w) = Ret results ->
  (Z.of_nat (length results) <= k)%Z /\
  (forall r, r ∈ results ->
     exists sims idx sim d,
       fst (similarities_of query w) = Ret sims /\
       sims !! idx = Some sim /\ documents (self w) !! idx = Some d /\
       PrimFloat.ltb 0.01 sim = true /\
       r = boost query (_parse_structured_query query) d sim) /\
  (forall sims d,
     fst (similarities_of query w) = Ret sims ->
     (forall idx sim,
        documents (self w) !! idx = Some d -> sims !! idx = Some sim ->
        PrimFloat.leb sim 0.01 = true) ->
     forall r, r ∈ results -> doc r <> d).
Proof.
  intros Hk E. apply search_documents_ret in E.
  destruct E as [->|(sims & raw & Es & Ec & ->)].
  - split; [simpl; lia|]. split; intros; exfalso; eapply not_elem_of_nil; eauto.
  - apply collect_spec in Ec. destruct Ec as [Hlen Hin]. simpl in Hlen.
    assert (Hsel : forall r, r ∈ sort_desc raw ->
              exists idx sim d,
                sims !! idx = Some sim /\ documents (self w) !! idx = Some d /\
                PrimFloat.ltb 0.01 sim = true /\
                r = boost query (_parse_structured_query query) d sim).
    { intros r Hr. rewrite sort_desc_perm in Hr.
      destruct (Hin r Hr) as [Hnil|(idx & sim & d & _ & ? & ? & ? & ?)].
      - inversion Hnil.
      - exists idx, sim, d. auto. }
    split; [|split].
    + rewrite (Permutation_length (sort_desc_perm raw)).
      pose proof (top_indices_length sims k Hk). lia.
    + intros r Hr. destruct (Hsel r Hr) as (idx & sim & d & ? & ? & ? & ?).
      exists sims, idx, sim, d. auto.
    + intros sims' d Es' Hlow r Hr Hd.
      rewrite Es in Es'. inversion Es'; subst sims'.
      destruct (Hsel r Hr) as (idx & sim & d' & Hs & Hdoc & Hfloor & ->).
      simpl in Hd. subst d'.
      specialize (Hlow idx sim Hdoc Hs). apply leb_not_ltb in Hlow.
      congruence.
Qed.

(** C6 (as amended).  For a positive [k] the candidates are the last [k]
    entries of the ascending argsort of the raw similarities, best first:
    [min k n] distinct indices of indexed rows, [n] being the number of
    rows, such that no indexed document that is left out has a raw
    similarity strictly above that of a selected one.  Nothing prefers
    the lower index among equal similarities. *)
Theorem top_indices_by_similarity (similarities : list float) (k : Z) :
  is_argsort similarities (argsort similarities) ->
  (0 < k)%Z ->
  let n := length similarities in
  let selected := top_indices similarities k in
  selected = rev (drop (n - Nat.min (Z.to_nat k) n) (argsort similarities)) /\
  length selected = Nat.min (Z.to_nat k) n /\
  NoDup selected /\
  (forall i, i ∈ selected -> (i < n)%nat) /\
  (forall i j vi vj,
     i ∈ selected -> j ∉ selected ->
     similarities !! i = Some vi -> similarities !! j = Some vj ->
     PrimFloat.ltb vi vj = false).
Proof.
  intros [Hperm Hasc] Hk. simpl.
  set (p := argsort similarities) in *.
  set (st := (length similarities - Nat.min (Z.to_nat k) (length similarities))%nat).
  assert (Hlen : length p = length similarities)
    by (rewrite Hperm; apply length_seq).
  assert (Hsel : top_indices similarities k = rev (drop st p)).
  { unfold top_indices, Py.slice_from. fold p.
    destruct (- k <? 0)%Z eqn:E; [|apply Z.ltb_ge in E; lia].
    f_equal. f_equal. rewrite Hlen. unfold st. lia. }
  assert (Hnd : NoDup p) by (rewrite Hperm; apply NoDup_seq).
  assert (Hin : forall i, i ∈ rev (drop st p) <-> i ∈ drop st p).
  { intros i. rewrite !list_elem_of_In. symmetry. apply in_rev. }
  split; [exact Hsel|]. rewrite Hsel.
  split; [rewrite length_rev, length_drop, Hlen; unfold st; lia|].
  split.
  { apply NoDup_ListNoDup, NoDup_rev, NoDup_ListNoDup.
    rewrite <- (take_drop st p) in Hnd. apply NoDup_app in Hnd. apply Hnd. }
  split.
  { intros i Hi. apply Hin in Hi.
    assert (Hp : i ∈ p).
    { rewrite <- (take_drop st p). apply elem_of_app. right. exact Hi. }
    rewrite Hperm in Hp. apply elem_of_seq in Hp. lia. }
  intros i j vi vj Hi Hj Hvi Hvj.
  rewrite Hin in Hi. rewrite Hin in Hj.
  apply list_elem_of_lookup_1 in Hi. destruct Hi as [y Hy].
  rewrite lookup_drop in Hy.
  assert (Hjp : j ∈ p).
  { rewrite Hperm. apply elem_of_seq.
    apply lookup_lt_Some in Hvj. lia. }
  rewrite <- (take_drop st p) in Hjp. apply elem_of_app in Hjp.
  destruct Hjp as [Hjp|Hjp]; [|contradiction].
  apply elem_of_take in Hjp. destruct Hjp as (x & Hx & Hlt).
  apply (Hasc x (st + y)%nat j i vj vi); [lia|assumption..].
Qed.

End SelectionClaims.

(** ** The chunker *)

Section Strings.
#[local] Arguments String.append !s1 s2 : simpl nomatch.

Lemma app_assoc_s (a b c : string) : (a ++ b) ++ c = a ++ (b ++ c).
Proof. induction a as [|x a IH]; simpl; [reflexivity|]. rewrite IH. reflexivity. Qed.


Lemma last_nonspace_app (d : bool) (a b : string) :
  last_nonspace d (a ++ b) = last_nonspace (last_nonspace d a) b.
Proof. revert d. induction a as [|x a IH]; intros d; simpl; [reflexivity|]. apply IH. Qed.

Lemma last_nonspace_default (d d' : bool) (s : string) :
  s <> "" -> last_nonspace d s = last_nonspace d' s.
Proof. destruct s; [congruence|reflexivity]. Qed.

Lemma rstrip_app_space (s : string) : Py.rstrip (s ++ " ") = Py.rstrip s.
Proof. induction s as [|x s IH]; simpl; [reflexivity|]. rewrite IH. reflexivity. Qed.

Lemma rstrip_fixed (d : bool) (s : string) :
  s <> "" -> last_nonspace d s = true -> Py.rstrip s = s.
Proof.
  revert d. induction s as [|x s IH]; intros d Hne Hl; [congruence|].
  simpl in *. destruct s as [|y s].
  - simpl in *. destruct (Py.isspace x); [discriminate|reflexivity].
  - rewrite (IH (negb (Py.isspace x))); [reflexivity|congruence|exact Hl].
Qed.

Lemma lstrip_fixed (s : string) : starts_nonspace s = true -> Py.lstrip s = s.
Proof.
  destruct s as [|x s]; simpl; [reflexivity|].
  destruct (Py.isspace x); [discriminate|reflexivity].
Qed.

Lemma trimmed_nonempty (s : string) : trimmed s = true -> s <> "".
Proof. destruct s; [discriminate|congruence]. Qed.

Lemma strip_trimmed (s : string) : trimmed s = true -> Py.strip s = s.
Proof.
  intros Ht. pose proof (trimmed_nonempty s Ht) as Hne.
  unfold trimmed in Ht. apply andb_true_iff in Ht. destruct Ht as [Hs Hl].
  unfold Py.strip. rewrite (rstrip_fixed false s Hne Hl). apply lstrip_fixed. exact Hs.
Qed.

Lemma strip_trimmed_space (s : string) :
  trimmed s = true -> Py.strip (s ++ " ") = s.
Proof.
  intros Ht. unfold Py.strip. rewrite rstrip_app_space.
  apply (strip_trimmed s Ht).
Qed.

Lemma lstrip_shape (s : string) :
  Py.lstrip s = "" \/ starts_nonspace (Py.lstrip s) = true.
Proof.
  induction s as [|x s IH]; simpl; [left; reflexivity|].
  destruct (Py.isspace x) eqn:E; [exact IH|]. right. simpl. rewrite E. reflexivity.
Qed.

Lemma rstrip_shape (s : string) :
  Py.rstrip s = "" \/ last_nonspace false (Py.rstrip s) = true.
Proof.
  induction s as [|x s IH]; simpl; [left; reflexivity|].
  destruct (Py.rstrip s) as [|y r] eqn:E.
  - destruct (Py.isspace x) eqn:Ex; [left; reflexivity|].
    right. simpl. rewrite Ex. reflexivity.
  - right. destruct IH as [IH|IH]; [discriminate|]. simpl in *. exact IH.
Qed.

Lemma lstrip_last (s : string) :
  Py.lstrip s <> "" ->
  last_nonspace false (Py.lstrip s) = last_nonspace false s.
Proof.
  induction s as [|x s IH]; simpl; [reflexivity|].
  destruct (Py.isspace x) eqn:E; simpl; [|rewrite E; reflexivity].
  intros Hne. rewrite (IH Hne). reflexivity.
Qed.

(** A non-empty string that [strip] leaves alone has no blank at either
    end. *)
Lemma trimmed_of_strip (s : string) :
  s <> "" -> Py.strip s = s -> trimmed s = true.
Proof.
  intros Hne Hs. unfold trimmed, Py.strip in *.
  apply andb_true_iff. split.
  - destruct (lstrip_shape (Py.rstrip s)) as [E|E]; rewrite Hs in E; congruence.
  - assert (Hl : Py.lstrip (Py.rstrip s) <> "") by congruence.
    pose proof (lstrip_last _ Hl) as L. rewrite Hs in L. rewrite L.
    destruct (rstrip_shape s) as [E|E]; [|exact E].
    rewrite E in Hl. simpl in Hl. congruence.
Qed.

Lemma trimmed_app (a m b : string) :
  trimmed a = true -> trimmed b = true -> trimmed (a ++ m ++ b) = true.
Proof.
  intros Ha Hb. pose proof (trimmed_nonempty b Hb) as Hne.
  unfold trimmed in *.
  apply andb_true_iff in Ha. destruct Ha as [Has _].
  apply andb_true_iff in Hb. destruct Hb as [_ Hbl].
  apply andb_true_iff. split.
  - destruct a; [discriminate|exact Has].
  - rewrite !last_nonspace_app.
    rewrite (last_nonspace_default _ false b Hne). exact Hbl.
Qed.

Lemma buffer_snoc (g : list string) (s : string) :
  buffer (g ++ [s])%list = buffer g ++ s ++ " ".
Proof.
  induction g as [|x g IH]; simpl; [reflexivity|].
  rewrite IH. rewrite !app_assoc_s. reflexivity.
Qed.

Lemma buffer_join (g : list string) :
  g <> [] -> buffer g = Py.join " " g ++ " ".
Proof.
  induction g as [|x g IH]; intros Hne; [congruence|].
  destruct g as [|y g].
  - reflexivity.
  - change (buffer (x :: y :: g)) with (x ++ " " ++ buffer (y :: g)).
    rewrite IH by congruence.
    change (Py.join " " (x :: y :: g)) with (x ++ " " ++ Py.join " " (y :: g)).
    rewrite !app_assoc_s. reflexivity.
Qed.

Lemma join_trimmed (g : list string) :
  g <> [] -> Forall (fun s => trimmed s = true) g ->
  trimmed (Py.join " " g) = true.
Proof.
  induction g as [|x g IH]; intros Hne Hall; [congruence|].
  inversion Hall as [|? ? Hx Hg]; subst.
  destruct g as [|y g]; [exact Hx|].
  change (Py.join " " (x :: y :: g)) with (x ++ " " ++ Py.join " " (y :: g)).
  apply trimmed_app; [exact Hx|]. apply IH; [congruence|exact Hg].
Qed.

Lemma strip_buffer (g : list string) :
  g <> [] -> Forall (fun s => trimmed s = true) g ->
  Py.strip (buffer g) = Py.join " " g.
Proof.
  intros Hne Hall. rewrite (buffer_join g Hne).
  apply strip_trimmed_space. apply join_trimmed; assumption.
Qed.

Lemma buffer_truthy (g : list string) : Py.truthy (buffer g) = true -> g <> [].
Proof. destruct g; [discriminate|congruence]. Qed.

(** [in] on strings *)
Lemma prefix_nil (s : string) : String.prefix "" s = true.
Proof. destruct s; reflexivity. Qed.

Lemma prefix_app (p a b : string) :
  String.prefix p a = true -> String.prefix p (a ++ b) = true.
Proof.
  revert a. induction p as [|x p IH]; intros a Hp; [apply prefix_nil|].
  destruct a as [|y a]; simpl in *; [discriminate|].
  destruct (ascii_dec x y); [apply IH; exact Hp|discriminate].
Qed.

Lemma prefix_refl (p : string) : String.prefix p p = true.
Proof.
  induction p as [|x p IH]; simpl; [reflexivity|].
  destruct (ascii_dec x x); [exact IH|congruence].
Qed.

Lemma contains_unfold (p s : string) :
  Py.contains p s =
  String.prefix p s
  || match s with EmptyString => false | String _ s' => Py.contains p s' end.
Proof. destruct s; reflexivity. Qed.

Lemma contains_app_l (p a b : string) :
  Py.contains p a = true -> Py.contains p (a ++ b) = true.
Proof.
  induction a as [|x a IH]; intros Hc.
  - rewrite contains_unfold in Hc. rewrite orb_false_r in Hc.
    rewrite contains_unfold. apply orb_true_iff. left.
    apply (prefix_app p "" b Hc).
  - rewrite contains_unfold in Hc. apply orb_true_iff in Hc.
    change (String x a ++ b) with (String x (a ++ b)).
    rewrite contains_unfold. apply orb_true_iff.
    destruct Hc as [Hp|Hc].
    + left. apply (prefix_app p (String x a) b Hp).
    + right. apply IH. exact Hc.
Qed.

Lemma contains_app_r (p a b : string) :
  Py.contains p b = true -> Py.contains p (a ++ b) = true.
Proof.
  intros Hc. induction a as [|x a IH]; [exact Hc|].
  change (String x a ++ b) with (String x (a ++ b)).
  rewrite contains_unfold. apply orb_true_iff. right. exact IH.
Qed.

Lemma contains_refl (p : string) : Py.contains p p = true.
Proof. rewrite contains_unfold, prefix_refl. reflexivity. Qed.

(** A sentence occurs in the chunk made of its group. *)
Lemma contains_join (s : string) (g : list string) :
  s ∈ g -> Py.contains s (Py.join " " g) = true.
Proof.
  induction g as [|x g IH]; intros Hin; [inversion Hin|].
  destruct g as [|y g].
  - apply list_elem_of_singleton in Hin. subst x. apply contains_refl.
  - change (Py.join " " (x :: y :: g)) with (x ++ " " ++ Py.join " " (y :: g)).
    apply elem_of_cons in Hin. destruct Hin as [->|Hin].
    + apply contains_app_l, contains_refl.
    + apply contains_app_r, contains_app_r, IH, Hin.
Qed.

End Strings.

(** *** Sentences of a trimmed text *)

Section Sentences.

Lemma is_end_nonspace (c : ascii) : is_end c = true -> Py.isspace c = false.
Proof.
  unfold is_end. intros E.
  apply orb_true_iff in E. destruct E as [E|E];
    [apply orb_true_iff in E; destruct E as [E|E]|];
    apply Ascii.eqb_eq in E; subst c; reflexivity.
Qed.

(** Inside a piece and inside a separator: the piece in progress ends on
    a non-blank character, and every later piece is trimmed. *)
Lemma scan_trimmed (s : string) :
  (forall e d,
     last_nonspace d s = true -> (e = true -> d = true) ->
     last_nonspace d (fst (scan (InText e) s)) = true /\
     Forall (fun p => trimmed p = true) (snd (scan (InText e) s))) /\
  (last_nonspace false s = true ->
   trimmed (fst (scan InGap s)) = true /\
   Forall (fun p => trimmed p = true) (snd (scan InGap s))).
Proof.
  induction s as [|c s [IHt IHg]].
  - split; [|discriminate]. intros e d Hl _. simpl. auto.
  - split.
    + intros e d Hl Hed. simpl in Hl. simpl.
      destruct (e && Py.isspace c) eqn:Esep.
      * apply andb_true_iff in Esep. destruct Esep as [-> Hsp].
        rewrite Hsp in Hl. simpl in Hl.
        destruct (IHg Hl) as [Hh Ht].
        destruct (scan InGap s) as [h t]. simpl in *.
        split; [auto|]. constructor; assumption.
      * assert (Hed' : is_end c = true -> negb (Py.isspace c) = true).
        { intros E. rewrite (is_end_nonspace c E). reflexivity. }
        destruct (IHt (is_end c) (negb (Py.isspace c)) Hl Hed') as [Hh Ht].
        destruct (scan (InText (is_end c)) s) as [h t]. simpl in *. auto.
    + intros Hl. simpl in Hl. simpl.
      destruct (Py.isspace c) eqn:Hsp; simpl in Hl.
      * apply IHg. exact Hl.
      * assert (Hed' : is_end c = true -> true = true) by auto.
        destruct (IHt (is_end c) true Hl Hed') as [Hh Ht].
        destruct (scan (InText (is_end c)) s) as [h t]. simpl in *.
        split; [|exact Ht].
        unfold trimmed. simpl. rewrite Hsp. simpl. exact Hh.
Qed.

Lemma split_sentences_trimmed (text : string) :
  trimmed text = true ->
  Forall (fun p => trimmed p = true) (split_sentences text).
Proof.
  intros Ht. unfold split_sentences.
  destruct text as [|c s]; [discriminate|].
  unfold trimmed in Ht. apply andb_true_iff in Ht. destruct Ht as [Hs Hl].
  simpl in Hs, Hl. apply negb_true_iff in Hs. rewrite Hs in Hl. simpl in Hl.
  simpl.
  assert (Hed' : is_end c = true -> true = true) by auto.
  destruct (proj1 (scan_trimmed s) (is_end c) true Hl Hed') as [Hh Htl].
  destruct (scan (InText (is_end c)) s) as [h t]. simpl in *.
  constructor; [|exact Htl].
  unfold trimmed. simpl. rewrite Hs. simpl. exact Hh.
Qed.

Lemma split_sentences_nonempty (text : string) : split_sentences text <> [].
Proof.
  unfold split_sentences. destruct (scan (InText false) text). congruence.
Qed.

End Sentences.

(** *** The loop of [_create_chunks] *)

Section Chunking.
Variable self : DocumentProcessor.t.
Variable page_num : nat.
Variable filename : string.

Lemma seeded_grow (gs : list (list string)) (g : list string) (s : string) :
  seeded (chunk_size self) (gs ++ [g]) ->
  gs = [] \/ g <> [] ->
  seeded (chunk_size self) (gs ++ [(g ++ [s])%list]).
Proof.
  induction gs as [|g0 gs IH]; intros Hs Hne; [constructor|].
  destruct Hne as [Hne|Hne]; [discriminate|].
  destruct gs as [|g1 gs]; simpl in *.
  - inversion Hs; subst. constructor; [assumption|constructor].
  - inversion Hs; subst. constructor; [assumption|].
    apply IH; [assumption|right; exact Hne].
Qed.

Lemma seeded_emit (gs : list (list string)) (g : list string) (s : string) :
  seeded (chunk_size self) (gs ++ [g]) ->
  (chunk_size self < Py.len (buffer g) + Py.len s)%nat ->
  seeded (chunk_size self) ((gs ++ [g]) ++ [[s]]).
Proof.
  induction gs as [|g0 gs IH]; intros Hs Hlt; simpl.
  - constructor; [exact Hlt|constructor].
  - destruct gs as [|g1 gs]; simpl in *.
    + inversion Hs; subst. constructor; [assumption|].
      constructor; [exact Hlt|constructor].
    + inversion Hs; subst. constructor; [assumption|].
      apply IH; assumption.
Qed.

Lemma fitted_snoc (rest : list string) :
  forall pre s,
    fitted (chunk_size self) pre rest ->
    (Py.len (buffer (pre ++ rest)) + Py.len s <= chunk_size self)%nat ->
    fitted (chunk_size self) pre (rest ++ [s]).
Proof.
  induction rest as [|x rest IH]; intros pre s Hf Hfit; simpl in *.
  - rewrite app_nil_r in Hfit. auto.
  - destruct Hf as [Hx Hf]. split; [exact Hx|].
    apply IH; [exact Hf|]. rewrite <- app_assoc. exact Hfit.
Qed.

Lemma packed_snoc (g : list string) (s : string) :
  packed (chunk_size self) g ->
  g = [] \/ (Py.len (buffer g) + Py.len s <= chunk_size self)%nat ->
  packed (chunk_size self) (g ++ [s]).
Proof.
  destruct g as [|x rest]; intros Hp Hfit; simpl; [exact I|].
  destruct Hfit as [Hnil|Hfit]; [discriminate|].
  apply fitted_snoc; assumption.
Qed.

Lemma buffer_nonempty (g : list string) : g <> [] -> Py.truthy (buffer g) = true.
Proof.
  destruct g as [|x g]; [congruence|]. intros _. simpl.
  destruct x; reflexivity.
Qed.

Lemma chunk_loop_tracks (sentences : list string) :
  forall chunks current_chunk done cur,
    tracks (chunk_size self) chunks current_chunk done cur ->
    exists done' cur',
      tracks (chunk_size self)
             (fst (chunk_loop self page_num filename sentences chunks current_chunk))
             (snd (chunk_loop self page_num filename sentences chunks current_chunk))
             done' cur' /\
      concat (done' ++ [cur']) = (concat (done ++ [cur]) ++ sentences)%list /\
      (cur <> [] \/ sentences <> [] -> cur' <> []).
Proof.
  induction sentences as [|s rest IH]; intros chunks current_chunk done cur T.
  - exists done, cur. simpl. rewrite app_nil_r. split; [exact T|].
    split; [reflexivity|]. intros [Hc|Hc]; congruence.
  - destruct T as [Tc Tb Tn Ts Tg Tp]. simpl.
    destruct ((chunk_size self <? Py.len current_chunk + Py.len s)%nat
              && Py.truthy current_chunk) eqn:Eover.
    + apply andb_true_iff in Eover. destruct Eover as [Hlt Htruthy].
      apply Nat.ltb_lt in Hlt. subst current_chunk.
      pose proof (buffer_truthy cur Htruthy) as Hcur.
      destruct (IH (chunks ++ [make_chunk (buffer cur) page_num filename (length chunks)])%list
                   (s ++ " ") (done ++ [cur])%list [s]) as (done' & cur' & T' & Hcat & Hlast).
      { split.
        - rewrite !map_app, Tc. reflexivity.
        - reflexivity.
        - apply Forall_app. split; [exact Tn|]. constructor; [exact Hcur|constructor].
        - right. congruence.
        - apply seeded_emit; assumption.
        - apply Forall_app. split; [exact Tp|].
          constructor; [exact I|constructor]. }
      exists done', cur'. split; [exact T'|]. split.
      * rewrite Hcat. rewrite !concat_app. simpl. rewrite !app_nil_r.
        rewrite <- !app_assoc. reflexivity.
      * intros _. apply Hlast. left. congruence.
    + subst current_chunk.
      destruct (IH chunks (buffer cur ++ s ++ " ") done (cur ++ [s])%list)
        as (done' & cur' & T' & Hcat & Hlast).
      { split.
        - exact Tc.
        - rewrite buffer_snoc. reflexivity.
        - exact Tn.
        - right. destruct cur; discriminate.
        - apply seeded_grow; assumption.
        - apply Forall_app in Tp. destruct Tp as [Tp Tcur].
          apply Forall_app. split; [exact Tp|].
          inversion Tcur as [|? ? Hcur _]; subst.
          constructor; [|constructor]. apply packed_snoc; [exact Hcur|].
          destruct cur as [|x cur]; [left; reflexivity|right].
          rewrite (buffer_nonempty (x :: cur)) in Eover by discriminate.
          rewrite andb_true_r in Eover. apply Nat.ltb_ge in Eover.
          exact Eover. }
      exists done', cur'. split; [exact T'|]. split.
      * rewrite Hcat. rewrite !concat_app. simpl. rewrite !app_nil_r.
        rewrite <- !app_assoc. reflexivity.
      * intros _. apply Hlast. left. destruct cur; discriminate.
Qed.

End Chunking.

Section ChunkerClaims.

Lemma truthy_nonempty (s : string) : s <> "" -> Py.truthy s = true.
Proof. destruct s; [congruence|reflexivity]. Qed.

(** C9.  Chunk coverage.  For a page text that is non-empty and trimmed
    (what [_clean_text] hands over, after the caller's emptiness test), the
    chunker emits at least one chunk, every sentence occurs in the text of
    some chunk, and the chunks are exactly the consecutive groups of a
    partition of the sentence list, each joined by single blanks: no
    sentence is dropped and none is in two chunks.  The cuts are where the
    overflows are: each chunk after the first begins with the sentence
    that overflowed the buffer before it ([seeded]), and inside a chunk
    every sentence after the first fitted into the buffer before it
    ([packed]), so a sentence that overflows is the seed of the next
    chunk and nothing else.  Lengths are in characters. *)
Theorem chunk_coverage (self : DocumentProcessor.t) (text : string)
    (page_num : nat) (filename : string) :
  text <> "" ->
  Py.strip text = text ->
  let chunks := _create_chunks self text page_num filename in
  chunks <> [] /\
  (forall s, s ∈ split_sentences text ->
     exists c, c ∈ chunks /\ Py.contains s (DocumentProcessor.text c) = true) /\
  exists groups : list (list string),
    concat groups = split_sentences text /\
    Forall (fun g => g <> []) groups /\
    map DocumentProcessor.text chunks = map (Py.join " ") groups /\
    seeded (chunk_size self) groups /\
    Forall (packed (chunk_size self)) groups.
Proof.
  intros Hne Hstrip.
  pose proof (trimmed_of_strip text Hne Hstrip) as Ht.
  pose proof (split_sentences_trimmed text Ht) as Hall.
  pose proof (split_sentences_nonempty text) as Hsome.
  unfold _create_chunks.
  destruct (chunk_loop_tracks self page_num filename (split_sentences text)
              [] "" [] []) as (done & cur & T & Hcat & Hcur).
  { split; simpl; auto; repeat constructor. }
  specialize (Hcur (or_intror Hsome)). simpl in Hcat.
  destruct (chunk_loop self page_num filename (split_sentences text) [] "")
    as [chunks current_chunk].
  destruct T as [Tc Tb Tn _ Tg Tp]. simpl in Tc, Tb.
  assert (Hgroups : Forall (fun g => g <> [] /\ Forall (fun s => trimmed s = true) g)
                      (done ++ [cur])).
  { apply Forall_forall. intros g Hg. split.
    - apply elem_of_app in Hg. destruct Hg as [Hg|Hg].
      + rewrite Forall_forall in Tn. apply Tn. exact Hg.
      + apply list_elem_of_singleton in Hg. subst g. exact Hcur.
    - apply Forall_forall. intros s Hs.
      rewrite Forall_forall in Hall. apply Hall. rewrite <- Hcat.
      apply list_elem_of_In, in_concat. exists g.
      split; apply list_elem_of_In; assumption. }
  assert (Hlast : Py.strip current_chunk = Py.join " " cur).
  { subst current_chunk. rewrite Forall_app in Hgroups.
    destruct Hgroups as [_ Hc]. inversion Hc as [|? ? [? ?] _]; subst.
    apply strip_buffer; assumption. }
  assert (Htruthy : Py.truthy (Py.strip current_chunk) = true).
  { rewrite Hlast. apply truthy_nonempty, trimmed_nonempty, join_trimmed.
    - exact Hcur.
    - rewrite Forall_app in Hgroups. destruct Hgroups as [_ Hc].
      inversion Hc as [|? ? [? ?] _]; subst. assumption. }
  rewrite Htruthy.
  assert (Htexts : map DocumentProcessor.text
                     (chunks ++ [make_chunk current_chunk page_num filename (length chunks)])
                   = map (Py.join " ") (done ++ [cur])).
  { rewrite !map_app. simpl. rewrite Hlast, Tc. f_equal.
    rewrite Forall_app in Hgroups. destruct Hgroups as [Hd _].
    clear -Hd. induction Hd as [|g gs [Hg Hs] _ IH]; simpl; [reflexivity|].
    rewrite IH, (strip_buffer g Hg Hs). reflexivity. }
  split; [|split].
  - destruct chunks; discriminate.
  - intros s Hs. rewrite <- Hcat in Hs.
    apply list_elem_of_In, in_concat in Hs. destruct Hs as (g & Hg & Hsg).
    apply list_elem_of_In in Hg, Hsg.
    assert (Hj : Py.join " " g ∈ map (Py.join " ") (done ++ [cur])).
    { apply list_elem_of_fmap. exists g. split; [reflexivity|exact Hg]. }
    rewrite <- Htexts in Hj. apply list_elem_of_fmap in Hj.
    destruct Hj as (c & Hc & Hin).
    exists c. split; [exact Hin|]. rewrite <- Hc. apply contains_join. exact Hsg.
  - exists (done ++ [cur])%list. split; [exact Hcat|]. split; [|split; [|split]].
    + eapply Forall_impl; [exact Hgroups|]. intros g [Hg _]. exact Hg.
    + exact Htexts.
    + exact Tg.
    + exact Tp.
Qed.

(** The scenario of the specification: one chunk, labelled by the first
    pattern. *)
Example room_rent_scenario :
  map (fun c => (clause_number (metadata c), clause_title (metadata c)))
      (_create_chunks DocumentProcessor.__init__
         "Clause 5.1: Room Rent. The room rent shall not exceed 2% of sum insured. Clause 5.2: ICU charges apply."
         1 "policy.pdf")
  = [("5.1", "Room Rent")].
Proof. vm_compute. reflexivity. Qed.

(** First match wins, and a chunk no pattern matches keeps both fields
    empty. *)
Lemma extract_loop_first (p : Pattern) (rest : list Pattern) (text : string)
    (info : ClauseInfo) (m : Re.match_) :
  Re.search true (pattern_re p) text = Some m ->
  extract_loop (p :: rest) text info =
  {| number := Re.group m 1; title := Py.strip (Re.group m 2) |}.
Proof. intros E. simpl. rewrite E. destruct (_ || _); reflexivity. Qed.

Lemma extract_loop_unmatched (ps : list Pattern) (text : string)
    (info : ClauseInfo) :
  Forall (fun p => Re.search true (pattern_re p) text = None) ps ->
  extract_loop ps text info = info.
Proof.
  induction 1 as [|p ps Hp _ IH]; simpl; [reflexivity|]. rewrite Hp. exact IH.
Qed.

(** C8 (code defect).  The specification wants [clause_number] to hold the
    numeric locator and [clause_title] the title whichever pattern matched.
    Both branches of the [if] under the match bind group 1 to the number
    and group 2 to the title, which is the wrong way round for the third
    pattern, whose first group is the title: the page text
    "Room Rent - Clause 5.", matched by the third pattern only, is labelled
    with number "Room Rent " and title "5". *)
Theorem title_dash_clause_fields_swapped :
  let page_text := "Room Rent - Clause 5." in
  map (fun p => Re.found (Re.search true (pattern_re p) (page_text ++ " ")))
      clause_patterns = [false; false; true] /\
  map (fun c => (DocumentProcessor.text c,
                 clause_number (metadata c), clause_title (metadata c)))
      (_create_chunks DocumentProcessor.__init__ page_text 1 "policy.pdf")
  = [("Room Rent - Clause 5.", "Room Rent ", "5")].
Proof. split; vm_compute; reflexivity. Qed.

(** C7 (code defect).  The specification, like the comment in the code,
    counts "46M" as an age pattern.  The expression asks for "year" or
    "yr" after the digits, so on the query of the scenario it finds no
    age: the expansion terms are the other five, without "age". *)
Theorem parse_structured_query_misses_age :
  let query := "46M knee surgery Pune 3-month policy" in
  Re.search true age_re query = None /\
  Re.search true age_re "46M" = None /\
  Re.found (Re.search true age_re "46-year-old") = true /\
  _parse_structured_query query
    ≡ₚ ["surgery"; "knee"; "waiting period"; "policy duration"; "location"] /\
  "age" ∉ _parse_structured_query query.
Proof.
  repeat split; try (vm_compute; reflexivity).
  - apply (bool_decide_unpack _). vm_compute. exact I.
  - apply (bool_decide_unpack _). vm_compute. exact I.
Qed.

End ChunkerClaims.

(** ** Concrete runs on the bag-of-words instance *)

Section Runs.
Import BagOfWords.

Lemma disjoint_contentb_sound (b1 b2 : list Doc) :
  disjoint_contentb b1 b2 = true ->
  forall d1 d2, d1 ∈ b1 -> d2 ∈ b2 -> text d1 <> text d2.
Proof.
  unfold disjoint_contentb. intros Hb d1 d2 H1 H2 Heq.
  rewrite forallb_forall in Hb. apply list_elem_of_In in H1, H2.
  specialize (Hb d1 H1). rewrite forallb_forall in Hb. specialize (Hb d2 H2).
  apply negb_true_iff, String.eqb_neq in Hb. contradiction.
Qed.

(** The three chunks of [batch1] pass the filter, the footer does not. *)
Example relevance_of_batches :
  map (fun d => _is_relevant_content (text d)) (batch1 ++ batch2)
  = [true; true; true; true; false].
Proof. vm_compute. reflexivity. Qed.

Lemma add_documents_nothing_relevant_keeps_matrix_witness :
  let w := after [batch1] fresh in
  (vectors (self w) = Some batch1_matrix /\
   (0 < matrix_rows batch1_matrix)%nat /\
   relevant noise = []) /\
  exists w',
    add_documents noise w = (Ret tt, w') /\
    documents (self w') = [] /\
    vectors (self w') = Some batch1_matrix /\
    is_fitted (self w') = is_fitted (self w) /\
    disk w' = disk w /\
    matrix_rows batch1_matrix <> length (documents (self w')).
Proof.
  assert (H1 : vectors (self (after [batch1] fresh)) = Some batch1_matrix)
    by (vm_compute; reflexivity).
  assert (H2 : (0 < matrix_rows batch1_matrix)%nat) by (vm_compute; lia).
  assert (H3 : relevant noise = []) by (vm_compute; reflexivity).
  split; [auto|].
  exact (add_documents_nothing_relevant_keeps_matrix
           (after [batch1] fresh) noise batch1_matrix H1 H2 H3).
Defined.

Lemma replace_semantics_witness :
  (forall d1 d2, d1 ∈ batch1 -> d2 ∈ batch2 -> text d1 <> text d2) /\
  let w1 := snd (add_documents batch1 fresh) in
  let w2 := snd (add_documents batch2 w1) in
  get_document_count w2 = (Ret (length (relevant batch2)), w2) /\
  forall query k results,
    fst (search_documents query k w2) = Ret results ->
    forall r, r ∈ results ->
      doc r ∈ relevant batch2 /\
      forall d1, d1 ∈ batch1 -> text (doc r) <> text d1.
Proof.
  assert (Hd : forall d1 d2, d1 ∈ batch1 -> d2 ∈ batch2 -> text d1 <> text d2)
    by (apply disjoint_contentb_sound; vm_compute; reflexivity).
  split; [exact Hd|].
  exact (replace_semantics fresh batch1 batch2 Hd).
Defined.

(** The second batch leaves one relevant chunk, on which the fit raises:
    the count is 1 and no search returns a chunk of the first batch. *)
Example replace_run :
  let w := after [batch1; batch2] fresh in
  fst (add_documents batch2 (after [batch1] fresh)) = Raise ValueError /\
  fst (get_document_count w) = Ret 1%nat /\
  returned (fst (search_documents "waiting period" 5 w)) = [] /\
  returned (fst (search_documents "knee surgery" 5 w)) = [].
Proof. vm_compute. auto. Qed.

Lemma index_survives_write_failure_witness :
  (relevant batch1 <> [] /\
   fit_transform (self_vectorizer (self fresh_read_only))
     (map text (relevant batch1))
   = (Some (vocabulary batch1_texts), Ret batch1_matrix)) /\
  let s' := {| self_vectorizer := Some (vocabulary batch1_texts);
               vectors := Some batch1_matrix;
               documents := relevant batch1; is_fitted := true |} in
  exists d',
    let w' := {| self := s'; disk := d' |} in
    add_documents batch1 fresh_read_only = (Ret tt, w') /\
    get_document_count w' = (Ret (length (relevant batch1)), w') /\
    forall query k,
      exists results,
        search_documents query k w' = (Ret results, w') /\
        forall d'', fst (search_documents query k {| self := s'; disk := d'' |})
                    = Ret results.
Proof.
  assert (H1 : relevant batch1 <> []) by (vm_compute; discriminate).
  assert (H2 : fit_transform (self_vectorizer (self fresh_read_only))
                 (map text (relevant batch1))
               = (Some (vocabulary batch1_texts), Ret batch1_matrix))
    by (vm_compute; reflexivity).
  split; [auto|].
  exact (index_survives_write_failure fresh_read_only batch1
           (Some (vocabulary batch1_texts)) batch1_matrix H1 H2).
Defined.

(** With every write refused the index answers all the same. *)
Example write_failure_run :
  let w := after [batch1] fresh_read_only in
  fst (get_document_count w) = Ret 3%nat /\
  pages (map doc (returned (fst (search_documents "knee surgery" 5 w)))) = [2; 1]%nat.
Proof. vm_compute. auto. Qed.

Lemma floor_property_witness :
  let w := after [batch1] fresh in
  let query := "dental treatment" in
  let results := returned (fst (search_documents query 5 w)) in
  ((0 < 5)%Z /\ fst (search_documents query 5 w) = Ret results) /\
  (Z.of_nat (length results) <= 5)%Z /\
  (forall r, r ∈ results ->
     exists sims idx sim d,
       fst (similarities_of query w) = Ret sims /\
       sims !! idx = Some sim /\ documents (self w) !! idx = Some d /\
       PrimFloat.ltb 0.01 sim = true /\
       r = boost query (_parse_structured_query query) d sim) /\
  (forall sims d,
     fst (similarities_of query w) = Ret sims ->
     (forall idx sim,
        documents (self w) !! idx = Some d -> sims !! idx = Some sim ->
        PrimFloat.leb sim 0.01 = true) ->
     forall r, r ∈ results -> doc r <> d).
Proof.
  assert (H1 : (0 < 5)%Z) by lia.
  assert (H2 : fst (search_documents "dental treatment" 5 (after [batch1] fresh))
               = Ret (returned (fst (search_documents "dental treatment" 5
                                       (after [batch1] fresh)))))
    by (vm_compute; reflexivity).
  split; [auto|].
  exact (floor_property (after [batch1] fresh) "dental treatment" 5 _ H1 H2).
Defined.

(** Only the dental chunk is above the floor for that query: the two
    knee chunks, selected among the top five, are dropped. *)
Example floor_run :
  let w := after [batch1] fresh in
  pages (map doc (returned (fst (search_documents "dental treatment" 5 w))))
  = [3]%nat.
Proof. vm_compute. reflexivity. Qed.

(** Outside the domain of [k]: with [k = 0] the slice [[-0:]] keeps every
    index, so the bound on the number of results needs [k > 0]. *)
Example zero_k_keeps_every_index :
  let w := after [batch1] fresh in
  top_indices [0.2; 0.9; 0.5]%float 0 = [1; 2; 0]%nat /\
  length (returned (fst (search_documents "knee surgery" 0 w))) = 2%nat.
Proof. vm_compute. auto. Qed.

(** C6 (counterexample).  The chunks of pages 1 and 2 differ in one word
    that the query does not mention and have the same raw similarity to
    "knee surgery"; with [k = 1] the search selects the chunk of page 2,
    the later one, and leaves the earlier one out. *)
Lemma tie_selects_later_chunk :
  let w := after [batch1] fresh in
  pages (documents (self w)) = [1; 2; 3]%nat /\
  pages (map doc (returned (fst (search_documents "knee surgery" 1 w)))) = [2]%nat /\
  exists sims,
    fst (similarities_of "knee surgery" w) = Ret sims /\
    sims !! 0%nat = sims !! 1%nat /\
    top_indices sims 1 = [1%nat] /\
    ~ prefers_earlier sims 1.
Proof.
  split; [vm_compute; reflexivity|]. split; [vm_compute; reflexivity|].
  eexists. split; [vm_compute; reflexivity|].
  split; [reflexivity|]. split; [vm_compute; reflexivity|].
  intros P.
  specialize (P 0%nat 1%nat _ ltac:(lia) eq_refl eq_refl).
  assert (Hsel : 1%nat ∈ [1%nat]) by (left).
  specialize (P Hsel).
  vm_compute in P. apply list_elem_of_singleton in P. discriminate.
Qed.

Lemma top_indices_by_similarity_witness :
  let similarities := [0.2; 0.9; 0.5]%float in
  (is_argsort similarities (argsort similarities) /\ (0 < 2)%Z) /\
  let n := length similarities in
  let selected := top_indices similarities 2 in
  selected = rev (drop (n - Nat.min (Z.to_nat 2) n) (argsort similarities)) /\
  length selected = Nat.min (Z.to_nat 2) n /\
  NoDup selected /\
  (forall i, i ∈ selected -> (i < n)%nat) /\
  (forall i j vi vj,
     i ∈ selected -> j ∉ selected ->
     similarities !! i = Some vi -> similarities !! j = Some vj ->
     PrimFloat.ltb vi vj = false).
Proof.
  assert (H1 : is_argsort [0.2; 0.9; 0.5]%float (argsort [0.2; 0.9; 0.5]%float))
    by (apply is_argsortb_sound; vm_compute; reflexivity).
  assert (H2 : (0 < 2)%Z) by lia.
  split; [auto|].
  exact (top_indices_by_similarity [0.2; 0.9; 0.5]%float 2 H1 H2).
Defined.

(** On those three similarities with [k = 2]: rows 1 and 2, best first. *)
Example top_indices_run :
  top_indices [0.2; 0.9; 0.5]%float 2 = [1; 2]%nat.
Proof. vm_compute. reflexivity. Qed.

Lemma chunk_coverage_witness :
  let self := {| chunk_size := 20; chunk_overlap := 0 |} in
  let text := "Aaa bbb ccc.  Ddd eee fff! Ggg hhh? Iii" in
  let chunks := _create_chunks self text 1 "policy.pdf" in
  (text <> "" /\ Py.strip text = text) /\
  chunks <> [] /\
  (forall s, s ∈ split_sentences text ->
     exists c, c ∈ chunks /\ Py.contains s (DocumentProcessor.text c) = true) /\
  exists groups : list (list string),
    concat groups = split_sentences text /\
    Forall (fun g => g <> []) groups /\
    map DocumentProcessor.text chunks = map (Py.join " ") groups /\
    seeded (chunk_size self) groups /\
    Forall (packed (chunk_size self)) groups.
Proof.
  assert (H1 : "Aaa bbb ccc.  Ddd eee fff! Ggg hhh? Iii" <> "") by discriminate.
  assert (H2 : Py.strip "Aaa bbb ccc.  Ddd eee fff! Ggg hhh? Iii"
               = "Aaa bbb ccc.  Ddd eee fff! Ggg hhh? Iii")
    by (vm_compute; reflexivity).
  split; [auto|].
  exact (chunk_coverage {| chunk_size := 20; chunk_overlap := 0 |}
           "Aaa bbb ccc.  Ddd eee fff! Ggg hhh? Iii" 1 "policy.pdf" H1 H2).
Defined.

(** The chunks of that page: three, the second and third seeded by the
    sentences that did not fit. *)
Example chunking_run :
  map DocumentProcessor.text
      (_create_chunks {| chunk_size := 20; chunk_overlap := 0 |}
         "Aaa bbb ccc.  Ddd eee fff! Ggg hhh? Iii" 1 "policy.pdf")
  = ["Aaa bbb ccc."; "Ddd eee fff!"; "Ggg hhh? Iii"].
Proof. vm_compute. reflexivity. Qed.

End Runs.

(** * Further properties of the index *)

Section MoreComparisons.

Lemma ltb_leb (x y : float) :
  PrimFloat.ltb x y = true -> PrimFloat.leb x y = true.
Proof.
  rewrite FloatAxioms.leb_spec, FloatAxioms.ltb_spec. unfold SFleb, SFltb.
  destruct (SFcompare (Prim2SF x) (Prim2SF y)) as [[ | | ]|]; congruence.
Qed.

Lemma ltb_asym (x y : float) :
  PrimFloat.ltb x y = true -> PrimFloat.ltb y x = false.
Proof. intros E. apply leb_not_ltb, ltb_leb, E. Qed.

Lemma min_one_cap (x : float) : PrimFloat.leb (Py.min 1.0 x) 1.0 = true.
Proof.
  unfold Py.min. destruct (PrimFloat.ltb x 1.0) eqn:E.
  - apply ltb_leb. exact E.
  - vm_compute. reflexivity.
Qed.

End MoreComparisons.

Section MoreIndexFacts.
Context `{Sklearn}.

Lemma insert_desc_sorted (x : ScoredDoc) (l : list ScoredDoc) :
  Sorted not_below l -> Sorted not_below (insert_desc x l).
Proof.
  induction l as [|y l IH]; intros Hs; simpl.
  - constructor; constructor.
  - destruct (PrimFloat.ltb (similarity_score x) (similarity_score y)) eqn:E.
    + inversion Hs as [|? ? Hl Hhd]; subst.
      specialize (IH Hl). constructor; [exact IH|].
      destruct l as [|z l]; simpl in *.
      * constructor. apply ltb_asym. exact E.
      * destruct (PrimFloat.ltb (similarity_score x) (similarity_score z)).
        -- inversion Hhd; subst. constructor. assumption.
        -- constructor. apply ltb_asym. exact E.
    + constructor; [exact Hs|]. constructor. exact E.
Qed.

Lemma sort_desc_sorted (l : list ScoredDoc) : Sorted not_below (sort_desc l).
Proof.
  induction l as [|x l IH]; simpl; [constructor|].
  apply insert_desc_sorted. exact IH.
Qed.

(** The two boosts, each capped at 1.0: the score that comes out is at
    most 1.0, or it is the raw similarity that went in. *)
Lemma boost_capped (query : string) (terms : list string) (d : Doc)
    (similarity : float) :
  PrimFloat.leb (similarity_score (boost query terms d similarity)) 1.0 = true \/
  similarity_score (boost query terms d similarity) = similarity.
Proof.
  unfold boost. simpl.
  set (step := fun (score : float) (term : string) => _).
  assert (Hfold : forall ts s,
            (PrimFloat.leb s 1.0 = true \/ s = similarity) ->
            PrimFloat.leb (foldl step s ts) 1.0 = true \/
            foldl step s ts = similarity).
  { induction ts as [|t ts IH]; intros s Hs; simpl; [exact Hs|].
    apply IH. unfold step.
    destruct (Py.contains _ _); [left; apply min_one_cap|exact Hs]. }
  destruct (bool_decide _).
  - left. apply min_one_cap.
  - apply Hfold. right. reflexivity.
Qed.

Lemma _save_vectors_healthy (s : Store) (d : Disk) :
  makedirs_fails d = false ->
  (forall f, write_fails d f = false) ->
  _save_vectors {| self := s; disk := d |} =
  (Ret tt,
   {| self := s;
      disk := {| vectorizer_pkl := Some (self_vectorizer s);
                 vectors_pkl := Some (vectors s);
                 documents_pkl := Some (documents s);
                 makedirs_fails := makedirs_fails d;
                 write_fails := write_fails d;
                 read_fails := read_fails d;
                 remove_fails := remove_fails d |} |}).
Proof.
  destruct d as [a b c mk wf rf rmf]. simpl. intros -> Hw.
  unfold _save_vectors. msimpl. repeat (rewrite Hw; simpl). reflexivity.
Qed.

Lemma _is_relevant_content_length (t : string) :
  _is_relevant_content t = true -> (50 <= Py.len (Py.strip t))%nat.
Proof.
  unfold _is_relevant_content.
  destruct (Py.len (Py.strip t) <? 50)%nat eqn:E; [discriminate|].
  intros _. apply Nat.ltb_ge in E. exact E.
Qed.

End MoreIndexFacts.

Section MoreIndexProperties.
Context `{Sklearn}.

(** X1.  [search_documents] raises exactly when [self.vectors] is [None],
    and what it raises then is [AttributeError]; with a matrix in place
    every failure inside is swallowed. *)
Theorem search_documents_raises_iff (w : World) (query : string) (k : Z)
    (e : exn) :
  fst (search_documents query k w) = Raise e <->
  vectors (self w) = None /\ e = AttributeError.
Proof.
  split.
  - intros E. destruct (vectors (self w)) as [m|] eqn:Ev.
    + destruct (search_documents_returns w m query k Ev) as [rs Hs].
      rewrite Hs in E. discriminate.
    + revert E. unfold search_documents. msimpl. rewrite Ev. simpl.
      intros E. inversion E. auto.
  - intros [Ev ->]. unfold search_documents. msimpl. rewrite Ev. reflexivity.
Qed.

(** X2.  The list a search returns is ranked: no result has a lower score
    than the result after it. *)
Theorem search_results_ranked (w : World) (query : string) (k : Z)
    (results : list ScoredDoc) :
  fst (search_documents query k w) = Ret results ->
  Sorted not_below results.
Proof.
  intros E. apply search_documents_ret in E.
  destruct E as [->|(sims & raw & _ & _ & ->)]; [constructor|].
  apply sort_desc_sorted.
Qed.

(** X3.  Cap: the score of a returned document is at most 1.0, unless no
    boost applied to it, in which case it is the raw cosine similarity of
    one of the indexed rows. *)
Theorem search_scores_capped (w : World) (query : string) (k : Z)
    (results : list ScoredDoc) :
  fst (search_documents query k w) = Ret results ->
  forall r, r ∈ results ->
    PrimFloat.leb (similarity_score r) 1.0 = true \/
    exists sims idx,
      fst (similarities_of query w) = Ret sims /\
      sims !! idx = Some (similarity_score r).
Proof.
  intros E r Hr. apply search_documents_ret in E.
  destruct E as [->|(sims & raw & Es & Ec & ->)]; [inversion Hr|].
  rewrite sort_desc_perm in Hr. apply collect_spec in Ec.
  destruct Ec as [_ Hin].
  destruct (Hin r Hr) as [Hnil|(idx & sim & d & _ & Hs & _ & _ & ->)];
    [inversion Hnil|].
  destruct (boost_capped query (_parse_structured_query query) d sim) as [C|C].
  - left. exact C.
  - right. exists sims, idx. rewrite C. auto.
Qed.

(** X4.  With an empty document list and a matrix in place (the state the
    early return of [add_documents] leaves), every search returns the
    empty list. *)
Theorem search_with_no_documents (w : World) (m : matrix) (query : string)
    (k : Z) :
  vectors (self w) = Some m ->
  documents (self w) = [] ->
  search_documents query k w = (Ret [], w).
Proof.
  intros Hm Hd.
  destruct (search_documents_returns w m query k Hm) as [rs Hs].
  rewrite Hs. f_equal. f_equal.
  destruct rs as [|r rs]; [reflexivity|].
  assert (Hin : doc r ∈ documents (self w)).
  { apply (search_documents_from_documents w query k (r :: rs)).
    - rewrite Hs. reflexivity.
    - left. }
  rewrite Hd in Hin. inversion Hin.
Qed.

(** X5.  Snapshot round trip: when the disk refuses nothing and the
    vectorizer fits the batch, a process started on the disk that
    [add_documents] leaves behind holds the same vectorizer, matrix,
    documents and fitted flag as the store that wrote it. *)
Theorem snapshot_round_trip (w : World) (docs : list Doc) (v : vectorizer)
    (X : matrix) (max_features : nat) :
  no_faults (disk w) ->
  relevant docs <> [] ->
  fit_transform (self_vectorizer (self w)) (map text (relevant docs)) = (v, Ret X) ->
  let w' := snd (add_documents docs w) in
  self (__init__ max_features (disk w')) = self w' /\
  documents (self w') = relevant docs /\ vectors (self w') = Some X.
Proof.
  intros (Hmk & Hwr & Hrd) Hne Hfit. simpl.
  destruct w as [s d]. simpl in *.
  unfold add_documents. fold (relevant docs). simpl.
  destruct (relevant docs) as [|d0 l] eqn:E; [congruence|].
  msimpl. simpl in Hfit. rewrite Hfit. msimpl.
  rewrite _save_vectors_healthy by assumption. simpl.
  split; [|auto].
  unfold __init__, _load_vectors. msimpl.
  repeat (rewrite Hrd; simpl). reflexivity.
Qed.

(** X6.  Startup fallback: if one of the three snapshot files is missing
    or cannot be read, the new store is empty (no matrix, no documents,
    not fitted) and the disk is left as it was. *)
Theorem startup_without_snapshot_is_empty (max_features : nat) (d : Disk) :
  vectorizer_pkl d = None \/ vectors_pkl d = None \/ documents_pkl d = None \/
  (exists f, read_fails d f = true) ->
  let w := __init__ max_features d in
  vectors (self w) = None /\ documents (self w) = [] /\
  is_fitted (self w) = false /\ disk w = d /\
  fst (get_document_count w) = Ret 0%nat.
Proof.
  intros Hbad. unfold __init__, _load_vectors. msimpl.
  destruct d as [a b c mk wf rf rmf]. simpl in *.
  destruct a as [a|], b as [b|], c as [c|]; simpl;
    try (repeat split; reflexivity).
  destruct (rf vectorizer_file) eqn:E1; simpl; [repeat split; reflexivity|].
  destruct (rf vectors_file) eqn:E2; simpl; [repeat split; reflexivity|].
  destruct (rf docs_file) eqn:E3; simpl; [repeat split; reflexivity|].
  destruct Hbad as [?|[?|[?|[f Hf]]]]; try discriminate.
  destruct f; congruence.
Qed.

(** X7.  [clear_all_documents] never raises and always empties the
    object, whatever the disk refuses. *)
Theorem clear_all_documents_returns (w : World) :
  exists d,
    clear_all_documents w =
    (Ret tt,
     {| self := {| self_vectorizer := self_vectorizer (self w);
                   vectors := None; documents := []; is_fitted := false |};
        disk := d |}).
Proof.
  pose proof (clear_all_documents_self w) as Hs.
  assert (Hr : fst (clear_all_documents w) = Ret tt).
  { unfold clear_all_documents, try_except.
    match goal with |- context [(?m ≫= ?f) w] =>
      destruct ((m ≫= f) w) as [[[]|e] w'] end; reflexivity. }
  destruct (clear_all_documents w) as [r [s d]]. simpl in *. subst.
  exists d. reflexivity.
Qed.

(** X8.  When no removal is refused, [clear_all_documents] leaves none of
    the three snapshot files, and a process started afterwards is empty. *)
Theorem clear_removes_snapshot (w : World) (max_features : nat) :
  (forall f, remove_fails (disk w) f = false) ->
  let d := disk (snd (clear_all_documents w)) in
  vectorizer_pkl d = None /\ vectors_pkl d = None /\ documents_pkl d = None /\
  documents (self (__init__ max_features d)) = [] /\
  vectors (self (__init__ max_features d)) = None.
Proof.
  intros Hrm. destruct w as [s [a b c mk wf rf rmf]]. simpl in *.
  unfold clear_all_documents, remove_each, remove. msimpl.
  destruct a as [a|], b as [b|], c as [c|]; simpl;
    repeat (rewrite Hrm; simpl); repeat split; reflexivity.
Qed.

(** X9.  [clear_all_documents] is idempotent: a second call changes
    neither the object nor the disk, whatever the disk refuses. *)
Theorem clear_all_documents_idempotent (w : World) :
  clear_all_documents (snd (clear_all_documents w)) =
  (Ret tt, snd (clear_all_documents w)).
Proof.
  destruct w as [s [a b c mk wf rf rmf]].
  unfold clear_all_documents, remove_each, remove. msimpl.
  destruct a as [a|], b as [b|], c as [c|]; simpl;
    destruct (rmf vectorizer_file) eqn:E1; simpl;
    destruct (rmf vectors_file) eqn:E2; simpl;
    destruct (rmf docs_file) eqn:E3; simpl;
    rewrite ?E1, ?E2, ?E3; simpl; rewrite ?E1, ?E2, ?E3; reflexivity.
Qed.

Lemma add_each_snoc (batches : list (list Doc)) (last : list Doc) (w : World) :
  add_each (batches ++ [last]) w = snd (add_documents last (add_each batches w)).
Proof. unfold add_each. rewrite foldl_snoc. reflexivity. Qed.

(** X10.  One [add_documents] per uploaded file, as [upload_files] calls
    it, does not accumulate: after any sequence of calls, however each
    ended, the index holds the relevant chunks of the last batch only. *)
Theorem add_each_keeps_last (batches : list (list Doc)) (last : list Doc)
    (w : World) :
  let w' := add_each (batches ++ [last]) w in
  documents (self w') = relevant last /\
  get_document_count w' = (Ret (length (relevant last)), w').
Proof.
  simpl. rewrite add_each_snoc.
  pose proof (add_documents_documents last (add_each batches w)) as Hd.
  split; [exact Hd|].
  unfold get_document_count. msimpl. rewrite Hd. reflexivity.
Qed.

(** X11.  Whatever way [add_documents] ends, every document it leaves in
    the index is a chunk of the batch that passed the relevance filter; in
    particular its trimmed text has at least 50 characters. *)
Theorem indexed_documents_relevant (docs : list Doc) (w : World) (d : Doc) :
  d ∈ documents (self (snd (add_documents docs w))) ->
  d ∈ docs /\ _is_relevant_content (text d) = true /\
  (50 <= Py.len (Py.strip (text d)))%nat.
Proof.
  rewrite add_documents_documents. unfold relevant. intros Hd.
  apply list_elem_of_In, filter_In in Hd. destruct Hd as [Hin Hrel].
  split; [apply list_elem_of_In; exact Hin|]. split; [exact Hrel|].
  apply _is_relevant_content_length. exact Hrel.
Qed.

(** X19.  [add_documents] raises exactly when some chunk passes the filter
    and the vectorizer raises on the surviving texts; it then raises what
    the vectorizer raised.  Nothing the disk does makes it raise. *)
Theorem add_documents_raises_iff (docs : list Doc) (w : World) (e : exn) :
  fst (add_documents docs w) = Raise e <->
  relevant docs <> [] /\
  snd (fit_transform (self_vectorizer (self w)) (map text (relevant docs))) = Raise e.
Proof.
  pose proof (add_documents_cases docs w) as C. simpl in C.
  destruct (relevant docs) as [|d0 l] eqn:E.
  - rewrite C. split; [discriminate|]. intros [Hne _]. congruence.
  - destruct (fit_transform _ _) as [v [X|e']]; simpl.
    + destruct C as [d' C]. rewrite C. simpl. split; [discriminate|].
      intros [_ Hr]. discriminate.
    + rewrite C. simpl. split.
      * intros Hr. inversion Hr. split; [discriminate|reflexivity].
      * intros [_ Hr]. inversion Hr. reflexivity.
Qed.

(** X20.  A failed fit on a store without a matrix leaves documents
    without a matrix: [add_documents] re-raises, the count is that of the
    surviving chunks, and every later search raises [AttributeError]. *)
Theorem failed_fit_leaves_documents (docs : list Doc) (w : World)
    (v : vectorizer) (e : exn) :
  vectors (self w) = None ->
  relevant docs <> [] ->
  fit_transform (self_vectorizer (self w)) (map text (relevant docs))
  = (v, Raise e) ->
  exists w',
    add_documents docs w = (Raise e, w') /\
    get_document_count w' = (Ret (length (relevant docs)), w') /\
    (0 < length (relevant docs))%nat /\
    forall query k, search_documents query k w' = (Raise AttributeError, w').
Proof.
  intros Hv Hne Hfit.
  pose proof (add_documents_cases docs w) as C. simpl in C.
  destruct (relevant docs) as [|d0 l] eqn:E; [congruence|].
  rewrite Hfit in C. eexists. split; [exact C|].
  split; [reflexivity|]. split; [simpl; lia|].
  intros query k. unfold search_documents. msimpl. rewrite Hv. reflexivity.
Qed.

(** X21.  The sequence of [hackrx_run]: clear, then an ingestion in which
    no chunk passes the filter, then a search.  The ingestion returns
    normally, the count is 0, and the search raises [AttributeError]. *)
Theorem search_after_clear_and_irrelevant_batch (docs : list Doc) (w : World)
    (query : string) (k : Z) :
  relevant docs = [] ->
  let w1 := snd (clear_all_documents w) in
  let w2 := snd (add_documents docs w1) in
  add_documents docs w1 = (Ret tt, w2) /\
  fst (get_document_count w2) = Ret 0%nat /\
  search_documents query k w2 = (Raise AttributeError, w2).
Proof.
  intros Hrel. simpl.
  pose proof (clear_all_documents_self w) as Hs.
  destruct (snd (clear_all_documents w)) as [s1 d1]. simpl in Hs. subst s1.
  pose proof (add_documents_cases docs
                {| self := {| self_vectorizer := self_vectorizer (self w);
                              vectors := None; documents := [];
                              is_fitted := false |};
                   disk := d1 |}) as C.
  simpl in C. rewrite Hrel in C. rewrite C. simpl.
  split; [reflexivity|]. split; reflexivity.
Qed.

End MoreIndexProperties.

(** * Further properties of the chunker *)

Section MoreStrings.
#[local] Arguments String.append !s1 s2 : simpl nomatch.

Lemma length_app_s (a b : string) :
  String.length (a ++ b) = (String.length a + String.length b)%nat.
Proof. induction a as [|x a IH]; simpl; [reflexivity|]. rewrite IH. reflexivity. Qed.

Lemma len_app (a b : string) : Py.len (a ++ b) = (Py.len a + Py.len b)%nat.
Proof.
  induction a as [|c a IH]; simpl; [reflexivity|].
  rewrite IH. destruct (Py.continues c); reflexivity.
Qed.

Lemma lstrip_len (s : string) : (Py.len (Py.lstrip s) <= Py.len s)%nat.
Proof.
  induction s as [|c s IH]; simpl; [lia|].
  destruct (Py.isspace c); [|simpl; lia].
  destruct (Py.continues c); lia.
Qed.

Lemma rstrip_len (s : string) : (Py.len (Py.rstrip s) <= Py.len s)%nat.
Proof.
  induction s as [|c s IH]; simpl; [lia|].
  destruct (Py.rstrip s) as [|x r].
  - destruct (Py.isspace c); simpl in *; destruct (Py.continues c); lia.
  - cbn [Py.len] in *. destruct (Py.continues c); lia.
Qed.

Lemma strip_len (s : string) : (Py.len (Py.strip s) <= Py.len s)%nat.
Proof.
  unfold Py.strip. pose proof (lstrip_len (Py.rstrip s)).
  pose proof (rstrip_len s). lia.
Qed.

Lemma lstrip_length (s : string) : (String.length (Py.lstrip s) <= String.length s)%nat.
Proof.
  induction s as [|x s IH]; simpl; [lia|].
  destruct (Py.isspace x); simpl; lia.
Qed.

Lemma rstrip_length (s : string) : (String.length (Py.rstrip s) <= String.length s)%nat.
Proof.
  induction s as [|x s IH]; simpl; [lia|].
  destruct (Py.rstrip s) as [|y r]; simpl in *.
  - destruct (Py.isspace x); simpl; lia.
  - lia.
Qed.

Lemma strip_length (s : string) : (String.length (Py.strip s) <= String.length s)%nat.
Proof.
  unfold Py.strip. pose proof (lstrip_length (Py.rstrip s)).
  pose proof (rstrip_length s). lia.
Qed.

Lemma strip_app_space (s : string) : Py.strip (s ++ " ") = Py.strip s.
Proof. unfold Py.strip. rewrite rstrip_app_space. reflexivity. Qed.

Lemma nonblank_app (a b : string) : nonblank (a ++ b) = nonblank a || nonblank b.
Proof.
  induction a as [|x a IH]; simpl; [reflexivity|].
  rewrite IH, orb_assoc. reflexivity.
Qed.

Lemma rstrip_nonblank (s : string) : nonblank (Py.rstrip s) = nonblank s.
Proof.
  induction s as [|x s IH]; simpl; [reflexivity|].
  destruct (Py.rstrip s) as [|y r] eqn:E.
  - rewrite <- IH. destruct (Py.isspace x) eqn:Ex; simpl; rewrite ?Ex; reflexivity.
  - rewrite <- IH. reflexivity.
Qed.

Lemma lstrip_empty (s : string) : Py.lstrip s = "" -> nonblank s = false.
Proof.
  induction s as [|x s IH]; simpl; [reflexivity|].
  destruct (Py.isspace x); [exact IH|discriminate].
Qed.

Lemma lstrip_blank (s : string) : nonblank s = false -> Py.lstrip s = "".
Proof.
  induction s as [|x s IH]; simpl; [reflexivity|].
  destruct (Py.isspace x); simpl; [exact IH|discriminate].
Qed.

(** [strip] gives the empty string exactly on blank strings. *)
Lemma strip_empty_iff (s : string) : Py.strip s = "" <-> nonblank s = false.
Proof.
  unfold Py.strip. rewrite <- (rstrip_nonblank s). split.
  - apply lstrip_empty.
  - apply lstrip_blank.
Qed.

Lemma strip_shape (s : string) :
  Py.strip s = "" \/ trimmed (Py.strip s) = true.
Proof.
  unfold Py.strip.
  destruct (lstrip_shape (Py.rstrip s)) as [E|E]; [left; exact E|].
  right. unfold trimmed. rewrite E. simpl.
  assert (Hne : Py.lstrip (Py.rstrip s) <> "").
  { intros C. rewrite C in E. discriminate. }
  rewrite (lstrip_last _ Hne).
  destruct (rstrip_shape s) as [R|R]; [|exact R].
  rewrite R in Hne. simpl in Hne. congruence.
Qed.

Lemma strip_idempotent (s : string) : Py.strip (Py.strip s) = Py.strip s.
Proof.
  destruct (strip_shape s) as [E|E].
  - rewrite E. reflexivity.
  - apply strip_trimmed. exact E.
Qed.

End MoreStrings.

Section MoreSentences.

(** Every piece but the last ends on an end mark, hence is not blank. *)
Lemma scan_inner_nonblank (s : string) :
  (forall e,
     (snd (scan (InText e) s) <> [] ->
      e = true \/ nonblank (fst (scan (InText e) s)) = true) /\
     inner_nonblank (snd (scan (InText e) s)) = true) /\
  ((snd (scan InGap s) <> [] -> nonblank (fst (scan InGap s)) = true) /\
   inner_nonblank (snd (scan InGap s)) = true).
Proof.
  induction s as [|c s [IHt IHg]].
  - split; [intros e|]; simpl; split; auto; congruence.
  - split.
    + intros e. simpl. destruct (e && Py.isspace c) eqn:Esep.
      * apply andb_true_iff in Esep. destruct Esep as [-> _].
        destruct IHg as [Hh Ht]. destruct (scan InGap s) as [h t]. simpl in *.
        split; [auto|]. destruct t as [|t0 t]; [reflexivity|].
        rewrite Hh by congruence. exact Ht.
      * destruct (IHt (is_end c)) as [Hh Ht].
        destruct (scan (InText (is_end c)) s) as [h t]. simpl in *.
        split; [|exact Ht]. intros Hne. right.
        destruct (Hh Hne) as [E|E].
        -- rewrite (is_end_nonspace c E). reflexivity.
        -- rewrite E. apply orb_true_r.
    + simpl. destruct (Py.isspace c) eqn:Hsp.
      * exact IHg.
      * destruct (IHt (is_end c)) as [Hh Ht].
        destruct (scan (InText (is_end c)) s) as [h t]. simpl in *.
        rewrite Hsp. simpl. auto.
Qed.

Lemma split_sentences_inner_nonblank (text : string) :
  inner_nonblank (split_sentences text) = true.
Proof.
  unfold split_sentences.
  destruct (proj1 (scan_inner_nonblank text) false) as [Hh Ht].
  destruct (scan (InText false) text) as [h t]. simpl in *.
  destruct t as [|t0 t]; [reflexivity|].
  destruct (Hh ltac:(congruence)) as [E|E]; [discriminate|].
  rewrite E. exact Ht.
Qed.

(** A blank text is one piece. *)
Lemma scan_blank (s : string) :
  nonblank s = false -> scan (InText false) s = (s, []).
Proof.
  induction s as [|c s IH]; simpl; [reflexivity|].
  intros Hb. apply orb_false_iff in Hb. destruct Hb as [Hc Hs].
  apply negb_false_iff in Hc.
  assert (He : is_end c = false).
  { destruct (is_end c) eqn:E; [|reflexivity].
    rewrite (is_end_nonspace c E) in Hc. discriminate. }
  rewrite He, (IH Hs). reflexivity.
Qed.

End MoreSentences.

Section MoreChunking.
#[local] Arguments String.append !s1 s2 : simpl nomatch.
Variable self : DocumentProcessor.t.
Variable page_num : nat.
Variable filename : string.

Lemma numbered_snoc (chunks : list Chunk) (current_chunk : string) :
  numbered page_num filename chunks ->
  numbered page_num filename
    (chunks ++ [make_chunk current_chunk page_num filename (length chunks)]).
Proof.
  intros [Hid Hall]. split.
  - rewrite map_app, length_app, Hid. simpl.
    rewrite Nat.add_1_r, seq_S. reflexivity.
  - apply Forall_app. split; [exact Hall|]. constructor; [|constructor].
    simpl. auto.
Qed.

Lemma chunk_loop_numbered (sentences : list string) :
  forall chunks current_chunk,
    numbered page_num filename chunks ->
    numbered page_num filename
      (fst (chunk_loop self page_num filename sentences chunks current_chunk)).
Proof.
  induction sentences as [|s rest IH]; intros chunks cur Hn; simpl; [exact Hn|].
  destruct (_ && _); apply IH; [apply numbered_snoc|]; exact Hn.
Qed.

Lemma make_chunk_well_formed (current_chunk : string) (n : nat) :
  nonblank current_chunk = true ->
  well_formed (make_chunk current_chunk page_num filename n).
Proof.
  intros Hb. split; simpl.
  - intros E. apply strip_empty_iff in E. congruence.
  - apply strip_idempotent.
Qed.

Lemma chunk_loop_well_formed (sentences : list string) :
  forall chunks current_chunk,
    inner_nonblank sentences = true ->
    current_chunk = "" \/ nonblank current_chunk = true \/ sentences = [] ->
    Forall well_formed chunks ->
    Forall well_formed
      (fst (chunk_loop self page_num filename sentences chunks current_chunk)).
Proof.
  induction sentences as [|s rest IH]; intros chunks cur Hinner Hcur Hall;
    simpl; [exact Hall|].
  assert (Hrest : inner_nonblank rest = true).
  { simpl in Hinner. destruct rest as [|r rest]; [reflexivity|].
    apply andb_true_iff in Hinner. apply Hinner. }
  assert (Hs : rest = [] \/ nonblank s = true).
  { simpl in Hinner. destruct rest as [|r rest]; [left; reflexivity|].
    apply andb_true_iff in Hinner. right. apply Hinner. }
  destruct (_ && Py.truthy cur) eqn:Eover.
  - apply andb_true_iff in Eover. destruct Eover as [_ Htruthy].
    apply IH; [exact Hrest| |].
    + destruct Hs as [->|Hs]; [auto|].
      right. left. rewrite nonblank_app, Hs. reflexivity.
    + apply Forall_app. split; [exact Hall|]. constructor; [|constructor].
      apply make_chunk_well_formed.
      destruct Hcur as [->|[Hb|Hnil]]; [discriminate|exact Hb|discriminate].
  - apply IH; [exact Hrest| |exact Hall].
    destruct Hs as [->|Hs]; [auto|].
    right. left. rewrite !nonblank_app, Hs. apply orb_true_iff. right. reflexivity.
Qed.

Lemma make_chunk_bounded (all : list string) (current_chunk : string) (n : nat) :
  buffer_bounded (chunk_size self) all current_chunk ->
  bounded (chunk_size self) all (make_chunk current_chunk page_num filename n).
Proof.
  intros [->|(x & -> & [Hx|Hx])]; unfold bounded; simpl.
  - left. simpl. lia.
  - left. rewrite strip_app_space. pose proof (strip_len x). lia.
  - right. exists x. split; [exact Hx|]. apply strip_app_space.
Qed.

Lemma chunk_loop_bounded (all sentences : list string) :
  forall chunks current_chunk,
    (forall s, s ∈ sentences -> s ∈ all) ->
    buffer_bounded (chunk_size self) all current_chunk ->
    Forall (bounded (chunk_size self) all) chunks ->
    Forall (bounded (chunk_size self) all)
      (fst (chunk_loop self page_num filename sentences chunks current_chunk)) /\
    buffer_bounded (chunk_size self) all
      (snd (chunk_loop self page_num filename sentences chunks current_chunk)).
Proof.
  induction sentences as [|s rest IH]; intros chunks cur Hsub Hcur Hall;
    simpl; [auto|].
  assert (Hs : s ∈ all) by (apply Hsub; left).
  assert (Hsub' : forall s', s' ∈ rest -> s' ∈ all)
    by (intros s' Hs'; apply Hsub; right; exact Hs').
  destruct (_ && Py.truthy cur) eqn:Eover.
  - apply IH; [exact Hsub'| |].
    + right. exists s. auto.
    + apply Forall_app. split; [exact Hall|]. constructor; [|constructor].
      apply make_chunk_bounded. exact Hcur.
  - apply IH; [exact Hsub'| |exact Hall].
    right. destruct cur as [|c cur'].
    + exists s. auto.
    + exists (String c cur' ++ s). split; [rewrite app_assoc_s; reflexivity|].
      left. apply andb_false_iff in Eover.
      destruct Eover as [E|E]; [|discriminate].
      apply Nat.ltb_ge in E. rewrite len_app. exact E.
Qed.

End MoreChunking.

Section MoreChunkerProperties.

Lemma create_chunks_numbered (self : DocumentProcessor.t) (text : string)
    (page_num : nat) (filename : string) :
  numbered page_num filename (_create_chunks self text page_num filename).
Proof.
  unfold _create_chunks.
  pose proof (chunk_loop_numbered self page_num filename (split_sentences text) [] "")
    as Hn.
  destruct (chunk_loop self page_num filename (split_sentences text) [] "")
    as [chunks cur]. simpl in Hn.
  assert (H0 : numbered page_num filename []) by (split; constructor).
  specialize (Hn H0).
  destruct (Py.truthy (Py.strip cur)); [apply numbered_snoc|]; exact Hn.
Qed.

(** X12.  Within a page the chunks are numbered 0, 1, 2, ... in the order
    they were emitted, and each carries the page number and the file name
    the call was given. *)
Theorem chunks_numbered_in_order (self : DocumentProcessor.t) (text : string)
    (page_num : nat) (filename : string) :
  let chunks := _create_chunks self text page_num filename in
  map (fun c => chunk_id (metadata c)) chunks = seq 0 (length chunks) /\
  Forall (fun c => page (metadata c) = page_num /\ source (metadata c) = filename)
         chunks.
Proof.
  exact (create_chunks_numbered self text page_num filename).
Qed.

Lemma create_chunks_well_formed (self : DocumentProcessor.t) (text : string)
    (page_num : nat) (filename : string) (c : Chunk) :
  c ∈ _create_chunks self text page_num filename -> well_formed c.
Proof.
  unfold _create_chunks.
  pose proof (chunk_loop_well_formed self page_num filename (split_sentences text)
                [] "" (split_sentences_inner_nonblank text)
                (or_introl eq_refl) ltac:(constructor)) as Hw.
  destruct (chunk_loop self page_num filename (split_sentences text) [] "")
    as [chunks cur]. simpl in Hw.
  rewrite Forall_forall in Hw.
  destruct (Py.truthy (Py.strip cur)) eqn:Et; intros Hc.
  - apply elem_of_app in Hc. destruct Hc as [Hc|Hc]; [apply Hw; exact Hc|].
    apply list_elem_of_singleton in Hc. subst c. split; simpl.
    + intros E. rewrite E in Et. discriminate.
    + apply strip_idempotent.
  - apply Hw. exact Hc.
Qed.

(** X13.  Whatever the text, every emitted chunk has a text that is not
    empty and has no whitespace at either end. *)
Theorem chunk_texts_well_formed (self : DocumentProcessor.t) (text : string)
    (page_num : nat) (filename : string) (c : Chunk) :
  c ∈ _create_chunks self text page_num filename ->
  DocumentProcessor.text c <> "" /\
  Py.strip (DocumentProcessor.text c) = DocumentProcessor.text c.
Proof.
  exact (create_chunks_well_formed self text page_num filename c).
Qed.

(** X14.  Size bound: a chunk is longer than the target size only if it
    is a single sentence of the page on its own. *)
Theorem chunk_size_bound (self : DocumentProcessor.t) (text : string)
    (page_num : nat) (filename : string) (c : Chunk) :
  c ∈ _create_chunks self text page_num filename ->
  (Py.len (DocumentProcessor.text c) <= chunk_size self)%nat \/
  exists s, s ∈ split_sentences text /\ DocumentProcessor.text c = Py.strip s.
Proof.
  unfold _create_chunks.
  destruct (chunk_loop_bounded self page_num filename (split_sentences text)
              (split_sentences text) [] "" (fun s Hs => Hs)
              (or_introl eq_refl) ltac:(constructor)) as [Hb Hcur].
  destruct (chunk_loop self page_num filename (split_sentences text) [] "")
    as [chunks cur]. simpl in Hb, Hcur.
  rewrite Forall_forall in Hb.
  destruct (Py.truthy (Py.strip cur)); intros Hc.
  - apply elem_of_app in Hc. destruct Hc as [Hc|Hc]; [apply Hb; exact Hc|].
    apply list_elem_of_singleton in Hc. subst c.
    apply (make_chunk_bounded self page_num filename). exact Hcur.
  - apply Hb. exact Hc.
Qed.

Lemma create_chunks_blank (self : DocumentProcessor.t) (text : string)
    (page_num : nat) (filename : string) :
  nonblank text = false ->
  _create_chunks self text page_num filename = [].
Proof.
  intros Hb.
  unfold _create_chunks, split_sentences. rewrite (scan_blank text Hb). simpl.
  rewrite andb_false_r. simpl.
  assert (E : Py.strip (text ++ " ") = "").
  { apply strip_empty_iff. rewrite nonblank_app, Hb. reflexivity. }
  change ("" ++ text ++ " ") with (text ++ " "). rewrite E. reflexivity.
Qed.

(** X15.  A text that is empty or all whitespace yields no chunk. *)
Theorem blank_text_no_chunks (self : DocumentProcessor.t) (text : string)
    (page_num : nat) (filename : string) :
  Py.strip text = "" ->
  _create_chunks self text page_num filename = [].
Proof.
  intros Hb. apply create_chunks_blank.
  apply strip_empty_iff. exact Hb.
Qed.

End MoreChunkerProperties.

(** * Patterns that need a digit *)

Section DigitPatterns.
Import Re.

Lemma isdigit_case (x : ascii) :
  Py.isdigit x = false ->
  Py.isdigit (Py.lower_char x) = false /\ Py.isdigit (Py.upper_char x) = false.
Proof.
  destruct x as [[] [] [] [] [] [] [] []]; vm_compute; intros E;
    split; congruence.
Qed.

Lemma digit_item_fails (ic : bool) (x : ascii) :
  Py.isdigit x = false -> item_matches ic IDigit x = false.
Proof.
  intros E. destruct (isdigit_case x E) as [El Eu].
  unfold item_matches. simpl. rewrite E, El, Eu. destruct ic; reflexivity.
Qed.

(** A continuation that fails on every digit-free rest is only ever
    reached on such rests, so the whole run fails. *)
Lemma run_digit_free (ic : bool) (r : regex) :
  forall pos s g (k : cont),
    has_digit s = false ->
    (forall p' s' g', has_digit s' = false -> k p' s' g' = None) ->
    run ic r pos s g k = None.
Proof.
  induction r as [ |c| |neg items|r1 IH1 r2 IH2|r1 IH1 r2 IH2|greedy r1 IH1
                  |n r1 IH1| | ]; intros pos s g k Hs Hk; simpl.
  - apply Hk. exact Hs.
  - destruct s as [|x s']; [reflexivity|]. simpl in Hs.
    apply orb_false_iff in Hs. destruct Hs as [_ Hs].
    destruct (item_matches ic (IChar c) x); [apply Hk; exact Hs|reflexivity].
  - destruct s as [|x s']; [reflexivity|]. simpl in Hs.
    apply orb_false_iff in Hs. destruct Hs as [_ Hs].
    destruct (Ascii.eqb x newline); [reflexivity|apply Hk; exact Hs].
  - destruct s as [|x s']; [reflexivity|]. simpl in Hs.
    apply orb_false_iff in Hs. destruct Hs as [_ Hs].
    destruct (xorb neg _); [apply Hk; exact Hs|reflexivity].
  - apply IH1; [exact Hs|]. intros p' s' g' Hs'. apply IH2; assumption.
  - rewrite IH1 by assumption. apply IH2; assumption.
  - match goal with |- context [?L (String.length s)] =>
      assert (HL : forall fuel pos s g, has_digit s = false ->
                                        L fuel pos s g = None) end.
    { induction fuel as [|f IHf]; intros pos' s0 g0 Hs0.
      - apply Hk. exact Hs0.
      - rewrite IH1; [| exact Hs0 |].
        + rewrite Hk by exact Hs0. destruct greedy; reflexivity.
        + intros p' s' g' Hs'. destruct (pos' <? p')%nat; [|reflexivity].
          apply IHf. exact Hs'. }
    rewrite IH1; [| exact Hs |].
    + rewrite Hk by exact Hs. destruct greedy; reflexivity.
    + intros p' s' g' Hs'. destruct (pos <? p')%nat; [|reflexivity].
      apply HL. exact Hs'.
  - apply IH1; [exact Hs|]. intros p' s' g' Hs'. apply Hk. exact Hs'.
  - destruct (pos =? 0)%nat; [apply Hk; exact Hs|reflexivity].
  - destruct s as [|x [|y s']]; try reflexivity; [apply Hk; exact Hs|].
    destruct (Ascii.eqb x newline); [apply Hk; exact Hs|reflexivity].
Qed.

Lemma run_needs_digit (ic : bool) (r : regex) :
  needs_digit r = true ->
  forall pos s g (k : cont), has_digit s = false -> run ic r pos s g k = None.
Proof.
  induction r as [ |c| |neg items|r1 IH1 r2 IH2|r1 IH1 r2 IH2|greedy r1 IH1
                  |n r1 IH1| | ]; intros Hn pos s g k Hs; simpl in Hn;
    try discriminate; simpl.
  - destruct neg; [discriminate|].
    destruct s as [|x s']; [reflexivity|]. simpl in Hs.
    apply orb_false_iff in Hs. destruct Hs as [Hx _].
    assert (E : existsb (fun it => item_matches ic it x) items = false).
    { clear -Hn Hx. induction items as [|it items IH]; [reflexivity|].
      simpl in *. apply andb_true_iff in Hn. destruct Hn as [Hit Hn].
      destruct it; try discriminate.
      rewrite (digit_item_fails ic x Hx). simpl. apply IH. exact Hn. }
    rewrite E. reflexivity.
  - apply orb_true_iff in Hn. destruct Hn as [Hn|Hn].
    + apply IH1; assumption.
    + apply run_digit_free; [exact Hs|].
      intros p' s' g' Hs'. apply IH2; assumption.
  - apply andb_true_iff in Hn. destruct Hn as [Hn1 Hn2].
    rewrite IH1 by assumption. apply IH2; assumption.
  - apply IH1; assumption.
Qed.

Lemma search_needs_digit (ic : bool) (r : regex) (s : string) :
  needs_digit r = true -> has_digit s = false -> search ic r s = None.
Proof.
  intros Hn. unfold search. generalize 0%nat.
  induction s as [|x s IH]; intros pos Hs; simpl; unfold match_at.
  - rewrite run_needs_digit by assumption. reflexivity.
  - rewrite run_needs_digit by assumption.
    simpl in Hs. apply orb_false_iff in Hs. apply IH. apply Hs.
Qed.

End DigitPatterns.

Section ExpansionProperties.

(** A text without a decimal digit matches none of the three label
    patterns: [_extract_clause_info] leaves title and number empty. *)
Lemma extract_clause_info_digit_free (text : string) :
  has_digit text = false ->
  _extract_clause_info text = {| title := ""; number := "" |}.
Proof.
  intros Hd. unfold _extract_clause_info. apply extract_loop_unmatched.
  repeat constructor; apply search_needs_digit; try exact Hd; reflexivity.
Qed.

Lemma has_digit_app (a b : string) :
  has_digit (a ++ b) = has_digit a || has_digit b.
Proof.
  induction a as [|c a IH]; simpl; [reflexivity|].
  rewrite IH. apply orb_assoc.
Qed.

Lemma scan_digit_free (s : string) :
  has_digit s = false ->
  forall m, has_digit (fst (scan m s)) = false /\
            Forall (fun x => has_digit x = false) (snd (scan m s)).
Proof.
  induction s as [|c s IH]; intros Hd m; simpl.
  - split; [reflexivity|constructor].
  - simpl in Hd. apply orb_false_iff in Hd. destruct Hd as [Hc Hs].
    specialize (IH Hs).
    destruct m as [e|].
    + destruct (e && Py.isspace c).
      * destruct (IH InGap) as [Hh Ht]. destruct (scan InGap s) as [h t].
        simpl in *. split; [reflexivity|]. constructor; assumption.
      * destruct (IH (InText (is_end c))) as [Hh Ht].
        destruct (scan (InText (is_end c)) s) as [h t].
        simpl in *. rewrite Hc, Hh. split; [reflexivity|exact Ht].
    + destruct (Py.isspace c).
      * apply IH.
      * destruct (IH (InText (is_end c))) as [Hh Ht].
        destruct (scan (InText (is_end c)) s) as [h t].
        simpl in *. rewrite Hc, Hh. split; [reflexivity|exact Ht].
Qed.

Lemma make_chunk_unlabelled (current_chunk : string) (page_num : nat)
    (filename : string) (n : nat) :
  has_digit current_chunk = false ->
  unlabelled (make_chunk current_chunk page_num filename n).
Proof.
  intros Hd. unfold unlabelled, make_chunk.
  rewrite (extract_clause_info_digit_free _ Hd). split; reflexivity.
Qed.

Lemma chunk_loop_unlabelled (self : DocumentProcessor.t) (page_num : nat)
    (filename : string) (sentences : list string) :
  forall chunks current_chunk,
    Forall (fun x => has_digit x = false) sentences ->
    has_digit current_chunk = false ->
    Forall unlabelled chunks ->
    Forall unlabelled
      (fst (chunk_loop self page_num filename sentences chunks current_chunk)) /\
    has_digit
      (snd (chunk_loop self page_num filename sentences chunks current_chunk))
    = false.
Proof.
  induction sentences as [|s rest IH]; intros chunks cur Hall Hcur Hch;
    simpl; [auto|].
  inversion Hall as [|? ? Hs Hrest]; subst.
  destruct (_ && Py.truthy cur).
  - apply IH; [exact Hrest| |].
    + rewrite has_digit_app, Hs. reflexivity.
    + apply Forall_app. split; [exact Hch|]. constructor; [|constructor].
      apply make_chunk_unlabelled. exact Hcur.
  - apply IH; [exact Hrest| |exact Hch].
    rewrite !has_digit_app, Hcur, Hs. reflexivity.
Qed.

(** X16.  An ASCII page text without a decimal digit matches none of the
    three label patterns, so none of its chunks gets a clause title or a
    clause number.  (The text is taken to be ASCII because Python's [\d]
    also matches the decimal digits of other scripts.) *)
Theorem digit_free_page_unlabelled (self : DocumentProcessor.t) (text : string)
    (page_num : nat) (filename : string) (c : Chunk) :
  is_ascii text = true ->
  has_digit text = false ->
  c ∈ _create_chunks self text page_num filename ->
  clause_title (metadata c) = "" /\ clause_number (metadata c) = "".
Proof.
  intros _ Hd. unfold _create_chunks, split_sentences.
  destruct (scan_digit_free text Hd (InText false)) as [Hh Ht].
  destruct (scan (InText false) text) as [h t]. simpl in Hh, Ht.
  destruct (chunk_loop_unlabelled self page_num filename (h :: t) [] ""
              ltac:(constructor; assumption) eq_refl ltac:(constructor))
    as [Hch Hcur].
  destruct (chunk_loop self page_num filename (h :: t) [] "") as [chunks cur].
  simpl in Hch, Hcur. rewrite Forall_forall in Hch.
  destruct (Py.truthy (Py.strip cur)); intros Hc.
  - apply elem_of_app in Hc. destruct Hc as [Hc|Hc]; [apply Hch; exact Hc|].
    apply list_elem_of_singleton in Hc. subst c.
    apply make_chunk_unlabelled. exact Hcur.
  - apply Hch. exact Hc.
Qed.

Lemma parsed_terms_list_vocabulary (query : string) (t : string) :
  In t (parsed_terms_list query) -> In t expansion_vocabulary.
Proof.
  unfold parsed_terms_list, expansion_vocabulary. intros Hin.
  set (M := List.filter _ medical_terms) in Hin.
  set (B := List.filter _ body_parts) in Hin.
  set (L := map _ _) in Hin.
  assert (Hmed : In t M -> In t medical_terms)
    by (intros Hq; apply filter_In in Hq; apply Hq).
  assert (Hbody : In t B -> In t body_parts)
    by (intros Hq; apply filter_In in Hq; apply Hq).
  assert (Hloc : In t L -> t = "location")
    by (intros Hl; apply in_map_iff in Hl; destruct Hl as (x & <- & _); reflexivity).
  clearbody M B L.
  assert (Hgoal : t = "age" \/ In t medical_terms \/ In t body_parts \/
                  t = "waiting period" \/ t = "policy duration" \/ t = "location").
  { destruct (Re.found (Re.search true age_re query));
      destruct (Re.found (Re.search true duration_re query));
      rewrite ?in_app_iff in Hin; simpl in Hin;
      intuition (eauto 6). }
  clear Hin Hmed Hbody Hloc.
  change (In t ("age" :: (medical_terms ++ body_parts
                       ++ ["waiting period"; "policy duration"; "location"]))%list).
  destruct Hgoal as [ -> | [ ? | [ ? | [ -> | [ -> | -> ] ] ] ] ];
    [left; reflexivity|right; rewrite !in_app_iff; simpl; auto 8..].
Qed.

(** X17.  Query expansion returns distinct terms, each from the fixed
    vocabulary of sixteen: "age", the five procedures, the seven body
    parts, "waiting period", "policy duration" and "location". *)
Theorem parse_structured_query_vocabulary (query : string) :
  NoDup (_parse_structured_query query) /\
  (forall t, t ∈ _parse_structured_query query -> t ∈ expansion_vocabulary) /\
  (length (_parse_structured_query query) <= 16)%nat.
Proof.
  assert (Hsub : forall t, t ∈ _parse_structured_query query ->
                           t ∈ expansion_vocabulary).
  { intros t Ht. unfold _parse_structured_query in Ht.
    apply elem_of_elements, elem_of_list_to_set in Ht.
    apply list_elem_of_In, (parsed_terms_list_vocabulary query).
    apply list_elem_of_In. exact Ht. }
  assert (Hnd : NoDup (_parse_structured_query query))
    by (unfold _parse_structured_query; apply NoDup_elements).
  split; [exact Hnd|]. split; [exact Hsub|].
  change 16%nat with (length expansion_vocabulary).
  apply submseteq_length, NoDup_submseteq; assumption.
Qed.

(** X18.  An ASCII query without a decimal digit gets none of the terms
    that the age and duration patterns add.  (The query is taken to be
    ASCII because Python's [\d] also matches the decimal digits of other
    scripts.) *)
Theorem parse_structured_query_needs_digit (query : string) (t : string) :
  is_ascii query = true ->
  has_digit query = false ->
  t ∈ _parse_structured_query query ->
  t <> "age" /\ t <> "waiting period" /\ t <> "policy duration".
Proof.
  intros _ Hd Ht. unfold _parse_structured_query in Ht.
  apply elem_of_elements, elem_of_list_to_set, list_elem_of_In in Ht.
  unfold parsed_terms_list in Ht.
  rewrite !search_needs_digit in Ht by (try exact Hd; reflexivity).
  cbn [Re.found] in Ht.
  set (M := List.filter _ medical_terms) in Ht.
  set (B := List.filter _ body_parts) in Ht.
  set (L := map _ _) in Ht.
  assert (Hmed : In t M -> In t medical_terms)
    by (intros Hq; apply filter_In in Hq; apply Hq).
  assert (Hbody : In t B -> In t body_parts)
    by (intros Hq; apply filter_In in Hq; apply Hq).
  assert (Hloc : In t L -> t = "location")
    by (intros Hl; apply in_map_iff in Hl; destruct Hl as (x & <- & _); reflexivity).
  clearbody M B L.
  assert (Hother : Forall (fun u => u <> "age" /\ u <> "waiting period" /\
                                    u <> "policy duration")
                     (medical_terms ++ body_parts ++ ["location"])%list)
    by (repeat constructor; discriminate).
  rewrite Forall_forall in Hother. apply Hother.
  rewrite ?in_app_iff in Ht. simpl in Ht.
  apply list_elem_of_In. rewrite !in_app_iff. simpl.
  intuition auto.
Qed.

End ExpansionProperties.

(** * Cleaning of a page text *)

Section Substitution.
Import Re.
#[local] Arguments String.append !s1 s2 : simpl nomatch.

Lemma all_chars_app (P : ascii -> bool) (a b : string) :
  all_chars P (a ++ b) = all_chars P a && all_chars P b.
Proof.
  induction a as [|c a IH]; simpl; [reflexivity|].
  rewrite IH. apply andb_assoc.
Qed.

Lemma all_chars_lstrip (P : ascii -> bool) (s : string) :
  all_chars P s = true -> all_chars P (Py.lstrip s) = true.
Proof.
  induction s as [|c s IH]; simpl; [auto|].
  intros H. destruct (Py.isspace c); [|exact H].
  apply andb_true_iff in H. apply IH, H.
Qed.

Lemma all_chars_rstrip (P : ascii -> bool) (s : string) :
  all_chars P s = true -> all_chars P (Py.rstrip s) = true.
Proof.
  induction s as [|c s IH]; simpl; [auto|].
  intros H. apply andb_true_iff in H. destruct H as [Hc Hs].
  specialize (IH Hs). destruct (Py.rstrip s) as [|x r].
  - destruct (Py.isspace c); simpl; [reflexivity|]. rewrite Hc. reflexivity.
  - simpl in *. rewrite Hc. exact IH.
Qed.

Lemma all_chars_strip (P : ascii -> bool) (s : string) :
  all_chars P s = true -> all_chars P (Py.strip s) = true.
Proof.
  intros H. apply all_chars_lstrip, all_chars_rstrip, H.
Qed.

(** Substitution copies characters of the text or of the replacement. *)
Lemma all_chars_sub_go (P : ascii -> bool) (at_ : matcher) (repl : string) :
  all_chars P repl = true ->
  forall s pos prev skip,
    all_chars P s = true ->
    all_chars P (sub_go at_ repl pos prev skip s) = true.
Proof.
  intros Hr. induction s as [|c s IH]; intros pos prev skip Hs; simpl;
    [reflexivity|].
  simpl in Hs. apply andb_true_iff in Hs. destruct Hs as [Hc Hs].
  destruct skip as [|n]; [|apply IH; exact Hs].
  destruct (at_ pos prev (String c s)) as [e|].
  - destruct (pos <? e)%nat.
    + rewrite all_chars_app, Hr. apply IH. exact Hs.
    + simpl. rewrite Hc. apply IH. exact Hs.
  - simpl. rewrite Hc. apply IH. exact Hs.
Qed.

Lemma all_chars_replace_go (P : ascii -> bool) (old new : string) :
  all_chars P new = true ->
  forall s skip,
    all_chars P s = true ->
    all_chars P (Py.replace_go old new skip s) = true.
Proof.
  intros Hn. induction s as [|c s IH]; intros skip Hs; [reflexivity|].
  cbn [Py.replace_go].
  simpl in Hs. apply andb_true_iff in Hs. destruct Hs as [Hc Hs].
  destruct skip as [|n]; [|apply IH; exact Hs].
  destruct (String.prefix old (String c s)).
  - rewrite all_chars_app, Hn. apply IH. exact Hs.
  - cbn [all_chars]. rewrite Hc. apply IH. exact Hs.
Qed.

(** A run passes to its continuation positions from its own on only, and
    returns what the continuation returned. *)
Lemma run_positions (ic : bool) (Q : nat * caps -> Prop) (r : regex) :
  forall pos s g (k : cont) x,
    (forall p s' g' y, (pos <= p)%nat -> k p s' g' = Some y -> Q y) ->
    run ic r pos s g k = Some x -> Q x.
Proof.
  induction r as [ |c| |neg items|r1 IH1 r2 IH2|r1 IH1 r2 IH2|greedy r1 IH1
                  |n r1 IH1| | ]; intros pos s g k x Hk; simpl.
  - apply Hk. lia.
  - destruct s as [|a s']; [discriminate|].
    destruct (item_matches ic (IChar c) a); [|discriminate]. apply Hk. lia.
  - destruct s as [|a s']; [discriminate|].
    destruct (Ascii.eqb a newline); [discriminate|]. apply Hk. lia.
  - destruct s as [|a s']; [discriminate|].
    destruct (xorb neg _); [|discriminate]. apply Hk. lia.
  - apply IH1. intros p s' g' y Hp. apply IH2.
    intros p' s'' g'' z Hp' Hz. apply (Hk p' s'' g'' z); [lia|exact Hz].
  - destruct (run ic r1 pos s g k) eqn:E1.
    + intros Hx. inversion Hx; subst. eapply IH1; eauto.
    + apply IH2. exact Hk.
  - match goal with |- context [?L (String.length s)] =>
      assert (HL : forall fuel pos' s0 g0 y, (pos <= pos')%nat ->
                     L fuel pos' s0 g0 = Some y -> Q y);
      [|change (L (S (String.length s)) pos s g = Some x -> Q x)] end.
    { induction fuel as [|f IHf]; intros pos' s0 g0 y Hp.
      - apply (Hk pos' s0 g0 y Hp).
      - simpl. destruct greedy.
        + destruct (run ic r1 pos' s0 g0 _) eqn:E1.
          * intros Hy. inversion Hy; subst.
            eapply IH1; [|exact E1].
            intros p s' g' z Hp'. cbv beta.
            destruct (pos' <? p)%nat; [|discriminate].
            apply IHf. lia.
          * apply Hk. exact Hp.
        + destruct (k pos' s0 g0) eqn:Ek.
          * intros Hy. inversion Hy; subst. eapply Hk; eauto.
          * apply IH1.
            intros p s' g' z Hp'. destruct (pos' <? p)%nat; [|discriminate].
            apply IHf. lia. }
    apply HL. lia.
  - apply IH1. intros p s' g' y Hp. apply Hk. exact Hp.
  - destruct (pos =? 0)%nat; [|discriminate]. apply Hk. lia.
  - destruct s as [|a [|b s']]; try discriminate; [apply Hk; lia|].
    destruct (Ascii.eqb a newline); [apply Hk; lia|discriminate].
Qed.

Lemma run_cat (ic : bool) (r1 r2 : regex) pos s g (k : cont) :
  run ic (Cat r1 r2) pos s g k
  = run ic r1 pos s g (fun p' s' g' => run ic r2 p' s' g' k).
Proof. reflexivity. Qed.

Lemma run_set (ic : bool) (neg : bool) (items : list item) pos x s g (k : cont) :
  run ic (Set_ neg items) pos (String x s) g k
  = if xorb neg (existsb (fun it => item_matches ic it x) items)
    then k (S pos) s g else None.
Proof. reflexivity. Qed.

Lemma run_lit (ic : bool) (c : ascii) pos x s g (k : cont) :
  run ic (Lit c) pos (String x s) g k
  = if item_matches ic (IChar c) x then k (S pos) s g else None.
Proof. reflexivity. Qed.

(** A greedy star in front of a continuation that always accepts never
    fails. *)
Lemma run_star_greedy_total (ic : bool) (r : regex) pos s g (k : cont) :
  (forall p s' g', k p s' g' <> None) ->
  run ic (Star true r) pos s g k <> None.
Proof.
  intros Hk. simpl.
  match goal with |- match ?R with _ => _ end <> _ => destruct R end;
    [discriminate|apply Hk].
Qed.

Lemma space_item (c : ascii) :
  xorb false (existsb (fun it => item_matches false it c) [ISpace])
  = Py.isspace c.
Proof.
  unfold item_matches. simpl. rewrite !orb_false_r. reflexivity.
Qed.

(** [\s+] at a position: it matches when the character there is
    whitespace, and then to beyond it. *)
Lemma plus_space_at (pos : nat) (prev : option ascii) (c : ascii) (s : string) :
  if Py.isspace c
  then exists e, plain false (Plus space) pos prev (String c s) = Some e /\
                 (pos < e)%nat
  else plain false (Plus space) pos prev (String c s) = None.
Proof.
  unfold plain, match_at, Plus, space.
  rewrite run_cat, run_set, space_item.
  destruct (Py.isspace c); [|reflexivity].
  destruct (run false (Star true (Set_ false [ISpace])) (S pos) s []
              (fun p _ g => Some (p, g))) as [[e g]|] eqn:E.
  - exists e. split; [reflexivity|].
    apply (run_positions false (fun y => (pos < fst y)%nat)) in E; [exact E|].
    intros p s' g' y Hp Hy. inversion Hy; subst. simpl. lia.
  - exfalso. revert E. apply run_star_greedy_total. discriminate.
Qed.

(** Collapsing whitespace leaves the blank as the only whitespace. *)
Lemma sub_collapse_blank_or_ink (s : string) :
  forall pos prev skip,
    all_chars blank_or_ink
      (sub_go (plain false (Plus space)) " " pos prev skip s) = true.
Proof.
  induction s as [|c s IH]; intros pos prev skip; [reflexivity|].
  cbn [sub_go]. destruct skip as [|n]; [|apply IH].
  pose proof (plus_space_at pos prev c s) as Hat.
  destruct (Py.isspace c) eqn:Hc.
  - destruct Hat as (e & -> & He).
    apply Nat.ltb_lt in He. rewrite He.
    rewrite all_chars_app, IH. reflexivity.
  - rewrite Hat. cbn [all_chars]. rewrite IH.
    unfold blank_or_ink. rewrite Hc. reflexivity.
Qed.

Lemma blank_or_ink_clean_text (text : string) :
  all_chars blank_or_ink (_clean_text text) = true.
Proof.
  unfold _clean_text.
  apply all_chars_strip.
  repeat (apply all_chars_replace_go; [reflexivity|]).
  unfold sub.
  do 2 (apply all_chars_sub_go; [reflexivity|]).
  apply sub_collapse_blank_or_ink.
Qed.

End Substitution.

Section BlankPages.
Import Re.
#[local] Arguments String.append !s1 s2 : simpl nomatch.

Lemma run_star (ic : bool) (greedy : bool) (r : regex) pos s g (k : cont) :
  run ic (Star greedy r) pos s g k
  = star_loop (run ic r) greedy k (S (String.length s)) pos s g.
Proof. reflexivity. Qed.

(** A greedy [\s*] takes a blank rest whole. *)
Lemma star_space_blank (s : string) (pos : nat) (g : caps) :
  nonblank s = false ->
  run false (Star true space) pos s g (fun p _ g' => Some (p, g'))
  = Some (pos + String.length s, g)%nat.
Proof.
  intros Hb. rewrite run_star.
  assert (HL : forall fuel s0 pos0,
             nonblank s0 = false -> (String.length s0 <= fuel)%nat ->
             star_loop (run false space) true (fun p _ g' => Some (p, g'))
               fuel pos0 s0 g
             = Some (pos0 + String.length s0, g)%nat).
  { induction fuel as [|f IHf]; intros s0 pos0 Hs0 Hlen.
    - destruct s0 as [|c s0]; [|simpl in Hlen; lia].
      simpl. rewrite Nat.add_0_r. reflexivity.
    - destruct s0 as [|c s0].
      + simpl. rewrite Nat.add_0_r. reflexivity.
      + simpl in Hs0. apply orb_false_iff in Hs0. destruct Hs0 as [Hc Hs0].
        apply negb_false_iff in Hc.
        cbn [star_loop]. unfold space at 1. rewrite run_set, space_item, Hc.
        assert (Hlt : (pos0 <? S pos0)%nat = true) by (apply Nat.ltb_lt; lia).
        rewrite Hlt. rewrite IHf by (simpl in Hlen; auto with arith).
        simpl. rewrite Nat.add_succ_r. reflexivity. }
  apply HL; [exact Hb|auto with arith].
Qed.

Lemma sub_go_skip_all (at_ : matcher) (repl : string) (s : string) :
  forall pos prev skip,
    (String.length s <= skip)%nat -> sub_go at_ repl pos prev skip s = "".
Proof.
  induction s as [|c s IH]; intros pos prev skip Hlen; [reflexivity|].
  simpl in Hlen. destruct skip as [|n]; [lia|].
  cbn [sub_go]. apply IH. lia.
Qed.

(** Collapsing the whitespace of a blank text leaves one blank, or
    nothing if there was nothing. *)
Lemma sub_collapse_blank (s : string) :
  nonblank s = false ->
  sub (plain false (Plus space)) " " s = match s with "" => "" | _ => " " end.
Proof.
  destruct s as [|c s]; [reflexivity|]. intros Hb.
  unfold sub. cbn [sub_go].
  simpl in Hb. apply orb_false_iff in Hb. destruct Hb as [Hc Hs].
  apply negb_false_iff in Hc.
  assert (E : plain false (Plus space) 0 None (String c s)
              = Some (1 + String.length s)%nat).
  { unfold plain, match_at, Plus, space.
    rewrite run_cat, run_set, space_item, Hc.
    fold space. rewrite (star_space_blank s 1 [] Hs). reflexivity. }
  rewrite E. cbn [Nat.ltb Nat.leb Nat.add].
  rewrite sub_go_skip_all by lia. reflexivity.
Qed.

(** The cleaned text of a blank page is empty. *)
Lemma clean_text_blank (raw : string) :
  nonblank raw = false -> _clean_text raw = "".
Proof.
  intros Hb. unfold _clean_text. rewrite (sub_collapse_blank raw Hb).
  destruct raw; vm_compute; reflexivity.
Qed.

End BlankPages.

(** * The pages of a file *)

Section Pages.
Variable self : DocumentProcessor.t.
Variable filename : string.

(** When every page gives its text, the loop returns the chunks of the
    pages in turn. *)
Lemma pages_loop_returns (raws : list string) :
  forall page_num chunks,
    pages_loop self filename (map Ret raws) page_num chunks
    = Ret (chunks ++ chunks_of_pages self filename page_num raws)%list.
Proof.
  induction raws as [|raw rest IH]; intros n chunks; simpl.
  - rewrite app_nil_r. reflexivity.
  - destruct (Py.truthy (Py.strip (_clean_text raw))) eqn:Et; simpl.
    + rewrite IH, <- app_assoc. reflexivity.
    + rewrite (create_chunks_blank self (_clean_text raw)).
      * apply IH.
      * apply strip_empty_iff.
        destruct (Py.strip (_clean_text raw)); [reflexivity|discriminate].
Qed.

Lemma pages_loop_raises (raws : list string) (e : exn)
    (rest : list (outcome string)) :
  forall page_num chunks,
    pages_loop self filename (map Ret raws ++ Raise e :: rest) page_num chunks
    = Raise e.
Proof.
  induction raws as [|raw raws IH]; intros n chunks; simpl; [reflexivity|].
  destruct (negb _); apply IH.
Qed.

Lemma doc_cases (doc : list (outcome string)) :
  (exists raws, doc = map Ret raws) \/
  (exists raws e rest, doc = (map Ret raws ++ Raise e :: rest)%list).
Proof.
  induction doc as [|[raw|e] doc IH].
  - left. exists []. reflexivity.
  - destruct IH as [(raws & ->)|(raws & e & rest & ->)].
    + left. exists (raw :: raws). reflexivity.
    + right. exists (raw :: raws), e, rest. reflexivity.
  - right. exists [], e, doc. reflexivity.
Qed.

Lemma process_pdf_ret (doc : Document) (chunks : list Chunk) :
  process_pdf self (Ret doc) filename = Ret chunks ->
  exists raws, doc = map Ret raws /\
               chunks = chunks_of_pages self filename 0 raws.
Proof.
  unfold process_pdf.
  destruct (doc_cases doc) as [(raws & ->)|(raws & e & rest & ->)].
  - rewrite pages_loop_returns. intros E. inversion E. eauto.
  - rewrite pages_loop_raises. discriminate.
Qed.

(** A chunk belongs to the chunks of the pages exactly when it is a chunk
    of the cleaned text of one of them, made under the number of that
    page. *)
Lemma chunks_of_pages_elem (raws : list string) :
  forall page_num c,
    c ∈ chunks_of_pages self filename page_num raws <->
    exists i raw,
      raws !! i = Some raw /\
      c ∈ _create_chunks self (_clean_text raw) (page_num + i + 1) filename.
Proof.
  induction raws as [|raw rest IH]; intros n c; simpl.
  - split; [intros Hc; inversion Hc|intros (i & r & Hi & _); discriminate].
  - rewrite elem_of_app, IH. split.
    + intros [Hc|(i & r & Hi & Hc)].
      * exists 0%nat, raw. rewrite Nat.add_0_r. auto.
      * exists (S i), r. split; [exact Hi|].
        replace (n + S i + 1)%nat with (S n + i + 1)%nat by lia. exact Hc.
    + intros ([|i] & r & Hi & Hc).
      * left. simpl in Hi. inversion Hi; subst.
        rewrite Nat.add_0_r in Hc. exact Hc.
      * right. exists i, r. split; [exact Hi|].
        replace (S n + i + 1)%nat with (n + S i + 1)%nat by lia. exact Hc.
Qed.

Lemma lookup_map_Ret (raws : list string) (i : nat) (raw : string) :
  map Ret raws !! i = Some (Ret raw) <-> raws !! i = Some raw.
Proof.
  revert i. induction raws as [|r raws IH]; intros [|i]; simpl;
    try (split; discriminate).
  - split; intros E; inversion E; reflexivity.
  - apply IH.
Qed.

Lemma create_chunks_page (text : string) (page_num : nat) (c : Chunk) :
  c ∈ _create_chunks self text page_num filename ->
  page (metadata c) = page_num /\ source (metadata c) = filename.
Proof.
  destruct (create_chunks_numbered self text page_num filename) as [_ Hall].
  rewrite Forall_forall in Hall. apply Hall.
Qed.

(** Within a page the chunks come in the order of their numbers. *)
Lemma numbered_sorted (page_num : nat) (chunks : list Chunk) :
  forall a,
    map (fun c => chunk_id (metadata c)) chunks = seq a (length chunks) ->
    Forall (fun c => page (metadata c) = page_num) chunks ->
    StronglySorted chunk_before chunks /\
    Forall (fun c => (a <= chunk_id (metadata c))%nat) chunks.
Proof.
  induction chunks as [|c chunks IH]; intros a Hid Hpage; simpl in *.
  - split; constructor.
  - inversion Hid as [[Hc Hrest]]. inversion Hpage as [|? ? Hpc Hprest]; subst.
    destruct (IH (S (chunk_id (metadata c))) Hrest Hprest) as [Hs Hge].
    split.
    + constructor; [exact Hs|].
      rewrite Forall_forall in Hge, Hprest. apply Forall_forall.
      intros c' Hc'. right. split.
      * symmetry. apply Hprest. exact Hc'.
      * apply Hge. exact Hc'.
    + constructor; [lia|].
      eapply Forall_impl; [exact Hge|]. simpl. intros c' Hc'. lia.
Qed.

Lemma chunks_of_pages_sorted (raws : list string) :
  forall page_num,
    StronglySorted chunk_before (chunks_of_pages self filename page_num raws).
Proof.
  induction raws as [|raw rest IH]; intros n; simpl; [constructor|].
  apply StronglySorted_app_2.
  - intros c1 c2 H1 H2. left.
    apply create_chunks_page in H1. destruct H1 as [-> _].
    apply chunks_of_pages_elem in H2. destruct H2 as (i & r & _ & H2).
    apply create_chunks_page in H2. destruct H2 as [-> _]. lia.
  - destruct (create_chunks_numbered self (_clean_text raw) (n + 1) filename)
      as [Hid Hall].
    apply (numbered_sorted (n + 1) _ 0 Hid).
    eapply Forall_impl; [exact Hall|]. simpl. intros c' Hc'. apply Hc'.
  - apply IH.
Qed.

(** X23.  When [process_pdf] returns, its chunks are exactly the chunks
    of the cleaned page texts: a chunk is in the result if and only if
    it is a chunk of the cleaned text of some page, made under the
    1-based number of that page; it then carries that number and the
    file name. *)
Theorem process_pdf_chunks_of_pages (doc : Document) (chunks : list Chunk)
    (c : Chunk) :
  process_pdf self (Ret doc) filename = Ret chunks ->
  (c ∈ chunks <->
   exists i raw,
     doc !! i = Some (Ret raw) /\
     page (metadata c) = (i + 1)%nat /\
     source (metadata c) = filename /\
     c ∈ _create_chunks self (_clean_text raw) (i + 1) filename).
Proof.
  intros Hret. apply process_pdf_ret in Hret.
  destruct Hret as (raws & -> & ->).
  rewrite chunks_of_pages_elem. simpl. split.
  - intros (i & raw & Hi & Hc). exists i, raw.
    destruct (create_chunks_page _ _ _ Hc) as [Hp Hs].
    apply lookup_map_Ret in Hi. auto.
  - intros (i & raw & Hi & _ & _ & Hc). exists i, raw.
    apply lookup_map_Ret in Hi. auto.
Qed.

Lemma strongly_sorted_lookup {A} (R : relation A) (l : list A) :
  StronglySorted R l ->
  forall i j x y,
    (i < j)%nat -> l !! i = Some x -> l !! j = Some y -> R x y.
Proof.
  induction 1 as [|a l Hs IH Hall]; intros i j x y Hij Hi Hj;
    [destruct i; discriminate|].
  destruct j as [|j]; [lia|]. simpl in Hj. destruct i as [|i].
  - simpl in Hi. inversion Hi; subst x.
    rewrite Forall_forall in Hall. apply Hall.
    apply list_elem_of_lookup. eauto.
  - simpl in Hi. apply (IH i j); [lia|assumption..].
Qed.

(** X24.  The chunks of a file come out in the order of their pages and,
    within a page, of their numbers: any chunk precedes every later one
    in the order on (page, chunk_id).  That pair is therefore a key: two
    positions of the result never share it. *)
Theorem process_pdf_ordered (doc : Document) (chunks : list Chunk) :
  process_pdf self (Ret doc) filename = Ret chunks ->
  StronglySorted chunk_before chunks /\
  forall i j ci cj,
    chunks !! i = Some ci -> chunks !! j = Some cj ->
    page (metadata ci) = page (metadata cj) ->
    chunk_id (metadata ci) = chunk_id (metadata cj) ->
    i = j.
Proof.
  intros Hret. apply process_pdf_ret in Hret.
  destruct Hret as (raws & _ & ->).
  pose proof (chunks_of_pages_sorted raws 0) as Hs.
  split; [exact Hs|].
  intros i j ci cj Hi Hj Hp Hid.
  destruct (Nat.lt_trichotomy i j) as [Hlt|[Heq|Hgt]]; [|exact Heq|].
  - destruct (strongly_sorted_lookup _ _ Hs i j ci cj Hlt Hi Hj) as [Hb|[_ Hb]];
      lia.
  - destruct (strongly_sorted_lookup _ _ Hs j i cj ci Hgt Hj Hi) as [Hb|[_ Hb]];
      lia.
Qed.

(** X25.  [process_pdf] raises exactly when opening the file raises or
    some page fails to give its text, and it raises the exception of the
    opening or of the first such page.  The chunks of the pages before
    it are lost with it. *)
Theorem process_pdf_raises_iff (opened : outcome Document) (e : exn) :
  process_pdf self opened filename = Raise e <->
  opened = Raise e \/
  exists raws rest, opened = Ret (map Ret raws ++ Raise e :: rest)%list.
Proof.
  split.
  - destruct opened as [doc|e']; simpl.
    + destruct (doc_cases doc) as [(raws & ->)|(raws & e' & rest & ->)].
      * rewrite pages_loop_returns. discriminate.
      * rewrite pages_loop_raises. intros E. inversion E; subst. eauto.
    + intros E. inversion E. auto.
  - intros [->|(raws & rest & ->)]; simpl; [reflexivity|].
    apply pages_loop_raises.
Qed.

(** X26.  A page whose text is empty or all whitespace gives no chunk:
    no chunk of the result carries its number. *)
Theorem blank_page_gives_no_chunk (doc : Document) (chunks : list Chunk)
    (i : nat) (raw : string) (c : Chunk) :
  process_pdf self (Ret doc) filename = Ret chunks ->
  doc !! i = Some (Ret raw) ->
  nonblank raw = false ->
  c ∈ chunks ->
  page (metadata c) <> (i + 1)%nat.
Proof.
  intros Hret Hi Hb Hc Hp. apply process_pdf_ret in Hret.
  destruct Hret as (raws & -> & ->).
  apply chunks_of_pages_elem in Hc. destruct Hc as (j & r & Hj & Hc).
  simpl in Hc. destruct (create_chunks_page _ _ _ Hc) as [Hpj _].
  assert (j = i) by lia. subst j.
  apply lookup_map_Ret in Hi. rewrite Hj in Hi. inversion Hi; subst r.
  rewrite (clean_text_blank raw Hb) in Hc. inversion Hc.
Qed.

End Pages.

Section CleanText.
Import Re.

(** The three patterns of [_clean_text] match no empty string, which is
    what [sub] asks of its pattern. *)
Lemma clean_text_patterns_advance (pos : nat) (prev : option ascii)
    (rest : string) (e : nat) :
  (plain false (Plus space) pos prev rest = Some e -> (pos < e)%nat) /\
  (plain false page_of_re pos prev rest = Some e -> (pos < e)%nat) /\
  (whole_line false number_line_re pos prev rest = Some e -> (pos < e)%nat).
Proof.
  assert (Hk : forall p (s' : string) (g' : caps) (y : nat * caps),
             (S pos <= p)%nat -> Some (p, g') = Some y -> (pos < fst y)%nat).
  { intros p s' g' y Hp Hy. inversion Hy; subst. simpl. lia. }
  split; [|split].
  - destruct rest as [|c s]; [discriminate|].
    pose proof (plus_space_at pos prev c s) as Hat.
    destruct (Py.isspace c).
    + destruct Hat as (e' & -> & He). intros E. inversion E; subst. exact He.
    + rewrite Hat. discriminate.
  - unfold plain, match_at, page_of_re.
    change (Seq [Str "Page "; Plus digit; Str " of "; Plus digit])
      with (Cat (Cat (Lit "P") (Str "age "))
                (Seq [Plus digit; Str " of "; Plus digit])).
    rewrite !run_cat.
    destruct rest as [|c s]; [discriminate|]. rewrite run_lit.
    destruct (item_matches false (IChar "P") c); [|discriminate].
    destruct (run false (Str "age ") (S pos) s [] _) as [[e' g']|] eqn:E;
      [|discriminate].
    intros He. inversion He; subst. simpl.
    apply (run_positions false (fun y => (pos < fst y)%nat)) in E; [exact E|].
    intros p s' g0 y Hp.
    apply (run_positions false (fun y => (pos < fst y)%nat)).
    intros p' s'' g'' z Hp' Hz. apply (Hk p' s'' g'' z); [lia|exact Hz].
  - unfold whole_line. destruct (at_line_start prev); [|discriminate].
    unfold number_line_re, Plus, digit. rewrite !run_cat.
    destruct rest as [|c s]; [discriminate|]. rewrite run_set.
    destruct (xorb false _); [|discriminate].
    destruct (run false (Star true (Set_ false [IDigit])) (S pos) s [] _)
      as [[e' g']|] eqn:E; [|discriminate].
    intros He. inversion He; subst.
    apply (run_positions false (fun y => (pos < fst y)%nat)) in E; [exact E|].
    intros p s' g0 y Hp.
    apply (run_positions false (fun y => (pos < fst y)%nat)).
    intros p' s'' g'' z Hp'. destruct (at_line_end s''); [|discriminate].
    intros Hz. apply (Hk p' s'' g'' z); [lia|exact Hz].
Qed.

Lemma reach_refl (pos : nat) (s : string) : reach pos s pos s.
Proof. exists "". split; [reflexivity|simpl; lia]. Qed.

Lemma reach_step (pos : nat) (a : ascii) (s : string) :
  reach pos (String a s) (S pos) s.
Proof. exists (String a ""). split; [reflexivity|simpl; lia]. Qed.

Lemma reach_trans (pos : nat) (s : string) p s' p' s'' :
  reach pos s p s' -> reach p s' p' s'' -> reach pos s p' s''.
Proof.
  intros (pre1 & -> & ->) (pre2 & -> & ->). exists (pre1 ++ pre2). split.
  - symmetry. apply app_assoc_s.
  - rewrite length_app_s. lia.
Qed.

(** What a run hands to its continuation is a rest of its own text, at
    the position that goes with it. *)
Lemma run_reach (ic : bool) (Q : nat * caps -> Prop) (r : regex) :
  forall pos s g (k : cont) x,
    (forall p s' g' y, reach pos s p s' -> k p s' g' = Some y -> Q y) ->
    run ic r pos s g k = Some x -> Q x.
Proof.
  induction r as [ |c| |neg items|r1 IH1 r2 IH2|r1 IH1 r2 IH2|greedy r1 IH1
                  |n r1 IH1| | ]; intros pos s g k x Hk.
  - apply Hk, reach_refl.
  - destruct s as [|a s']; [discriminate|]. rewrite run_lit.
    destruct (item_matches ic (IChar c) a); [|discriminate].
    apply Hk, reach_step.
  - destruct s as [|a s']; [discriminate|]. simpl.
    destruct (Ascii.eqb a newline); [discriminate|]. apply Hk, reach_step.
  - destruct s as [|a s']; [discriminate|]. rewrite run_set.
    destruct (xorb neg _); [|discriminate]. apply Hk, reach_step.
  - rewrite run_cat. apply IH1. intros p s' g' y Hp. apply IH2.
    intros p' s'' g'' z Hp'. apply Hk. eapply reach_trans; eassumption.
  - simpl. destruct (run ic r1 pos s g k) eqn:E1.
    + intros Hx. inversion Hx; subst. eapply IH1; eauto.
    + apply IH2. exact Hk.
  - rewrite run_star.
    assert (HL : forall fuel pos' s0 g0 y, reach pos s pos' s0 ->
                   star_loop (run ic r1) greedy k fuel pos' s0 g0 = Some y ->
                   Q y).
    { induction fuel as [|f IHf]; intros pos' s0 g0 y Hp.
      - apply (Hk pos' s0 g0 y Hp).
      - cbn [star_loop]. destruct greedy.
        + destruct (run ic r1 pos' s0 g0 _) eqn:E1.
          * intros Hy. inversion Hy; subst.
            eapply IH1; [|exact E1].
            intros p s' g' z Hp'. cbv beta.
            destruct (pos' <? p)%nat; [|discriminate].
            apply IHf. eapply reach_trans; eassumption.
          * apply Hk. exact Hp.
        + destruct (k pos' s0 g0) eqn:Ek.
          * intros Hy. inversion Hy; subst. eapply Hk; eauto.
          * apply IH1.
            intros p s' g' z Hp'. destruct (pos' <? p)%nat; [|discriminate].
            apply IHf. eapply reach_trans; eassumption. }
    apply HL, reach_refl.
  - simpl. apply IH1. intros p s' g' y Hp. apply Hk. exact Hp.
  - simpl. destruct (pos =? 0)%nat; [|discriminate]. apply Hk, reach_refl.
  - simpl. destruct s as [|a [|b s']]; try discriminate;
      [apply Hk, reach_refl|].
    destruct (Ascii.eqb a newline); [apply Hk, reach_refl|discriminate].
Qed.

Lemma all_chars_impl (P Q : ascii -> bool) (s : string) :
  (forall c, P c = true -> Q c = true) ->
  all_chars P s = true -> all_chars Q s = true.
Proof.
  intros HPQ. induction s as [|c s IH]; simpl; [auto|].
  intros H. apply andb_true_iff in H. destruct H as [Hc Hs].
  rewrite (HPQ c Hc). apply IH, Hs.
Qed.

Lemma blank_or_ink_not_newline (c : ascii) :
  blank_or_ink c = true -> not_newline c = true.
Proof.
  unfold blank_or_ink, not_newline.
  destruct (Ascii.eqb_spec c newline) as [->|]; [discriminate|reflexivity].
Qed.

(** In a text without a line break the line pattern, if it matches at
    the start, matches to the end. *)
Lemma whole_line_to_end (ic : bool) (body : regex) (s : string) (e : nat) :
  all_chars not_newline s = true ->
  whole_line ic body 0 None s = Some e -> e = String.length s.
Proof.
  intros Hs. unfold whole_line. cbn [at_line_start].
  destruct (run ic body 0 s [] _) as [[e' g']|] eqn:E; [|discriminate].
  intros He. inversion He; subst e'. clear He.
  apply (run_reach ic (fun y => fst y = String.length s)) in E; [exact E|].
  intros p s' g0 y (pre & -> & ->) Hy.
  rewrite all_chars_app in Hs. apply andb_true_iff in Hs. destruct Hs as [_ Hs'].
  destruct s' as [|c s']; simpl in Hy.
  - inversion Hy; subst. simpl. rewrite length_app_s. simpl. lia.
  - simpl in Hs'. apply andb_true_iff in Hs'. destruct Hs' as [Hc _].
    unfold not_newline in Hc. apply negb_true_iff in Hc. rewrite Hc in Hy.
    discriminate.
Qed.

(** Past the start of such a text no position begins a line. *)
Lemma sub_go_inside_line (ic : bool) (body : regex) (repl : string) (s : string) :
  forall pos c,
    not_newline c = true -> all_chars not_newline s = true ->
    sub_go (whole_line ic body) repl pos (Some c) 0 s = s.
Proof.
  induction s as [|x s IH]; intros pos c Hc Hs; [reflexivity|].
  simpl in Hs. apply andb_true_iff in Hs. destruct Hs as [Hx Hs].
  cbn [sub_go]. unfold whole_line at 1. cbn [at_line_start].
  unfold not_newline in Hc. apply negb_true_iff in Hc. rewrite Hc.
  rewrite (IH (S pos) x Hx Hs). reflexivity.
Qed.

Lemma sub_whole_line_all_or_nothing (ic : bool) (body : regex) (s : string) :
  all_chars not_newline s = true ->
  sub (whole_line ic body) "" s = s \/ sub (whole_line ic body) "" s = "".
Proof.
  intros Hs. destruct s as [|c s]; [left; reflexivity|].
  unfold sub. cbn [sub_go].
  destruct (whole_line ic body 0 None (String c s)) as [e|] eqn:E.
  - apply (whole_line_to_end ic body _ e Hs) in E. subst e. right.
    cbn [String.length Nat.ltb Nat.leb].
    rewrite sub_go_skip_all by (simpl; lia). reflexivity.
  - left. simpl in Hs. apply andb_true_iff in Hs. destruct Hs as [Hc Hs].
    rewrite (sub_go_inside_line ic body "" s 1 c Hc Hs). reflexivity.
Qed.

(** X29.  The pattern for lines that hold a number only never takes such
    a line out of a page: the line breaks are collapsed before it runs,
    so it either changes nothing or, when it matches at the start,
    empties the whole text.  [_clean_text] returns the empty string or
    what it would return without that line. *)
Theorem number_line_pattern_all_or_nothing (text : string) :
  let t := sub (plain false page_of_re) ""
             (sub (plain false (Plus space)) " " text) in
  _clean_text text = "" \/
  _clean_text text
  = Py.strip
      (Py.replace line_64_old "'"
         (Py.replace double_quote double_quote
            (Py.replace double_quote double_quote
               (Py.replace em_dash "-" t)))).
Proof.
  intros t. unfold _clean_text. fold t.
  assert (Ht : all_chars not_newline t = true).
  { apply (all_chars_impl blank_or_ink); [apply blank_or_ink_not_newline|].
    unfold t, sub. apply all_chars_sub_go; [reflexivity|].
    apply sub_collapse_blank_or_ink. }
  destruct (sub_whole_line_all_or_nothing false number_line_re t Ht) as [E|E];
    rewrite E; [right|left]; reflexivity.
Qed.

(** X22.  A cleaned page text has no whitespace at either end, and no
    whitespace character in it other than the blank: tabs and line
    breaks of the page do not survive. *)
Theorem clean_text_normalised (text : string) :
  Py.strip (_clean_text text) = _clean_text text /\
  all_chars blank_or_ink (_clean_text text) = true.
Proof.
  split; [|apply blank_or_ink_clean_text].
  unfold _clean_text. apply strip_idempotent.
Qed.

End CleanText.

(** * The upload filter *)

Section UploadFilter.
Import App.
#[local] Arguments String.append !s1 s2 : simpl nomatch.

Lemma prefix_dot (c : ascii) (s : string) :
  String.prefix "." (String c s) = Ascii.eqb c ".".
Proof.
  change (String.prefix "." (String c s))
    with (if ascii_dec "." c then String.prefix "" s else false).
  destruct (ascii_dec "." c) as [<-|Hne].
  - rewrite prefix_nil. reflexivity.
  - symmetry. apply Ascii.eqb_neq. congruence.
Qed.

Lemma contains_dot (c : ascii) (s : string) :
  Py.contains "." (String c s) = Ascii.eqb c "." || Py.contains "." s.
Proof. rewrite contains_unfold, prefix_dot. reflexivity. Qed.

(** The subscript [1] is there whenever the name has a dot. *)
Lemma rsplit1_last_none (s : string) :
  Py.rsplit1_last "." s = None <-> Py.contains "." s = false.
Proof.
  induction s as [|c s IH]; [split; reflexivity|].
  rewrite contains_dot. cbn [Py.rsplit1_last].
  destruct (Py.rsplit1_last "." s) as [t|].
  - split; [discriminate|]. intros H. apply orb_false_iff in H.
    apply IH. apply H.
  - destruct (Ascii.eqb c "."); [split; discriminate|].
    split; [|reflexivity]. intros _. apply IH. reflexivity.
Qed.

Lemma rsplit1_last_some (s t : string) :
  Py.rsplit1_last "." s = Some t <->
  exists base, s = base ++ "." ++ t /\ Py.contains "." t = false.
Proof.
  revert t. induction s as [|c s IH]; intros t.
  - split; [discriminate|]. intros ([|x base] & E & _); discriminate.
  - cbn [Py.rsplit1_last].
    destruct (Py.rsplit1_last "." s) as [t'|] eqn:Er.
    + split.
      * intros E. inversion E; subst t'.
        destruct (proj1 (IH t) eq_refl) as (base & -> & Ht).
        exists (String c base). auto.
      * intros (base & E & Ht). f_equal.
        destruct base as [|x base]; simpl in E; inversion E; subst.
        -- apply rsplit1_last_none in Ht. congruence.
        -- assert (Hs : Some t' = Some t) by (apply IH; eauto).
           inversion Hs. reflexivity.
    + apply rsplit1_last_none in Er. split.
      * destruct (Ascii.eqb_spec c "."); [|discriminate].
        intros E. inversion E; subst. exists "". auto.
      * intros (base & E & Ht).
        destruct base as [|x base]; simpl in E; inversion E; subst.
        -- reflexivity.
        -- rewrite contains_app_r in Er; [discriminate|].
           rewrite contains_dot. reflexivity.
Qed.

Lemma lower_pdf_no_dot (ext : string) :
  Py.lower ext = "pdf" -> Py.contains "." ext = false.
Proof.
  destruct ext as [|a [|b [|c [|d ext]]]]; try discriminate.
  intros E. cbn [Py.lower] in E. inversion E as [[Ha Hb Hc]].
  rewrite !contains_dot.
  destruct (Ascii.eqb_spec a "."); [subst a; vm_compute in Ha; discriminate|].
  destruct (Ascii.eqb_spec b "."); [subst b; vm_compute in Hb; discriminate|].
  destruct (Ascii.eqb_spec c "."); [subst c; vm_compute in Hc; discriminate|].
  reflexivity.
Qed.

(** X27.  [allowed_file] never raises, and it accepts exactly the names
    that end in a dot followed by "pdf" in any mix of upper and lower
    case. *)
Theorem allowed_file_accepts_pdf (filename : string) :
  (exists b, allowed_file filename = Ret b) /\
  (allowed_file filename = Ret true <->
   exists base ext, filename = base ++ "." ++ ext /\ Py.lower ext = "pdf").
Proof.
  unfold allowed_file.
  destruct (Py.contains "." filename) eqn:Ec.
  - destruct (Py.rsplit1_last "." filename) as [ext|] eqn:Er.
    + split; [eauto|].
      apply rsplit1_last_some in Er. destruct Er as (base & -> & Hext).
      split.
      * intros E.
        assert (Hb : bool_decide (Py.lower ext ∈ ALLOWED_EXTENSIONS) = true)
          by congruence.
        apply bool_decide_eq_true in Hb.
        unfold ALLOWED_EXTENSIONS in Hb. apply elem_of_singleton in Hb. eauto.
      * intros (base' & ext' & E & Hl). f_equal. apply bool_decide_eq_true.
        unfold ALLOWED_EXTENSIONS. apply elem_of_singleton.
        assert (Hr : Py.rsplit1_last "." (base ++ "." ++ ext) = Some ext)
          by (apply rsplit1_last_some; eauto).
        rewrite E in Hr.
        assert (Hr' : Py.rsplit1_last "." (base' ++ "." ++ ext') = Some ext')
          by (apply rsplit1_last_some; eauto using lower_pdf_no_dot).
        assert (Heq : ext = ext') by congruence.
        rewrite Heq. exact Hl.
    + apply rsplit1_last_none in Er. congruence.
  - split; [eauto|]. split; [discriminate|].
    intros (base & ext & -> & _).
    rewrite contains_app_r in Ec; [discriminate|].
    apply (contains_app_l "." "." ext). reflexivity.
Qed.

End UploadFilter.

(** * The topic guard *)

Section TopicGuard.
Import LLMClient.

Lemma contains_nil (k : string) : k <> "" -> Py.contains k "" = false.
Proof. destruct k; [congruence|reflexivity]. Qed.

Lemma prefix_split (k : string) :
  forall s, String.prefix k s = true -> exists b, s = k ++ b.
Proof.
  induction k as [|x k IH]; intros s Hp; [exists s; reflexivity|].
  destruct s as [|y s]; simpl in Hp; [discriminate|].
  destruct (ascii_dec x y) as [<-|]; [|discriminate].
  destruct (IH s Hp) as [b ->]. exists b. reflexivity.
Qed.

Lemma contains_split (k s : string) :
  Py.contains k s = true -> exists a b, s = a ++ k ++ b.
Proof.
  induction s as [|c s IH]; rewrite contains_unfold; intros H;
    apply orb_true_iff in H; destruct H as [H|H]; try discriminate.
  - destruct (prefix_split k _ H) as [b E]. exists "", b. exact E.
  - destruct (prefix_split k _ H) as [b E]. exists "", b. exact E.
  - destruct (IH H) as (a & b & ->). exists (String c a), b. reflexivity.
Qed.

(** An occurrence of a word takes up its characters. *)
Lemma contains_len (k s : string) :
  Py.contains k s = true -> (Py.len k <= Py.len s)%nat.
Proof.
  intros H. destruct (contains_split k s H) as (a & b & ->).
  rewrite !len_app. lia.
Qed.

(** Stripping the text does not lose an occurrence of a word that has
    no whitespace at its ends. *)
Lemma contains_lstrip (k s : string) :
  starts_nonspace k = true ->
  Py.contains k s = true -> Py.contains k (Py.lstrip s) = true.
Proof.
  intros Hk. induction s as [|c s IH]; [auto|].
  simpl Py.lstrip. destruct (Py.isspace c) eqn:Hc; [|auto].
  rewrite contains_unfold. intros H. apply orb_true_iff in H.
  destruct H as [H|H]; [|apply IH; exact H].
  destruct k as [|x k]; [discriminate|]. simpl in H, Hk.
  destruct (ascii_dec x c); [subst; rewrite Hc in Hk|]; discriminate.
Qed.

Lemma prefix_rstrip (k : string) :
  forall s,
    k <> "" -> last_nonspace false k = true ->
    String.prefix k s = true -> String.prefix k (Py.rstrip s) = true.
Proof.
  induction k as [|x k IH]; intros s Hne Hl Hp; [congruence|].
  destruct s as [|c s]; [discriminate|]. simpl in Hp.
  destruct (ascii_dec x c) as [<-|]; [|discriminate].
  cbn [Py.rstrip].
  destruct k as [|y k].
  - simpl in Hl. apply negb_true_iff in Hl. rewrite Hl.
    destruct (Py.rstrip s); simpl; destruct (ascii_dec x x); try congruence;
      apply prefix_nil.
  - assert (Hr : String.prefix (String y k) (Py.rstrip s) = true)
      by (apply IH; [congruence|exact Hl|exact Hp]).
    destruct (Py.rstrip s) as [|z r]; [discriminate|].
    simpl. destruct (ascii_dec x x); [|congruence]. exact Hr.
Qed.

Lemma contains_rstrip (k s : string) :
  k <> "" -> last_nonspace false k = true ->
  Py.contains k s = true -> Py.contains k (Py.rstrip s) = true.
Proof.
  intros Hne Hl. induction s as [|c s IH]; [auto|].
  rewrite contains_unfold. intros H. apply orb_true_iff in H.
  destruct H as [H|H].
  - rewrite contains_unfold. apply orb_true_iff. left.
    apply prefix_rstrip; assumption.
  - specialize (IH H). cbn [Py.rstrip].
    destruct (Py.rstrip s) as [|z r]; [rewrite contains_nil in IH; congruence|].
    rewrite contains_unfold. apply orb_true_iff. right. exact IH.
Qed.

Lemma contains_strip (k s : string) :
  trimmed k = true ->
  Py.contains k s = true -> Py.contains k (Py.strip s) = true.
Proof.
  intros Hk Hc. pose proof (trimmed_nonempty k Hk) as Hne.
  unfold trimmed in Hk. apply andb_true_iff in Hk. destruct Hk as [Hs Hl].
  unfold Py.strip. apply contains_lstrip; [exact Hs|].
  apply contains_rstrip; assumption.
Qed.

(** Every keyword has three characters or more and no whitespace at
    its ends. *)
Lemma insurance_keywords_shape (keyword : string) :
  keyword ∈ insurance_keywords ->
  trimmed keyword = true /\ (3 <= Py.len keyword)%nat.
Proof.
  assert (Hall : forallb (fun k => trimmed k && (3 <=? Py.len k)%nat)
                   insurance_keywords = true) by reflexivity.
  rewrite forallb_forall in Hall. intros Hin.
  apply list_elem_of_In in Hin. specialize (Hall keyword Hin).
  apply andb_true_iff in Hall. destruct Hall as [Ht Hl].
  split; [exact Ht|]. apply Nat.leb_le. exact Hl.
Qed.

(** X28.  A query that mentions one of the insurance keywords, in any
    letter case, is never turned away as off-topic, whatever it starts
    with. *)
Theorem insurance_keyword_is_on_topic (query keyword : string) :
  keyword ∈ insurance_keywords ->
  Py.contains keyword (Py.lower query) = true ->
  _is_non_insurance_query query = false.
Proof.
  intros Hin Hc. destruct (insurance_keywords_shape keyword Hin) as [Ht Hlen].
  pose proof (contains_strip keyword (Py.lower query) Ht Hc) as Hs.
  unfold _is_non_insurance_query.
  pose proof (contains_len _ _ Hs) as Hle.
  assert (Hlt : (Py.len (Py.strip (Py.lower query)) <? 3)%nat = false)
    by (apply Nat.ltb_ge; lia).
  rewrite Hlt.
  assert (He : existsb (fun keyword => Py.contains keyword
                                         (Py.strip (Py.lower query)))
                 insurance_keywords = true).
  { apply existsb_exists. exists keyword. split; [|exact Hs].
    apply list_elem_of_In. exact Hin. }
  rewrite He. reflexivity.
Qed.

End TopicGuard.

(** * From a file to the index *)

Section UploadPipeline.
Context `{Sklearn}.

(** X30.  The two calls [upload_files] and [hackrx_run] make for a file,
    [process_pdf] and then [add_documents] on its result, keep every
    indexed document traceable: it is a chunk of the cleaned text of the
    page its page number names, it carries the file name, and its text
    is stripped and at least 50 characters long. *)
Theorem uploaded_chunks_traceable (processor : DocumentProcessor.t)
    (pdf : Document) (filename : string) (chunks : list Chunk) (w : World)
    (d : Doc) :
  process_pdf processor (Ret pdf) filename = Ret chunks ->
  d ∈ documents (self (snd (add_documents chunks w))) ->
  (exists i raw,
     pdf !! i = Some (Ret raw) /\
     page (metadata d) = (i + 1)%nat /\
     d ∈ _create_chunks processor (_clean_text raw) (i + 1) filename) /\
  source (metadata d) = filename /\
  Py.strip (text d) = text d /\
  (50 <= Py.len (text d))%nat.
Proof.
  intros Hret. rewrite add_documents_documents. unfold relevant. intros Hd.
  apply list_elem_of_In, filter_In in Hd. destruct Hd as [Hin Hrel].
  apply _is_relevant_content_length in Hrel.
  apply process_pdf_ret in Hret. destruct Hret as (raws & -> & ->).
  apply list_elem_of_In, chunks_of_pages_elem in Hin.
  destruct Hin as (i & raw & Hi & Hc). simpl in Hc.
  destruct (create_chunks_page _ _ _ _ _ Hc) as [Hp Hs].
  destruct (create_chunks_well_formed _ _ _ _ _ Hc) as [_ Hw].
  split; [|split; [exact Hs|split; [exact Hw|]]].
  - exists i, raw. apply lookup_map_Ret in Hi. auto.
  - rewrite Hw in Hrel. exact Hrel.
Qed.

End UploadPipeline.

(** * Runs of the further properties on the bag-of-words instance *)

Section MoreRuns.
Import BagOfWords.

Lemma search_results_ranked_witness :
  let w := after [batch1] fresh in
  let results := returned (fst (search_documents "knee surgery" 5 w)) in
  fst (search_documents "knee surgery" 5 w) = Ret results /\
  Sorted not_below results.
Proof.
  assert (H1 : fst (search_documents "knee surgery" 5 (after [batch1] fresh))
               = Ret (returned (fst (search_documents "knee surgery" 5
                                       (after [batch1] fresh)))))
    by (vm_compute; reflexivity).
  split; [exact H1|].
  exact (search_results_ranked (after [batch1] fresh) "knee surgery" 5 _ H1).
Defined.

Lemma search_scores_capped_witness :
  let w := after [batch1] fresh in
  let results := returned (fst (search_documents "knee surgery" 5 w)) in
  fst (search_documents "knee surgery" 5 w) = Ret results /\
  forall r, r ∈ results ->
    PrimFloat.leb (similarity_score r) 1.0 = true \/
    exists sims idx,
      fst (similarities_of "knee surgery" w) = Ret sims /\
      sims !! idx = Some (similarity_score r).
Proof.
  assert (H1 : fst (search_documents "knee surgery" 5 (after [batch1] fresh))
               = Ret (returned (fst (search_documents "knee surgery" 5
                                       (after [batch1] fresh)))))
    by (vm_compute; reflexivity).
  split; [exact H1|].
  exact (search_scores_capped (after [batch1] fresh) "knee surgery" 5 _ H1).
Defined.

Lemma search_with_no_documents_witness :
  let w := after [batch1; noise] fresh in
  (vectors (self w) = Some batch1_matrix /\ documents (self w) = []) /\
  search_documents "knee surgery" 5 w = (Ret [], w).
Proof.
  assert (H1 : vectors (self (after [batch1; noise] fresh)) = Some batch1_matrix)
    by (vm_compute; reflexivity).
  assert (H2 : documents (self (after [batch1; noise] fresh)) = [])
    by (vm_compute; reflexivity).
  split; [auto|].
  exact (search_with_no_documents (after [batch1; noise] fresh) batch1_matrix
           "knee surgery" 5 H1 H2).
Defined.

Lemma snapshot_round_trip_witness :
  (no_faults (disk fresh) /\
   relevant batch1 <> [] /\
   fit_transform (self_vectorizer (self fresh)) (map text (relevant batch1))
   = (Some (vocabulary batch1_texts), Ret batch1_matrix)) /\
  let w' := snd (add_documents batch1 fresh) in
  self (__init__ 5000 (disk w')) = self w' /\
  documents (self w') = relevant batch1 /\
  vectors (self w') = Some batch1_matrix.
Proof.
  assert (H1 : no_faults (disk fresh))
    by (repeat split; intros; reflexivity).
  assert (H2 : relevant batch1 <> []) by (vm_compute; discriminate).
  assert (H3 : fit_transform (self_vectorizer (self fresh))
                 (map text (relevant batch1))
               = (Some (vocabulary batch1_texts), Ret batch1_matrix))
    by (vm_compute; reflexivity).
  split; [auto|].
  exact (snapshot_round_trip fresh batch1 (Some (vocabulary batch1_texts))
           batch1_matrix 5000 H1 H2 H3).
Defined.

Lemma startup_without_snapshot_is_empty_witness :
  (vectorizer_pkl healthy_disk = None \/ vectors_pkl healthy_disk = None \/
   documents_pkl healthy_disk = None \/
   (exists f, read_fails healthy_disk f = true)) /\
  let w := __init__ 5000 healthy_disk in
  vectors (self w) = None /\ documents (self w) = [] /\
  is_fitted (self w) = false /\ disk w = healthy_disk /\
  fst (get_document_count w) = Ret 0%nat.
Proof.
  assert (H1 : vectorizer_pkl healthy_disk = None \/
               vectors_pkl healthy_disk = None \/
               documents_pkl healthy_disk = None \/
               (exists f, read_fails healthy_disk f = true))
    by (left; reflexivity).
  split; [exact H1|].
  exact (startup_without_snapshot_is_empty 5000 healthy_disk H1).
Defined.

Lemma clear_removes_snapshot_witness :
  let w := after [batch1] fresh in
  (forall f, remove_fails (disk w) f = false) /\
  let d := disk (snd (clear_all_documents w)) in
  vectorizer_pkl d = None /\ vectors_pkl d = None /\ documents_pkl d = None /\
  documents (self (__init__ 5000 d)) = [] /\
  vectors (self (__init__ 5000 d)) = None.
Proof.
  assert (H1 : forall f, remove_fails (disk (after [batch1] fresh)) f = false)
    by (intros f; vm_compute; reflexivity).
  split; [exact H1|].
  exact (clear_removes_snapshot (after [batch1] fresh) 5000 H1).
Defined.

Lemma indexed_documents_relevant_witness :
  let d := page_chunk knee_alpha_text 1 in
  d ∈ documents (self (snd (add_documents batch1 fresh))) /\
  (d ∈ batch1 /\ _is_relevant_content (text d) = true /\
   (50 <= Py.len (Py.strip (text d)))%nat).
Proof.
  assert (H1 : page_chunk knee_alpha_text 1
               ∈ documents (self (snd (add_documents batch1 fresh))))
    by (vm_compute; left).
  split; [exact H1|].
  exact (indexed_documents_relevant batch1 fresh _ H1).
Defined.

Lemma failed_fit_leaves_documents_witness :
  let docs := [page_chunk maternity_text 1] in
  (vectors (self fresh) = None /\
   relevant docs <> [] /\
   fit_transform (self_vectorizer (self fresh)) (map text (relevant docs))
   = (None, Raise ValueError)) /\
  exists w',
    add_documents docs fresh = (Raise ValueError, w') /\
    get_document_count w' = (Ret (length (relevant docs)), w') /\
    (0 < length (relevant docs))%nat /\
    forall query k, search_documents query k w' = (Raise AttributeError, w').
Proof.
  assert (H1 : vectors (self fresh) = None) by reflexivity.
  assert (H2 : relevant [page_chunk maternity_text 1] <> [])
    by (vm_compute; discriminate).
  assert (H3 : fit_transform (self_vectorizer (self fresh))
                 (map text (relevant [page_chunk maternity_text 1]))
               = (None, Raise ValueError))
    by (vm_compute; reflexivity).
  split; [auto|].
  exact (failed_fit_leaves_documents [page_chunk maternity_text 1] fresh
           None ValueError H1 H2 H3).
Defined.

Lemma search_after_clear_and_irrelevant_batch_witness :
  let w := after [batch1] fresh in
  relevant noise = [] /\
  let w1 := snd (clear_all_documents w) in
  let w2 := snd (add_documents noise w1) in
  add_documents noise w1 = (Ret tt, w2) /\
  fst (get_document_count w2) = Ret 0%nat /\
  search_documents "knee surgery" 10 w2 = (Raise AttributeError, w2).
Proof.
  assert (H1 : relevant noise = []) by (vm_compute; reflexivity).
  split; [exact H1|].
  exact (search_after_clear_and_irrelevant_batch noise (after [batch1] fresh)
           "knee surgery" 10 H1).
Defined.

Lemma chunk_texts_well_formed_witness :
  let c := page_chunk knee_alpha_text 1 in
  c ∈ _create_chunks DocumentProcessor.__init__ knee_alpha_text 1 "policy.pdf" /\
  (DocumentProcessor.text c <> "" /\
   Py.strip (DocumentProcessor.text c) = DocumentProcessor.text c).
Proof.
  assert (H1 : page_chunk knee_alpha_text 1
               ∈ _create_chunks DocumentProcessor.__init__ knee_alpha_text 1
                   "policy.pdf")
    by (vm_compute; left).
  split; [exact H1|].
  exact (chunk_texts_well_formed DocumentProcessor.__init__ knee_alpha_text 1
           "policy.pdf" _ H1).
Defined.

Lemma chunk_size_bound_witness :
  let c := page_chunk knee_alpha_text 1 in
  c ∈ _create_chunks DocumentProcessor.__init__ knee_alpha_text 1 "policy.pdf" /\
  ((Py.len (DocumentProcessor.text c)
    <= chunk_size DocumentProcessor.__init__)%nat \/
   exists s, s ∈ split_sentences knee_alpha_text /\
             DocumentProcessor.text c = Py.strip s).
Proof.
  assert (H1 : page_chunk knee_alpha_text 1
               ∈ _create_chunks DocumentProcessor.__init__ knee_alpha_text 1
                   "policy.pdf")
    by (vm_compute; left).
  split; [exact H1|].
  exact (chunk_size_bound DocumentProcessor.__init__ knee_alpha_text 1
           "policy.pdf" _ H1).
Defined.

Lemma blank_text_no_chunks_witness :
  Py.strip "   " = "" /\
  _create_chunks DocumentProcessor.__init__ "   " 1 "policy.pdf" = [].
Proof.
  assert (H1 : Py.strip "   " = "") by reflexivity.
  split; [exact H1|].
  exact (blank_text_no_chunks DocumentProcessor.__init__ "   " 1 "policy.pdf" H1).
Defined.

Lemma digit_free_page_unlabelled_witness :
  let c := page_chunk dental_text 3 in
  (is_ascii dental_text = true /\
   has_digit dental_text = false /\
   c ∈ _create_chunks DocumentProcessor.__init__ dental_text 3 "policy.pdf") /\
  (clause_title (metadata c) = "" /\ clause_number (metadata c) = "").
Proof.
  assert (H0 : is_ascii dental_text = true) by reflexivity.
  assert (H1 : has_digit dental_text = false) by reflexivity.
  assert (H2 : page_chunk dental_text 3
               ∈ _create_chunks DocumentProcessor.__init__ dental_text 3
                   "policy.pdf")
    by (vm_compute; left).
  split; [auto|].
  exact (digit_free_page_unlabelled DocumentProcessor.__init__ dental_text 3
           "policy.pdf" _ H0 H1 H2).
Defined.

Lemma parse_structured_query_needs_digit_witness :
  (is_ascii "knee surgery in pune" = true /\
   has_digit "knee surgery in pune" = false /\
   "knee" ∈ _parse_structured_query "knee surgery in pune") /\
  ("knee" <> "age" /\ "knee" <> "waiting period" /\ "knee" <> "policy duration").
Proof.
  assert (H0 : is_ascii "knee surgery in pune" = true) by reflexivity.
  assert (H1 : has_digit "knee surgery in pune" = false) by reflexivity.
  assert (H2 : "knee" ∈ _parse_structured_query "knee surgery in pune")
    by (apply (bool_decide_unpack _); vm_compute; exact I).
  split; [auto|].
  exact (parse_structured_query_needs_digit "knee surgery in pune" "knee"
           H0 H1 H2).
Defined.

Lemma process_pdf_chunks_of_pages_witness :
  let self := DocumentProcessor.__init__ in
  let chunks := returned (process_pdf self (Ret sample_document) "policy.pdf") in
  let c := page_chunk "Dental treatment is excluded." 3 in
  process_pdf self (Ret sample_document) "policy.pdf" = Ret chunks /\
  (c ∈ chunks <->
   exists i raw,
     sample_document !! i = Some (Ret raw) /\
     page (metadata c) = (i + 1)%nat /\
     source (metadata c) = "policy.pdf" /\
     c ∈ _create_chunks self (_clean_text raw) (i + 1) "policy.pdf").
Proof.
  assert (H1 : process_pdf DocumentProcessor.__init__ (Ret sample_document)
                 "policy.pdf"
               = Ret (returned (process_pdf DocumentProcessor.__init__
                                  (Ret sample_document) "policy.pdf")))
    by (vm_compute; reflexivity).
  split; [exact H1|].
  exact (process_pdf_chunks_of_pages DocumentProcessor.__init__ "policy.pdf"
           sample_document _ _ H1).
Defined.

Lemma process_pdf_ordered_witness :
  let self := DocumentProcessor.__init__ in
  let chunks := returned (process_pdf self (Ret sample_document) "policy.pdf") in
  process_pdf self (Ret sample_document) "policy.pdf" = Ret chunks /\
  (StronglySorted chunk_before chunks /\
   forall i j ci cj,
     chunks !! i = Some ci -> chunks !! j = Some cj ->
     page (metadata ci) = page (metadata cj) ->
     chunk_id (metadata ci) = chunk_id (metadata cj) ->
     i = j).
Proof.
  assert (H1 : process_pdf DocumentProcessor.__init__ (Ret sample_document)
                 "policy.pdf"
               = Ret (returned (process_pdf DocumentProcessor.__init__
                                  (Ret sample_document) "policy.pdf")))
    by (vm_compute; reflexivity).
  split; [exact H1|].
  exact (process_pdf_ordered DocumentProcessor.__init__ "policy.pdf"
           sample_document _ H1).
Defined.

Lemma blank_page_gives_no_chunk_witness :
  let self := DocumentProcessor.__init__ in
  let chunks := returned (process_pdf self (Ret sample_document) "policy.pdf") in
  let c := page_chunk "Dental treatment is excluded." 3 in
  (process_pdf self (Ret sample_document) "policy.pdf" = Ret chunks /\
   sample_document !! 1%nat = Some (Ret "   ") /\
   nonblank "   " = false /\
   c ∈ chunks) /\
  page (metadata c) <> (1 + 1)%nat.
Proof.
  assert (H1 : process_pdf DocumentProcessor.__init__ (Ret sample_document)
                 "policy.pdf"
               = Ret (returned (process_pdf DocumentProcessor.__init__
                                  (Ret sample_document) "policy.pdf")))
    by (vm_compute; reflexivity).
  assert (H2 : sample_document !! 1%nat = Some (Ret "   ")) by reflexivity.
  assert (H3 : nonblank "   " = false) by reflexivity.
  assert (H4 : page_chunk "Dental treatment is excluded." 3
               ∈ returned (process_pdf DocumentProcessor.__init__
                             (Ret sample_document) "policy.pdf"))
    by (vm_compute; right; left).
  split; [auto|].
  exact (blank_page_gives_no_chunk DocumentProcessor.__init__ "policy.pdf"
           sample_document _ 1 "   " _ H1 H2 H3 H4).
Defined.

Lemma insurance_keyword_is_on_topic_witness :
  ("claim" ∈ LLMClient.insurance_keywords /\
   Py.contains "claim" (Py.lower "Candy CLAIM") = true) /\
  LLMClient._is_non_insurance_query "Candy CLAIM" = false.
Proof.
  assert (H1 : "claim" ∈ LLMClient.insurance_keywords)
    by (apply (bool_decide_unpack _); vm_compute; exact I).
  assert (H2 : Py.contains "claim" (Py.lower "Candy CLAIM") = true)
    by (vm_compute; reflexivity).
  split; [auto|].
  exact (insurance_keyword_is_on_topic "Candy CLAIM" "claim" H1 H2).
Defined.

Lemma uploaded_chunks_traceable_witness :
  let processor := DocumentProcessor.__init__ in
  let pdf := [Ret knee_alpha_text; Ret "   "; Ret dental_text] in
  let chunks := returned (process_pdf processor (Ret pdf) "policy.pdf") in
  let d := page_chunk dental_text 3 in
  (process_pdf processor (Ret pdf) "policy.pdf" = Ret chunks /\
   d ∈ documents (self (snd (add_documents chunks fresh)))) /\
  (exists i raw,
     pdf !! i = Some (Ret raw) /\
     page (metadata d) = (i + 1)%nat /\
     d ∈ _create_chunks processor (_clean_text raw) (i + 1) "policy.pdf") /\
  source (metadata d) = "policy.pdf" /\
  Py.strip (text d) = text d /\
  (50 <= Py.len (text d))%nat.
Proof.
  assert (H1 : process_pdf DocumentProcessor.__init__
                 (Ret [Ret knee_alpha_text; Ret "   "; Ret dental_text])
                 "policy.pdf"
               = Ret (returned
                        (process_pdf DocumentProcessor.__init__
                           (Ret [Ret knee_alpha_text; Ret "   "; Ret dental_text])
                           "policy.pdf")))
    by (vm_compute; reflexivity).
  assert (H2 : page_chunk dental_text 3
               ∈ documents
                   (self (snd (add_documents
                                 (returned
                                    (process_pdf DocumentProcessor.__init__
                                       (Ret [Ret knee_alpha_text; Ret "   ";
                                             Ret dental_text])
                                       "policy.pdf"))
                                 fresh))))
    by (vm_compute; right; left).
  split; [auto|].
  exact (uploaded_chunks_traceable DocumentProcessor.__init__
           [Ret knee_alpha_text; Ret "   "; Ret dental_text] "policy.pdf"
           _ fresh _ H1 H2).
Defined.

End MoreRuns.
